(** * UpdateManager: change tracking and sync packaging

    A shallow embedding of the change-tracking engine of the FlutterFlow
    VS Code extension ([ffState/UpdateManager.ts], [actions/pushToFF.ts])
    together with the properties its specification states about it.

    Conventions of the embedding.
    - A JavaScript value that may be [null] or [undefined] is a [js A].
    - A [Map<string, V>] is a [JsMap.t V]: an association list in
      insertion order, with the replace-in-place behaviour of [Map.set].
    - [FileInfo] objects are mutable and shared by reference, so they
      live in a heap (a list indexed by address) and [_fileMap] maps a
      key to an address.
    - The file system is a finite map from the paths of the files to
      their contents.  A read of an absent path throws, and so does a
      write into a directory that does not exist; which directories
      exist is read off the disk by the platform ([directoryExists]).
      Other causes of a failing read or write (permissions, a full
      disk) are not modelled.
    - Methods run in a state-and-exception monad over the [World]: the
      effects performed before a [throw] stay visible.
    - Diagnostics printed on the console are not part of the state. *)

From Stdlib Require Import QArith.
From stdpp Require Import gmap strings list fin_maps pretty.

Open Scope string_scope.
Open Scope list_scope.

(** ** JavaScript values *)

Inductive js (A : Type) : Type :=
  | JNull
  | JUndefined
  | JVal (a : A).

Arguments JNull {A}.
Arguments JUndefined {A}.
Arguments JVal {A} a.

#[global] Instance js_eq_dec {A} `{EqDecision A} : EqDecision (js A).
Proof. solve_decision. Defined.

(** [a === b] on values of the same static type. *)
Definition strict_eq {A} `{EqDecision A} (a b : js A) : bool :=
  bool_decide (a = b).

(** [a ?? b] *)
Definition nullish {A} (a b : js A) : js A :=
  match a with
  | JVal _ => a
  | _ => b
  end.

(** [arr[0]] *)
Definition first {A} (arr : list A) : js A :=
  match arr with
  | [] => JUndefined
  | x :: _ => JVal x
  end.

(** [arr.find(p)] *)
Fixpoint find {A} (p : A → bool) (arr : list A) : js A :=
  match arr with
  | [] => JUndefined
  | x :: rest => if p x then JVal x else find p rest
  end.

(** Truthiness of a [string | null | undefined]. *)
Definition truthy (v : js string) : bool :=
  match v with
  | JVal s => negb (String.eqb s "")
  | _ => false
  end.

Infix "===" := strict_eq (at level 70, no associativity).
Infix "??" := nullish (at level 45, right associativity).

(** ** [Map<string, V>] *)

Module JsMap.

Definition t (V : Type) : Type := list (string * V).

Definition empty {V} : t V := [].

Fixpoint get {V} (k : string) (m : t V) : option V :=
  match m with
  | [] => None
  | (k', v) :: rest => if String.eqb k' k then Some v else get k rest
  end.

Definition has {V} (k : string) (m : t V) : bool :=
  match get k m with
  | Some _ => true
  | None => false
  end.

(** [m.set(k, v)]: an existing key keeps its position, a new key goes
    last. *)
Fixpoint set {V} (k : string) (v : V) (m : t V) : t V :=
  match m with
  | [] => [(k, v)]
  | (k', v') :: rest =>
      if String.eqb k' k then (k, v) :: rest else (k', v') :: set k v rest
  end.

Fixpoint delete {V} (k : string) (m : t V) : t V :=
  match m with
  | [] => []
  | (k', v') :: rest =>
      if String.eqb k' k then delete k rest else (k', v') :: delete k rest
  end.

(** [new Map(entries)] *)
Definition of_entries {V} (entries : list (string * V)) : t V :=
  fold_left (λ m kv, set kv.1 kv.2 m) entries empty.

Definition keys {V} (m : t V) : list string := m.*1.

End JsMap.

(** ** Data model *)

Inductive CodeType : Type :=
  | ACTION
  | WIDGET
  | FUNCTION
  | OTHER
  | DEPENDENCIES.

#[global] Instance CodeType_eq_dec : EqDecision CodeType.
Proof. solve_decision. Defined.

Record FileInfo : Type := mkFileInfo {
  old_identifier_name : js string;
  new_identifier_name : js string;
  type : CodeType;
  is_deleted : bool;
  original_checksum : js string;
  current_checksum : js string;
}.

#[global] Instance FileInfo_eq_dec : EqDecision FileInfo.
Proof. solve_decision. Defined.

Definition with_old_identifier_name (v : js string) (f : FileInfo) :=
  mkFileInfo v (new_identifier_name f) (type f) (is_deleted f)
    (original_checksum f) (current_checksum f).
Definition with_new_identifier_name (v : js string) (f : FileInfo) :=
  mkFileInfo (old_identifier_name f) v (type f) (is_deleted f)
    (original_checksum f) (current_checksum f).
Definition with_is_deleted (v : bool) (f : FileInfo) :=
  mkFileInfo (old_identifier_name f) (new_identifier_name f) (type f) v
    (original_checksum f) (current_checksum f).
Definition with_original_checksum (v : js string) (f : FileInfo) :=
  mkFileInfo (old_identifier_name f) (new_identifier_name f) (type f)
    (is_deleted f) v (current_checksum f).
Definition with_current_checksum (v : js string) (f : FileInfo) :=
  mkFileInfo (old_identifier_name f) (new_identifier_name f) (type f)
    (is_deleted f) (original_checksum f) v.

(** One parsed top-level function of the aggregate function document. *)
Record FunctionInfo : Type := mkFunctionInfo {
  name : string;
  content : string;
}.

Record RenamedFunction : Type := mkRenamedFunction {
  old_function_name : string;
  new_function_name : string;
  renamed_by_symbol : bool;
}.

Record FunctionChange : Type := mkFunctionChange {
  functions_to_rename : list RenamedFunction;
  functions_to_delete : list string;
  functions_to_add : list string;
}.

(** A parsed JSON document; an object lists its own properties in
    enumeration order. *)
#[local] Set Warnings "-register-all".
Inductive JSON : Type :=
  | json_null
  | json_bool (b : bool)
  | json_number (n : Q)
  | json_string (s : string)
  | json_array (items : list JSON)
  | json_object (props : list (string * JSON)).

(** The body and status of a fetch [Response]. *)
Record Response : Type := mkResponse {
  ok : bool;
  text : string;
}.

Inductive Error : Type :=
  | FsError                  (* ENOENT: a read of an absent path, a write
                                into an absent directory *)
  | Err (message : string)   (* [new Error(message)] *)
  | TypeError
  | SyntaxError.

Inductive Outcome (A : Type) : Type :=
  | Ok (a : A)
  | Throw (e : Error).

Arguments Ok {A} a.
Arguments Throw {A} e.

(** The file system: absolute path to file contents. *)
Abbreviation Disk := (gmap string string).

Definition Index : Type := JsMap.t (list string).

(** ** External collaborators

    Functions the engine imports from the platform or from modules of
    the extension that are outside the engine. *)

Class Env : Type := {
  (* node:path *)
  path_join : list string → string;
  path_basename : string → string;
  path_basename_ext : string → string → string;
  path_relative : string → string → string;
  path_dirname : string → string;
  path_sep : string;
  (* node:crypto, sha256 hex digest *)
  sha256_hex : string → string;
  (* node:fs, recursive directory listing *)
  readdir_recursive : Disk → string → Outcome (list string);
  (* node:fs, whether the path is a directory of the disk *)
  directoryExists : Disk → string → bool;
  (* fileUtils/FileInfo *)
  pathToCodeType : string → CodeType;
  (* fileUtils/fileParsing *)
  readFileMap : string → Disk → Outcome (JsMap.t FileInfo);
  writeFileMap : string → JsMap.t FileInfo → Disk → Disk;
  (* fileUtils/functionSimilarity *)
  functionSimilarity : string → string → option Q;
  (* fileUtils/addBoilerplate *)
  insertCustomActionBoilerplate : string → bool → string → Disk → Disk;
  insertCustomWidgetBoilerplate : string → bool → string → Disk → Disk;
  toCamelCase : string → string;
  toPascalCase : string → string;
  (* fileUtils/dartParser *)
  parseTopLevelFunctions : string → list FunctionInfo;
  getTopLevelNames : string → list string;
  parseIndexFileWithDart : string → Outcome Index;
  formatDartCode : string → string;
  (* JSON.parse and the string coercion applied to its argument *)
  JSON_parse : string → option JSON;
  JSON_toString : JSON → string;
}.

(** ** State *)

Abbreviation addr := nat.

Record UpdateManager : Type := mkUpdateManager {
  _fileMap : JsMap.t addr;
  _rootPath : string;
  actionIndex : Index;
  widgetIndex : Index;
  _functionsCode : string;
  _initialFunctionsCode : string;
  paused : bool;
}.

Definition with_fileMap (v : JsMap.t addr) (m : UpdateManager) :=
  mkUpdateManager v (_rootPath m) (actionIndex m) (widgetIndex m)
    (_functionsCode m) (_initialFunctionsCode m) (paused m).
Definition with_actionIndex (v : Index) (m : UpdateManager) :=
  mkUpdateManager (_fileMap m) (_rootPath m) v (widgetIndex m)
    (_functionsCode m) (_initialFunctionsCode m) (paused m).
Definition with_widgetIndex (v : Index) (m : UpdateManager) :=
  mkUpdateManager (_fileMap m) (_rootPath m) (actionIndex m) v
    (_functionsCode m) (_initialFunctionsCode m) (paused m).
Definition with_functionsCode (v : string) (m : UpdateManager) :=
  mkUpdateManager (_fileMap m) (_rootPath m) (actionIndex m) (widgetIndex m)
    v (_initialFunctionsCode m) (paused m).
Definition with_initialFunctionsCode (v : string) (m : UpdateManager) :=
  mkUpdateManager (_fileMap m) (_rootPath m) (actionIndex m) (widgetIndex m)
    (_functionsCode m) v (paused m).
Definition with_paused (v : bool) (m : UpdateManager) :=
  mkUpdateManager (_fileMap m) (_rootPath m) (actionIndex m) (widgetIndex m)
    (_functionsCode m) (_initialFunctionsCode m) v.

(** A ['fileChange'] notification: the full path and the [FileInfo]
    object handed to the listeners. *)
Definition Event : Type := (string * addr)%type.

Record World : Type := mkWorld {
  heap : list FileInfo;
  this : UpdateManager;
  disk : Disk;
  emitted : list Event;
}.

Definition with_heap (v : list FileInfo) (w : World) :=
  mkWorld v (this w) (disk w) (emitted w).
Definition with_this (v : UpdateManager) (w : World) :=
  mkWorld (heap w) v (disk w) (emitted w).
Definition with_disk (v : Disk) (w : World) :=
  mkWorld (heap w) (this w) v (emitted w).
Definition with_emitted (v : list Event) (w : World) :=
  mkWorld (heap w) (this w) (disk w) v.

(** ** The state-and-exception monad *)

Definition M (S A : Type) : Type := S → Outcome A * S.

Definition ret {S A} (a : A) : M S A := λ s, (Ok a, s).
Definition throw {S A} (e : Error) : M S A := λ s, (Throw e, s).
Definition bind {S A B} (m : M S A) (k : A → M S B) : M S B :=
  λ s, match m s with
       | (Ok a, s') => k a s'
       | (Throw e, s') => (Throw e, s')
       end.
Definition gets {S A} (f : S → A) : M S A := λ s, (Ok (f s), s).
Definition modify {S} (f : S → S) : M S unit := λ s, (Ok tt, f s).

(** [try { m } catch (error) { h }] *)
Definition try_catch {S A} (m : M S A) (h : Error → M S A) : M S A :=
  λ s, match m s with
       | (Ok a, s') => (Ok a, s')
       | (Throw e, s') => h e s'
       end.

(** Run a file-system computation inside the world. *)
Definition on_disk {A} (m : M Disk A) : M World A :=
  λ w, let '(r, d) := m (disk w) in (r, with_disk d w).

Notation "'let*' x ':=' m 'in' k" := (bind m (λ x, k))
  (at level 10, x pattern, m at level 100, k at level 200).
Notation "m ';;' k" := (bind m (λ _, k))
  (at level 100, k at level 200, right associativity).

(** ** Rename tie-break: [UpdateManager.getNewName] *)

Definition getNewName (topLevelDeclarations indexExports : list string)
    (oldName : js string) : js string :=
  let inIndexExport := first indexExports in
  let matchingDeclaration :=
    find (λ d, JVal d === inIndexExport) topLevelDeclarations in
  let oldDeclaration :=
    find (λ d, JVal d === oldName) topLevelDeclarations in
  let inFileDeclaration :=
    matchingDeclaration ?? oldDeclaration ?? first topLevelDeclarations in
  if (inIndexExport === inFileDeclaration) && (inIndexExport === oldName)
  then JNull
  else if (inIndexExport === inFileDeclaration)
          && negb (inIndexExport === oldName)
  then inFileDeclaration
  else if (inIndexExport === oldName)
          && negb (inFileDeclaration === oldName)
  then inFileDeclaration
  else if negb (inIndexExport === inFileDeclaration)
          && negb (inIndexExport === oldName)
  then JNull
  else JNull.

(** The declaration the tie-break compares against, as the specification
    words it: the declaration equal to the first export if there is one,
    else the declaration equal to the previous name if there is one, else
    the first declaration of the file ([undefined] when the file declares
    nothing). *)
Definition fileNameOf (decls : list string) (indexName : string)
    (previous : js string) : js string :=
  if bool_decide (indexName ∈ decls) then JVal indexName
  else match previous with
       | JVal p => if bool_decide (p ∈ decls) then JVal p else first decls
       | _ => first decls
       end.

(** ** The engine *)

Section Engine.

Context `{Env}.

(** *** File system *)

Definition readFile (p : string) : M Disk string :=
  λ d, match d !! p with
       | Some c => (Ok c, d)
       | None => (Throw FsError, d)
       end.

(** [fs.promises.writeFile]: the file is created or replaced; the call
    is rejected when the directory of the path does not exist. *)
Definition writeFile (p c : string) : M Disk unit :=
  λ d, if directoryExists d (path_dirname p)
       then (Ok tt, <[p := c]> d)
       else (Throw FsError, d).

Definition existsSync (p : string) : M Disk bool :=
  gets (λ d, bool_decide (is_Some (d !! p))).

Definition lift {S A} (r : Outcome A) : M S A := λ s, (r, s).

(** [computeChecksum] *)
Definition computeChecksum (filePath : string) : M Disk string :=
  let* fileContent := readFile filePath in
  ret (sha256_hex fileContent).

(** *** Objects *)

(** [this._fileMap.get(key)]: the address of the object and its current
    fields.  A variable that holds a [FileInfo] in the source holds the
    address here.  The addresses in the map of a world the engine builds
    all point into the heap; in any other world an address outside the
    heap reads as an absent key. *)
Definition lookupFile (key : string) (w : World) : option (addr * FileInfo) :=
  match JsMap.get key (_fileMap (this w)) with
  | Some a => match heap w !! a with
              | Some fileInfo => Some (a, fileInfo)
              | None => None
              end
  | None => None
  end.

(** A field assignment [fileInfo.x = v] on the object at [a]. *)
Definition assign (a : addr) (f : FileInfo → FileInfo) : M World unit :=
  modify (λ w, with_heap (alter f a (heap w)) w).

(** An object literal: a fresh object. *)
Definition new_object (fileInfo : FileInfo) : M World addr :=
  λ w, (Ok (length (heap w)), with_heap (heap w ++ [fileInfo]) w).

Definition load (a : addr) : M World FileInfo :=
  λ w, match heap w !! a with
       | Some fileInfo => (Ok fileInfo, w)
       | None => (Throw TypeError, w)
       end.

Definition update_this (f : UpdateManager → UpdateManager) : M World unit :=
  modify (λ w, with_this (f (this w)) w).

(** The map as [writeFileMap] sees it: every key with the fields of its
    object. *)
Definition snapshot (w : World) : JsMap.t FileInfo :=
  omap (λ kv, match heap w !! kv.2 with
              | Some fileInfo => Some (kv.1, fileInfo)
              | None => None
              end) (_fileMap (this w)).

Definition persist : M World unit :=
  modify (λ w, with_disk (writeFileMap (_rootPath (this w)) (snapshot w) (disk w)) w).

Definition emit (fullFilePath : string) (a : addr) : M World unit :=
  modify (λ w, with_emitted (emitted w ++ [(fullFilePath, a)]) w).

(** [fullPath] *)
Definition fullPath (rootPath filePath : string) (fileInfo : FileInfo) : string :=
  match type fileInfo with
  | ACTION => path_join [rootPath; "lib"; "custom_code"; "actions"; filePath]
  | WIDGET => path_join [rootPath; "lib"; "custom_code"; "widgets"; filePath]
  | FUNCTION => path_join [rootPath; "lib"; "flutter_flow"; filePath]
  | OTHER => path_join [rootPath; "lib"; "custom_code"; filePath]
  | DEPENDENCIES => path_join [rootPath; filePath]
  end.

Definition newline : string := String (Ascii.ascii_of_nat 10) "".

Definition actionsIndexPath (root : string) : string :=
  path_join [root; "lib"; "custom_code"; "actions"; "index.dart"].
Definition widgetsIndexPath (root : string) : string :=
  path_join [root; "lib"; "custom_code"; "widgets"; "index.dart"].

(** [saveIndexFile] *)
Definition saveIndexFile (indexContent : Index) (filePath : string) : M Disk unit :=
  let fileContent :=
    String.concat newline
      (map (λ kv, "export '" +:+ kv.1 +:+ "' show "
                  +:+ String.concat ", " kv.2 +:+ ";") indexContent) in
  let formattedContent := formatDartCode fileContent in
  writeFile filePath
    (if String.eqb formattedContent "" then "// No exports" else formattedContent).

(** *** [deleteFile] *)
Definition deleteFile (filePath : string) : M World (js addr) :=
  let* isPaused := gets (λ w, paused (this w)) in
  if isPaused : bool then ret JNull else
  let codeType := pathToCodeType filePath in
  let baseName := path_basename filePath in
  if decide (codeType = FUNCTION) then throw (Err "Cannot delete function file") else
  let* found := gets (lookupFile baseName) in
  match found with
  | None => ret JNull
  | Some (fileInfo, _) =>
      assign fileInfo (with_is_deleted true);;
      update_this (λ m, with_fileMap (JsMap.set baseName fileInfo (_fileMap m)) m);;
      let* root := gets (λ w, _rootPath (this w)) in
      (match codeType with
       | ACTION =>
           update_this (λ m, with_actionIndex (JsMap.delete baseName (actionIndex m)) m);;
           let* index := gets (λ w, actionIndex (this w)) in
           on_disk (saveIndexFile index (actionsIndexPath root))
       | WIDGET =>
           update_this (λ m, with_widgetIndex (JsMap.delete baseName (widgetIndex m)) m);;
           let* index := gets (λ w, widgetIndex (this w)) in
           on_disk (saveIndexFile index (widgetsIndexPath root))
       | _ => ret tt
       end);;
      persist;;
      let* fields := load fileInfo in
      emit (fullPath root baseName fields) fileInfo;;
      ret (JVal fileInfo)
  end.

(** *** [renameFile] *)
Definition renameFile (oldFilePath newFilePath : string) : M World (js addr) :=
  let* isPaused := gets (λ w, paused (this w)) in
  if isPaused : bool then ret JNull else
  let oldBaseName := path_basename oldFilePath in
  let* found := gets (lookupFile oldBaseName) in
  match found with
  | None => ret JNull
  | Some (fileInfo, _) =>
      update_this (λ m, with_fileMap
        (JsMap.set (path_basename newFilePath) fileInfo (_fileMap m)) m);;
      update_this (λ m, with_fileMap (JsMap.delete oldBaseName (_fileMap m)) m);;
      ret (JVal fileInfo)
  end.

Definition indexOf (codeType : CodeType) (m : UpdateManager) : Index :=
  if decide (codeType = ACTION) then actionIndex m else widgetIndex m.

Definition with_indexOf (codeType : CodeType) (v : Index) (m : UpdateManager) :=
  if decide (codeType = ACTION) then with_actionIndex v m else with_widgetIndex v m.

Definition customFunctionsPath (root : string) : string :=
  path_join [root; "lib"; "flutter_flow"; "custom_functions.dart"].

(** *** [updateFile] *)
Definition updateFile (filePath : string) : M World (js addr) :=
  let* isPaused := gets (λ w, paused (this w)) in
  if isPaused : bool then ret JNull else
  let baseName := path_basename filePath in
  let* found := gets (lookupFile baseName) in
  match found with
  | None => ret JNull
  | Some (fileInfo, _) =>
      (* Update checksum and check for changes *)
      let* checksum := on_disk (computeChecksum filePath) in
      assign fileInfo (with_current_checksum (JVal checksum));;
      let* fields := load fileInfo in
      if current_checksum fields === original_checksum fields
      then ret (JVal fileInfo) else
      let codeType := pathToCodeType filePath in
      assign fileInfo (with_is_deleted false);;
      let* root := gets (λ w, _rootPath (this w)) in
      (* Handle updates for actions and widgets *)
      (if bool_decide (codeType = ACTION) || bool_decide (codeType = WIDGET) then
         let* source := on_disk (readFile filePath) in
         let topLevelDeclarations := getTopLevelNames source in
         let* indexMap := gets (λ w, indexOf codeType (this w)) in
         let indexExports := default [] (JsMap.get baseName indexMap) in
         if bool_decide (length indexExports = 0) then ret tt else
         let* fields := load fileInfo in
         (* Check for renames *)
         match getNewName topLevelDeclarations indexExports
                 (old_identifier_name fields) with
         | JVal newName =>
             if String.eqb newName "" then ret tt else
             assign fileInfo (with_new_identifier_name (JVal newName));;
             if negb (first indexExports === JVal newName) then
               update_this (λ m, with_indexOf codeType
                 (JsMap.set baseName [newName] (indexOf codeType m)) m);;
               let* indexMap := gets (λ w, indexOf codeType (this w)) in
               let indexPath :=
                 if decide (codeType = ACTION)
                 then actionsIndexPath root else widgetsIndexPath root in
               on_disk (saveIndexFile indexMap indexPath)
             else ret tt
         | _ => ret tt
         end
       else ret tt);;
      (* Handle updates for functions *)
      (if bool_decide (codeType = FUNCTION) then
         let* code := on_disk (readFile (customFunctionsPath root)) in
         update_this (with_functionsCode code)
       else ret tt);;
      update_this (λ m, with_fileMap (JsMap.set baseName fileInfo (_fileMap m)) m);;
      persist;;
      let* fields := load fileInfo in
      emit (fullPath root baseName fields) fileInfo;;
      ret (JVal fileInfo)
  end.

(** [themeImportPath] *)
Definition themeImportPath : M World string :=
  let* root := gets (λ w, _rootPath (this w)) in
  let pubspecPath := path_join [root; "pubspec.yaml"] in
  let* pubspecText := on_disk (readFile pubspecPath) in
  let containsFFTheme := bool_decide (is_Some (String.index 0 "ff_theme" pubspecText)) in
  ret (if containsFFTheme : bool
       then "'package:ff_theme/flutter_flow/flutter_flow_theme.dart'"
       else "'/flutter_flow/flutter_flow_theme.dart'").

(** [customFunctionsExist] *)
Definition customFunctionsExist : M World bool := ret true.

(** [insertBoilerplate] *)
Definition insertBoilerplate (filePath : string) : M World unit :=
  if decide (pathToCodeType filePath = ACTION) then
    let* functionsExist := customFunctionsExist in
    let* theme := themeImportPath in
    modify (λ w, with_disk
      (insertCustomActionBoilerplate filePath functionsExist theme (disk w)) w)
  else if decide (pathToCodeType filePath = WIDGET) then
    let* functionsExist := customFunctionsExist in
    let* theme := themeImportPath in
    modify (λ w, with_disk
      (insertCustomWidgetBoilerplate filePath functionsExist theme (disk w)) w)
  else ret tt.

(** *** [addFile] *)
Definition addFile (filePath : string) : M World (js addr) :=
  let* isPaused := gets (λ w, paused (this w)) in
  if isPaused : bool then ret JNull else
  let codeType := pathToCodeType filePath in
  (* Add boilerplate if file is empty *)
  let* source := on_disk (readFile filePath) in
  (if bool_decide (String.length source = 0)
   then insertBoilerplate filePath else ret tt);;
  let baseName := path_basename filePath in
  let* existingFileInfo := gets (lookupFile baseName) in
  if match existingFileInfo with
     | Some (_, fields) => bool_decide (type fields = codeType)
     | None => false
     end
  then updateFile filePath else
  (* Create new FileInfo with default values *)
  let impliedName :=
    if decide (codeType = WIDGET)
    then toPascalCase (path_basename_ext filePath ".dart")
    else toCamelCase (path_basename_ext filePath ".dart") in
  let* fileInfo := new_object {|
    old_identifier_name := JVal impliedName;
    new_identifier_name := JVal impliedName;
    type := codeType;
    is_deleted := false;
    original_checksum := JUndefined;
    current_checksum := JUndefined |} in
  let* root := gets (λ w, _rootPath (this w)) in
  let relativePath :=
    path_relative (path_join [root; "lib"; "custom_code"]) filePath in
  (if decide (codeType = OTHER)
   then update_this (λ m, with_fileMap (JsMap.set relativePath fileInfo (_fileMap m)) m)
   else update_this (λ m, with_fileMap (JsMap.set baseName fileInfo (_fileMap m)) m));;
  (* Update relevant index file *)
  (match codeType with
   | ACTION =>
       update_this (λ m, with_actionIndex
         (JsMap.set baseName [impliedName] (actionIndex m)) m);;
       let* index := gets (λ w, actionIndex (this w)) in
       on_disk (saveIndexFile index (actionsIndexPath root))
   | WIDGET =>
       update_this (λ m, with_widgetIndex
         (JsMap.set baseName [impliedName] (widgetIndex m)) m);;
       let* index := gets (λ w, widgetIndex (this w)) in
       on_disk (saveIndexFile index (widgetsIndexPath root))
   | _ => ret tt
   end);;
  persist;;
  let* fields := load fileInfo in
  emit (fullPath root baseName fields) fileInfo;;
  ret (JVal fileInfo).

(** *** [functionChange] *)

Definition Qgtb (s maxSimilarity : Q) : bool := negb (Qle_bool s maxSimilarity).

(** The [similarities.forEach] scan, from position [index] on. *)
Fixpoint scanSimilarities (index : nat) (similarities : list (option Q))
    (maxSimilarity : option Q) (maxSimilarityIndex : option nat) : option nat :=
  match similarities with
  | [] => maxSimilarityIndex
  | s :: rest =>
      match s with
      | Some sv =>
          if match maxSimilarity with
             | None => true
             | Some mx => Qgtb sv mx
             end
          then scanSimilarities (S index) rest (Some sv) (Some index)
          else scanSimilarities (S index) rest maxSimilarity maxSimilarityIndex
      | None => scanSimilarities (S index) rest maxSimilarity maxSimilarityIndex
      end
  end.

(** The loop over [deletedFunctions]; [addedFunctions] and
    [renamedFunctions] are the arrays it updates. *)
Fixpoint detectRenames (deletedFunctions addedFunctions : list FunctionInfo)
    (renamedFunctions : list RenamedFunction)
    : list RenamedFunction * list FunctionInfo :=
  match deletedFunctions with
  | [] => (renamedFunctions, addedFunctions)
  | deletedFunction :: rest =>
      let similarities :=
        (λ f, functionSimilarity (content f) (content deletedFunction))
          <$> addedFunctions in
      match scanSimilarities 0 similarities None None with
      | Some maxSimilarityIndex =>
          match addedFunctions !! maxSimilarityIndex with
          | Some bestMatch =>
              detectRenames rest (delete maxSimilarityIndex addedFunctions)
                (renamedFunctions ++ [ {|
                   old_function_name := name deletedFunction;
                   new_function_name := name bestMatch;
                   renamed_by_symbol := false |} ])
          | None => detectRenames rest addedFunctions renamedFunctions
          end
      | None => detectRenames rest addedFunctions renamedFunctions
      end
  end.

(** [intialFunctionInfo.filter(f => !currentFunctionInfoMap.has(f.name))] *)
Definition deleted0 (intialFunctionInfo currentFunctionInfo : list FunctionInfo) :=
  filter (λ f, name f ∉ name <$> currentFunctionInfo) intialFunctionInfo.

(** [currentFunctionInfo.filter(f => !intialFunctionInfoMap.has(f.name))] *)
Definition added0 (intialFunctionInfo currentFunctionInfo : list FunctionInfo) :=
  filter (λ f, name f ∉ name <$> intialFunctionInfo) currentFunctionInfo.

Definition functionChange (m : UpdateManager) : FunctionChange :=
  let intialFunctionInfo := parseTopLevelFunctions (_initialFunctionsCode m) in
  let currentFunctionInfo := parseTopLevelFunctions (_functionsCode m) in
  let deletedFunctions := deleted0 intialFunctionInfo currentFunctionInfo in
  let addedFunctions := added0 intialFunctionInfo currentFunctionInfo in
  let '(renamedFunctions, addedFunctions) :=
    detectRenames deletedFunctions addedFunctions [] in
  let deletedFunctions :=
    filter (λ f, name f ∉ old_function_name <$> renamedFunctions)
      deletedFunctions in
  {| functions_to_rename := renamedFunctions;
     functions_to_delete := name <$> deletedFunctions;
     functions_to_add := name <$> addedFunctions |}.

(** *** [setToSynced] *)

Fixpoint forEach {S A} (items : list A) (body : A → M S unit) : M S unit :=
  match items with
  | [] => ret tt
  | x :: rest => body x;; forEach rest body
  end.

Definition kCustomFunctionsSnapshotPath : string :=
  path_join ["lib"; "flutter_flow"; "custom_functions_snapshot.txt"].

Definition rebase (fileInfo : FileInfo) : FileInfo :=
  let fileInfo := with_original_checksum (current_checksum fileInfo) fileInfo in
  with_old_identifier_name (new_identifier_name fileInfo) fileInfo.

Definition notDeleted (w : World) (entry : string * addr) : bool :=
  match heap w !! entry.2 with
  | Some fileInfo => negb (is_deleted fileInfo)
  | None => false
  end.

Definition setToSynced : M World unit :=
  let* entries := gets (λ w, _fileMap (this w)) in
  forEach entries (λ entry, assign entry.2 rebase);;
  let* kept := gets (λ w, List.filter (notDeleted w) (_fileMap (this w))) in
  update_this (with_fileMap (JsMap.of_entries kept));;
  update_this (λ m, with_initialFunctionsCode (_functionsCode m) m);;
  persist;;
  let* root := gets (λ w, _rootPath (this w)) in
  let* initial := gets (λ w, _initialFunctionsCode (this w)) in
  on_disk (writeFile (path_join [root; kCustomFunctionsSnapshotPath]) initial).

(** *** [pause], [resume] *)
Definition pause : M World unit := update_this (with_paused true).
Definition resume : M World unit := update_this (with_paused false).

(** *** Loading *)

Definition parseIndexFile (content : string) : Outcome Index :=
  parseIndexFileWithDart content.

(** [fileMapFromIndexFiles] *)
Definition fileMapFromIndexFiles (actionIndex widgetIndex : Index)
    : JsMap.t FileInfo :=
  let fileMap := JsMap.empty in
  (* Add actions *)
  let fileMap :=
    fold_left (λ fileMap entry,
      JsMap.set (path_basename entry.1) {|
        old_identifier_name := first entry.2;
        new_identifier_name := first entry.2;
        type := ACTION;
        is_deleted := false;
        original_checksum := JUndefined;
        current_checksum := JUndefined |} fileMap) actionIndex fileMap in
  (* Add widgets *)
  let fileMap :=
    fold_left (λ fileMap entry,
      JsMap.set (path_basename entry.1) {|
        old_identifier_name := first entry.2;
        new_identifier_name := first entry.2;
        type := WIDGET;
        is_deleted := false;
        original_checksum := JUndefined;
        current_checksum := JUndefined |} fileMap) widgetIndex fileMap in
  (* Add custom functions and pubspec *)
  let fileMap :=
    JsMap.set "custom_functions.dart" {|
      old_identifier_name := JVal "CustomFunctions";
      new_identifier_name := JVal "CustomFunctions";
      type := FUNCTION;
      is_deleted := false;
      original_checksum := JUndefined;
      current_checksum := JUndefined |} fileMap in
  JsMap.set "pubspec.yaml" {|
    old_identifier_name := JVal "pubspec.yaml";
    new_identifier_name := JVal "pubspec.yaml";
    type := DEPENDENCIES;
    is_deleted := false;
    original_checksum := JUndefined;
    current_checksum := JUndefined |} fileMap.

Definition endsWith (s suffix : string) : bool :=
  String.prefix (String.rev suffix) (String.rev s).

(** A [for ... of map.entries()] loop whose body replaces the value of
    the entry it visits. *)
Fixpoint forEntries {S V} (entries : list (string * V))
    (body : string → V → M S V) : M S (JsMap.t V) :=
  match entries with
  | [] => ret []
  | (k, v) :: rest =>
      let* v' := body k v in
      let* rest' := forEntries rest body in
      ret ((k, v') :: rest')
  end.

(** [computeFileMap] *)
Definition computeFileMap (filePath : string) : M Disk (JsMap.t FileInfo) :=
  let* actionText := readFile (actionsIndexPath filePath) in
  let* actionIndex := lift (parseIndexFile actionText) in
  let* widgetText := readFile (widgetsIndexPath filePath) in
  let* widgetIndex := lift (parseIndexFile widgetText) in
  let newFileMap := fileMapFromIndexFiles actionIndex widgetIndex in
  (* Custom code under /actions and /widgets are not handled here. *)
  let* files := λ d,
    (readdir_recursive d (path_join [filePath; "lib"; "custom_code"]), d) in
  let customCodeFiles :=
    List.filter (λ file,
      negb (String.prefix ("widgets" +:+ path_sep) file)
      && negb (String.prefix ("actions" +:+ path_sep) file)
      && endsWith file ".dart") files in
  let newFileMap :=
    fold_left (λ newFileMap file,
      JsMap.set file {|
        old_identifier_name := JVal file;
        new_identifier_name := JVal file;
        type := OTHER;
        is_deleted := false;
        original_checksum := JUndefined;
        current_checksum := JUndefined |} newFileMap)
      customCodeFiles newFileMap in
  forEntries newFileMap (λ filename fileInfo,
    let* fileChecksum :=
      match type fileInfo with
      | ACTION => computeChecksum
          (path_join [filePath; "lib"; "custom_code"; "actions"; filename])
      | WIDGET => computeChecksum
          (path_join [filePath; "lib"; "custom_code"; "widgets"; filename])
      | FUNCTION => computeChecksum
          (path_join [filePath; "lib"; "flutter_flow"; filename])
      | OTHER => computeChecksum
          (path_join [filePath; "lib"; "custom_code"; filename])
      | DEPENDENCIES => computeChecksum (path_join [filePath; filename])
      end in
    ret (with_original_checksum (JVal fileChecksum)
           (with_current_checksum (JVal fileChecksum) fileInfo))).

(** The objects of a freshly built map, placed in the heap from address
    [base] on. *)
Fixpoint addresses {V} (base : addr) (m : JsMap.t V) : JsMap.t addr :=
  match m with
  | [] => []
  | (k, _) :: rest => (k, base) :: addresses (S base) rest
  end.

Definition adopt (m : JsMap.t FileInfo) : M World (JsMap.t addr) :=
  λ w, (Ok (addresses (length (heap w)) m), with_heap (heap w ++ m.*2) w).

(** [refresh] *)
Definition refresh : M World unit :=
  let* root := gets (λ w, _rootPath (this w)) in
  update_this (with_actionIndex JsMap.empty);;
  try_catch
    (let* content := on_disk (readFile (actionsIndexPath root)) in
     let* index := lift (parseIndexFile content) in
     update_this (with_actionIndex index))
    (λ _, ret tt);;
  update_this (with_widgetIndex JsMap.empty);;
  try_catch
    (let* content := on_disk (readFile (widgetsIndexPath root)) in
     let* index := lift (parseIndexFile content) in
     update_this (with_widgetIndex index))
    (λ _, ret tt);;
  let* newFileMap := on_disk (computeFileMap root) in
  let* fileMap := adopt newFileMap in
  update_this (with_fileMap fileMap);;
  let* code := on_disk (readFile (customFunctionsPath root)) in
  update_this (with_functionsCode code);;
  update_this (λ m, with_initialFunctionsCode (_functionsCode m) m).

Definition fileMapJsonPath (projectPath : string) : string :=
  path_join [projectPath; ".vscode"; "file_map.json"].

(** The checksum backfill of one entry of the loaded map. *)
Definition verifyChecksums (projectPath filePath : string) (fileInfo : FileInfo)
    : M Disk FileInfo :=
  if negb (truthy (original_checksum fileInfo))
     && negb (truthy (current_checksum fileInfo))
  then
    let* checksum := computeChecksum (fullPath projectPath filePath fileInfo) in
    let fileInfo := with_original_checksum (JVal checksum) fileInfo in
    ret (with_current_checksum (original_checksum fileInfo) fileInfo)
  else ret fileInfo.

(** [deserializeUpdateManager]: the new manager and the objects its map
    refers to. *)
Definition deserializeUpdateManager (projectPath : string)
    : M Disk (list FileInfo * UpdateManager) :=
  let* actionIndexContent := readFile (actionsIndexPath projectPath) in
  let* actionIndex := lift (parseIndexFile actionIndexContent) in
  let* widgetIndexContent := readFile (widgetsIndexPath projectPath) in
  let* widgetIndex := lift (parseIndexFile widgetIndexContent) in
  let* functionsCode := readFile (customFunctionsPath projectPath) in
  let snapshotPath := path_join [projectPath; kCustomFunctionsSnapshotPath] in
  let* hasSnapshot := existsSync snapshotPath in
  let* initialFunctionsCode :=
    if hasSnapshot : bool then readFile snapshotPath else ret functionsCode in
  let* hasFileMap := existsSync (fileMapJsonPath projectPath) in
  let* fileMap :=
    if hasFileMap : bool then
      let* fileMap := λ d, (readFileMap projectPath d, d) in
      (* add the pubspec.yaml file to the file map if it's not already there *)
      if negb (JsMap.has "pubspec.yaml" fileMap) then
        ret (JsMap.set "pubspec.yaml" {|
          old_identifier_name := JVal "pubspec.yaml";
          new_identifier_name := JVal "pubspec.yaml";
          type := DEPENDENCIES;
          is_deleted := false;
          original_checksum := JUndefined;
          current_checksum := JUndefined |} fileMap)
      else ret fileMap
    else computeFileMap projectPath in
  (* Verify and compute checksums if needed *)
  let* fileMap := forEntries fileMap (verifyChecksums projectPath) in
  modify (writeFileMap projectPath fileMap);;
  ret (fileMap.*2,
       {| _fileMap := addresses 0 fileMap;
          _rootPath := projectPath;
          actionIndex := actionIndex;
          widgetIndex := widgetIndex;
          _functionsCode := functionsCode;
          _initialFunctionsCode := initialFunctionsCode;
          paused := false |}).

End Engine.

(** ** Sync response decoding: [parseSyncCodeResponse] *)

Section SyncPackager.

Context `{Env}.

(** [Object.entries(value)] *)
Definition Object_entries (value : JSON) : Outcome (list (string * JSON)) :=
  match value with
  | json_null => Throw TypeError
  | json_object props => Ok props
  | json_array items => Ok (imap (λ i item, (pretty i, item)) items)
  | json_string s =>
      Ok (imap (λ i c, (pretty i, json_string (String c EmptyString)))
            (String.list_ascii_of_string s))
  | json_bool _ | json_number _ => Ok []
  end.

(** [jsonResult.value] *)
Definition value_of (jsonResult : JSON) : Outcome (js JSON) :=
  match jsonResult with
  | json_null => Throw TypeError
  | json_object props =>
      Ok (match JsMap.get "value" props with
          | Some v => JVal v
          | None => JUndefined
          end)
  | _ => Ok JUndefined
  end.

(** [JSON.parse(argument)]: the argument is first coerced to a string. *)
Definition JSON_parse_value (argument : js JSON) : Outcome JSON :=
  let source :=
    match argument with
    | JVal (json_string s) => s
    | JVal v => JSON_toString v
    | JUndefined => "undefined"
    | JNull => "null"
    end in
  match JSON_parse source with
  | Some v => Ok v
  | None => Throw SyntaxError
  end.

Definition Outcome_bind {A B} (r : Outcome A) (k : A → Outcome B) : Outcome B :=
  match r with
  | Ok a => k a
  | Throw e => Throw e
  end.

(** The map both branches build from a decoded document. *)
Definition errorMapOf (document : JSON) : Outcome (JsMap.t JSON) :=
  Outcome_bind (Object_entries document) (λ entries, Ok (JsMap.of_entries entries)).

Definition parseSyncCodeResponse (response : Response) : Outcome (JsMap.t JSON) :=
  match JSON_parse (text response) with
  | None => Throw (Err (text response))
  | Some jsonResult =>
      if negb (ok response) then
        errorMapOf jsonResult
      else
        Outcome_bind (value_of jsonResult) (λ value,
        Outcome_bind (JSON_parse_value value) (λ valueObject,
        errorMapOf valueObject))
  end.

End SyncPackager.

(** ** A stand-in environment

    Simple collaborators on which the engine can be run: POSIX-like
    paths, directories that exist as long as they hold a file, a tagged
    copy of the content as digest, a file-map reader that yields a given
    snapshot and a JSON parser given as a table. *)

Module Stub.

Fixpoint basename_go (acc s : string) : string :=
  match s with
  | EmptyString => acc
  | String c rest =>
      if Ascii.eqb c (Ascii.ascii_of_nat 47) then basename_go EmptyString rest
      else basename_go (acc +:+ String c EmptyString) rest
  end.

Definition basename (p : string) : string := basename_go EmptyString p.

(** The part of [s] before the first [c]. *)
Fixpoint until (c : Ascii.ascii) (s : string) : string :=
  match s with
  | EmptyString => EmptyString
  | String x rest => if Ascii.eqb x c then EmptyString else String x (until c rest)
  end.

Definition strip_suffix (s suffix : string) : string :=
  if String.prefix (String.rev suffix) (String.rev s)
  then String.substring 0 (String.length s - String.length suffix) s
  else s.

Definition strip_prefix (pre s : string) : option string :=
  if String.prefix pre s
  then Some (String.substring (String.length pre) (String.length s - String.length pre) s)
  else None.

Definition includes (s part : string) : bool :=
  bool_decide (is_Some (String.index 0 part s)).

Definition codeTypeOf (p : string) : CodeType :=
  if includes p "custom_code/actions/" then ACTION
  else if includes p "custom_code/widgets/" then WIDGET
  else if String.eqb (basename p) "custom_functions.dart" then FUNCTION
  else if String.eqb (basename p) "pubspec.yaml" then DEPENDENCIES
  else OTHER.

Definition listing (d : Disk) (dir : string) : Outcome (list string) :=
  Ok (omap (λ kv, strip_prefix (dir +:+ "/") kv.1) (map_to_list d)).

(** The part of [s] before its last [/]; [acc] is the part read so far
    and [dir] the part before the last [/] read so far. *)
Fixpoint dirname_go (acc dir s : string) : string :=
  match s with
  | EmptyString => dir
  | String c rest =>
      if Ascii.eqb c (Ascii.ascii_of_nat 47)
      then dirname_go (acc +:+ "/") acc rest
      else dirname_go (acc +:+ String c EmptyString) dir rest
  end.

Definition dirname (p : string) : string :=
  dirname_go EmptyString EmptyString p.

(** A directory exists when a file of the disk lies below it. *)
Definition hasDirectory (d : Disk) (dir : string) : bool :=
  existsb (λ kv, String.prefix (dir +:+ "/") kv.1) (map_to_list d).

Definition renderFileMap (m : JsMap.t FileInfo) : string :=
  String.concat "," (JsMap.keys m).

Definition env (savedFileMap : JsMap.t FileInfo)
    (similarity : string → string → option Q)
    (parse : string → option JSON) : Env := {|
  path_join := String.concat "/";
  path_basename := basename;
  path_basename_ext := λ p ext, strip_suffix (basename p) ext;
  path_relative := λ from to, default to (strip_prefix (from +:+ "/") to);
  path_dirname := dirname;
  path_sep := "/";
  sha256_hex := λ content, "sha256:" +:+ content;
  readdir_recursive := listing;
  directoryExists := hasDirectory;
  pathToCodeType := codeTypeOf;
  readFileMap := λ _ _, Ok savedFileMap;
  writeFileMap := λ root m d,
    <[String.concat "/" [root; ".vscode"; "file_map.json"] := renderFileMap m]> d;
  functionSimilarity := similarity;
  insertCustomActionBoilerplate := λ p _ _ d, <[p := "// action"]> d;
  insertCustomWidgetBoilerplate := λ p _ _ d, <[p := "// widget"]> d;
  toCamelCase := λ s, s;
  toPascalCase := λ s, s;
  parseTopLevelFunctions := λ source,
    (λ word, {| name := until (Ascii.ascii_of_nat 58) word; content := word |})
      <$> String.words source;
  getTopLevelNames := String.words;
  parseIndexFileWithDart := λ content,
    Ok ((λ w, (w, [strip_suffix w ".dart"])) <$> String.words content);
  formatDartCode := λ s, s;
  JSON_parse := parse;
  JSON_toString := λ _, "[object Object]";
|}.

End Stub.

(** ** Sample worlds *)

Module Sample.

(** Scores of the greedy-match scenario of §8: [A] scores 0.9 against
    [A2] and 0.95 against [B2]; [B] scores 0.99 against [B2] and 0.1
    against [A2]. *)
Definition scores (added deleted : string) : option Q :=
  if String.eqb deleted "A:a" then
    if String.eqb added "A2:a2" then Some (9 # 10)
    else if String.eqb added "B2:b2" then Some (95 # 100)
    else None
  else if String.eqb deleted "B:b" then
    if String.eqb added "A2:a2" then Some (1 # 10)
    else if String.eqb added "B2:b2" then Some (99 # 100)
    else None
  else None.

Definition noJSON (source : string) : option JSON := None.

Definition renamingEnv : Env := Stub.env [] scores noJSON.

Definition renamingManager : UpdateManager := {|
  _fileMap := [];
  _rootPath := "/p";
  actionIndex := [];
  widgetIndex := [];
  _functionsCode := "A2:a2 B2:b2 C:c";
  _initialFunctionsCode := "A:a B:b C:c";
  paused := false |}.

(** The two responses of §8 and a parser that knows them. *)
Definition dq : string := String (Ascii.ascii_of_nat 34) EmptyString.
Definition bs : string := String (Ascii.ascii_of_nat 92) EmptyString.

(** The body [{ "foo.dart": [ { "message": "bad" } ] }], written without
    blanks. *)
Definition failureBody : string :=
  "{" +:+ dq +:+ "foo.dart" +:+ dq +:+ ":[{" +:+ dq +:+ "message" +:+ dq
  +:+ ":" +:+ dq +:+ "bad" +:+ dq +:+ "}]}".

(** The document [{ "foo.dart": [] }]. *)
Definition innerDocument : string :=
  "{" +:+ dq +:+ "foo.dart" +:+ dq +:+ ":[]}".

(** The envelope whose [value] is the text of [innerDocument]. *)
Definition successBody : string :=
  "{" +:+ dq +:+ "value" +:+ dq +:+ ": " +:+ dq +:+ "{" +:+ bs +:+ dq
  +:+ "foo.dart" +:+ bs +:+ dq +:+ ":[]}" +:+ dq +:+ "}".

Definition parseTable (source : string) : option JSON :=
  if String.eqb source failureBody then
    Some (json_object
            [("foo.dart",
              json_array [json_object [("message", json_string "bad")]])])
  else if String.eqb source successBody then
    Some (json_object [("value", json_string innerDocument)])
  else if String.eqb source innerDocument then
    Some (json_object [("foo.dart", json_array [])])
  else if String.eqb source "null" then Some json_null
  else None.

Definition syncEnv : Env := Stub.env [] (λ _ _, None) parseTable.

(** A project with one tracked action, [foo.dart], in sync with its
    baseline. *)
Definition env : Env := Stub.env [] (λ _ _, None) noJSON.

Definition fooPath : string := "/p/lib/custom_code/actions/foo.dart".

Definition fooInfo : FileInfo := {|
  old_identifier_name := JVal "foo";
  new_identifier_name := JVal "foo";
  type := ACTION;
  is_deleted := false;
  original_checksum := JVal "sha256:foo";
  current_checksum := JVal "sha256:foo" |}.

Definition manager : UpdateManager := {|
  _fileMap := [("foo.dart", 0)];
  _rootPath := "/p";
  actionIndex := [("foo.dart", ["foo"])];
  widgetIndex := [];
  _functionsCode := "";
  _initialFunctionsCode := "";
  paused := false |}.

Definition files : Disk :=
  <[fooPath := "foo"]>
  (<["/p/lib/custom_code/actions/index.dart" := "foo.dart"]>
  (<["/p/lib/custom_code/widgets/index.dart" := ""]>
  (<["/p/lib/flutter_flow/custom_functions.dart" := ""]>
  (<["/p/pubspec.yaml" := "name: p"]> ∅)))).

Definition world : World := {|
  heap := [fooInfo];
  this := manager;
  disk := files;
  emitted := [] |}.

(** The same project with both index documents missing. *)
Definition filesWithoutIndexes : Disk :=
  <[fooPath := "foo"]>
  (<["/p/lib/flutter_flow/custom_functions.dart" := ""]>
  (<["/p/pubspec.yaml" := "name: p"]> ∅)).

Definition worldWithoutIndexes : World := with_disk filesWithoutIndexes world.

(** A persisted snapshot in which [foo.dart] was added and edited but
    never synchronised: it has a current checksum and no baseline. *)
Definition unsyncedFoo : FileInfo := {|
  old_identifier_name := JVal "foo";
  new_identifier_name := JVal "foo";
  type := ACTION;
  is_deleted := false;
  original_checksum := JUndefined;
  current_checksum := JVal "sha256:foo" |}.

Definition savedEnv : Env :=
  Stub.env [("foo.dart", unsyncedFoo)] (λ _ _, None) noJSON.

(** A persisted snapshot in which [foo.dart] has no checksum at all. *)
Definition bareFoo : FileInfo := {|
  old_identifier_name := JVal "foo";
  new_identifier_name := JVal "foo";
  type := ACTION;
  is_deleted := false;
  original_checksum := JUndefined;
  current_checksum := JUndefined |}.

Definition bareEnv : Env :=
  Stub.env [("foo.dart", bareFoo)] (λ _ _, None) noJSON.

Definition filesWithFileMap : Disk :=
  <["/p/.vscode/file_map.json" := "foo.dart"]> files.

(** The project after an edit session: [foo.dart] was edited and its
    symbol renamed to [fooBar]; [bar.dart] was deleted. *)
Definition editedFoo : FileInfo := {|
  old_identifier_name := JVal "foo";
  new_identifier_name := JVal "fooBar";
  type := ACTION;
  is_deleted := false;
  original_checksum := JVal "sha256:foo";
  current_checksum := JVal "sha256:fooBar" |}.

Definition deletedBar : FileInfo := {|
  old_identifier_name := JVal "bar";
  new_identifier_name := JVal "bar";
  type := ACTION;
  is_deleted := true;
  original_checksum := JVal "sha256:bar";
  current_checksum := JVal "sha256:bar" |}.

Definition editedWorld : World := {|
  heap := [editedFoo; deletedBar];
  this := with_functionsCode "A2:a2"
            (with_fileMap [("foo.dart", 0); ("bar.dart", 1)] manager);
  disk := files;
  emitted := [] |}.

Definition pausedWorld : World := with_this (with_paused true manager) world.

End Sample.

(** ** Specification-side definitions *)

Section Specification.

Context `{Env}.

(** The greedy matching of §4.4, in the specification's words: the
    deleted entries are taken in their order; an entry is paired with
    the candidate of the pool whose score is strictly above every
    earlier candidate's and at least every later candidate's, and that
    candidate leaves the pool; an entry for which no candidate has a
    score stays unmatched.  [greedy deleted pool renames unmatched
    remaining] relates the two input lists to the three outputs. *)
Inductive greedy :
    list FunctionInfo → list FunctionInfo →
    list RenamedFunction → list FunctionInfo → list FunctionInfo → Prop :=
  | greedy_done pool :
      greedy [] pool [] [] pool
  | greedy_match d ds before best after score renames unmatched remaining :
      functionSimilarity (content best) (content d) = Some score →
      (∀ c s, c ∈ before →
         functionSimilarity (content c) (content d) = Some s → (s < score)%Q) →
      (∀ c s, c ∈ after →
         functionSimilarity (content c) (content d) = Some s → (s <= score)%Q) →
      greedy ds (before ++ after) renames unmatched remaining →
      greedy (d :: ds) (before ++ best :: after)
        ({| old_function_name := name d;
            new_function_name := name best;
            renamed_by_symbol := false |} :: renames)
        unmatched remaining
  | greedy_skip d ds pool renames unmatched remaining :
      (∀ c, c ∈ pool → functionSimilarity (content c) (content d) = None) →
      greedy ds pool renames unmatched remaining →
      greedy (d :: ds) pool renames (d :: unmatched) remaining.

(** A record is rebased when its baselines equal its current values. *)
Definition rebased (fileInfo : FileInfo) : Prop :=
  original_checksum fileInfo = current_checksum fileInfo
  ∧ old_identifier_name fileInfo = new_identifier_name fileInfo.

(** A write to the path [p] finds its directory on the disk [d]. *)
Definition writable (d : Disk) (p : string) : bool :=
  directoryExists d (path_dirname p).

(** The file that holds the function baseline of the project at
    [root]. *)
Definition snapshotPath (root : string) : string :=
  path_join [root; kCustomFunctionsSnapshotPath].

(** The world [setToSynced] has made when it comes to write the function
    snapshot, given the heap [h] its [forEach] produced: the records are
    rebased, the deleted ones have left the map, the function baseline
    is the current text and the map is persisted. *)
Definition committed (h : list FileInfo) (w : World) : World :=
  let w1 := with_heap h w in
  let kept := List.filter (notDeleted w1) (_fileMap (this w)) in
  let w2 :=
    with_this
      (with_initialFunctionsCode (_functionsCode (this w))
         (with_fileMap (JsMap.of_entries kept) (this w))) w1 in
  with_disk (writeFileMap (_rootPath (this w)) (snapshot w2) (disk w)) w2.

(** The world [setToSynced] leaves when the snapshot is written. *)
Definition synced (h : list FileInfo) (w : World) : World :=
  let w3 := committed h w in
  with_disk
    (<[snapshotPath (_rootPath (this w)) := _functionsCode (this w)]> (disk w3))
    w3.

(** *** File events *)

Inductive FileEvent : Type :=
  | Add (filePath : string)
  | Update (filePath : string)
  | Delete (filePath : string)
  | Rename (oldFilePath newFilePath : string).

Definition handle (event : FileEvent) : M World (js addr) :=
  match event with
  | Add filePath => addFile filePath
  | Update filePath => updateFile filePath
  | Delete filePath => deleteFile filePath
  | Rename oldFilePath newFilePath => renameFile oldFilePath newFilePath
  end.

(** The world after a sequence of events, each handled to completion
    before the next; an event whose handler throws leaves the world as
    the handler left it. *)
Definition run_events (events : list FileEvent) (w : World) : World :=
  fold_left (λ w event, (handle event w).2) events w.

(** Every object of [h] is still in [h'], at its address and with its
    category. *)
Definition types_kept (h h' : list FileInfo) : Prop :=
  ∀ a f, h !! a = Some f → ∃ f', h' !! a = Some f' ∧ type f' = type f.

(** No object is created, and every object keeps its category. *)
Definition same_objects (h h' : list FileInfo) : Prop :=
  length h' = length h ∧ types_kept h h'.

(** The objects of [w] are those of [w'], address by address, and each
    has kept its category. *)
Definition objects_kept (w w' : World) : Prop :=
  same_objects (heap w) (heap w').

(** If [key] is bound to the object at [a], the map has not changed. *)
Definition binding_kept (key : string) (a : addr) (w w' : World) : Prop :=
  JsMap.get key (_fileMap (this w)) = Some a →
  _fileMap (this w') = _fileMap (this w).

(** A relation between the world a computation finds and the world it
    leaves that holds across the effects of the engine other than
    rebinding a key of the map and creating an object: assignments to
    fields (the engine never assigns [type]), changes of the manager's
    other fields, file writes and notifications. *)
Class WorldRel (R : World → World → Prop) : Prop := {
  world_rel_refl w : R w w;
  world_rel_trans w1 w2 w3 : R w1 w2 → R w2 w3 → R w1 w3;
  world_rel_assign w a g :
    (∀ f, type (g f) = type f) → R w (with_heap (alter g a (heap w)) w);
  world_rel_this w f :
    _fileMap (f (this w)) = _fileMap (this w) → R w (with_this (f (this w)) w);
  world_rel_disk w d : R w (with_disk d w);
  world_rel_emitted w e : R w (with_emitted e w);
}.

(** [R] also holds across [this._fileMap.set(key, a)]. *)
Class Rebinds (R : World → World → Prop) (key : string) (a : addr) : Prop :=
  rebinds w :
    R w (with_this (with_fileMap (JsMap.set key a (_fileMap (this w))) (this w)) w).

(** [m] relates the world it finds to the world it leaves, on every
    path, also when it throws. *)
Definition steady (R : World → World → Prop) {A} (m : M World A) : Prop :=
  ∀ w, R w (m w).2.

(** *** Checksums of a loaded snapshot *)

(** Neither checksum is set (absent or empty). *)
Definition unverified (fileInfo : FileInfo) : bool :=
  negb (truthy (original_checksum fileInfo))
  && negb (truthy (current_checksum fileInfo)).

(** The entries the loader works on: those of the persisted snapshot,
    and one for [pubspec.yaml] when the snapshot has none. *)
Definition snapshotEntries (saved : JsMap.t FileInfo) : JsMap.t FileInfo :=
  if JsMap.has "pubspec.yaml" saved then saved
  else JsMap.set "pubspec.yaml" {|
         old_identifier_name := JVal "pubspec.yaml";
         new_identifier_name := JVal "pubspec.yaml";
         type := DEPENDENCIES;
         is_deleted := false;
         original_checksum := JUndefined;
         current_checksum := JUndefined |} saved.

(** [fileInfo'] is what loading makes of the snapshot entry [fileInfo]
    stored under [key]: an entry with neither checksum gets both, the
    digest of the file it refers to; any other entry is left as it is. *)
Definition verified (projectPath : string) (d : Disk) (key : string)
    (fileInfo fileInfo' : FileInfo) : Prop :=
  if unverified fileInfo then
    ∃ fileContent,
      d !! fullPath projectPath key fileInfo = Some fileContent
      ∧ fileInfo'
        = with_current_checksum (JVal (sha256_hex fileContent))
            (with_original_checksum (JVal (sha256_hex fileContent)) fileInfo)
  else fileInfo' = fileInfo.

End Specification.

(** ** The worlds the handlers leave *)

Section Outcomes.

Context `{Env}.

(** Every object of [h] is still in [h'], at its address, and looks the
    same through [view]. *)
Definition view_kept {X} (view : FileInfo → X) (h h' : list FileInfo) : Prop :=
  ∀ a f, h !! a = Some f → ∃ f', h' !! a = Some f' ∧ view f' = view f.

(** The baseline of a record: the values of the last synchronisation. *)
Definition baseline (fileInfo : FileInfo) : js string * js string :=
  (original_checksum fileInfo, old_identifier_name fileInfo).

(** A relation between the world a computation finds and the world it
    leaves that holds across the creation of objects, file writes and
    notifications, across the field assignments [g] with [G g] and
    across the changes [f] of the manager with [T f]. *)
Class Frame (G : (FileInfo → FileInfo) → Prop)
    (T : (UpdateManager → UpdateManager) → Prop)
    (R : World → World → Prop) : Prop := {
  frame_refl w : R w w;
  frame_trans w1 w2 w3 : R w1 w2 → R w2 w3 → R w1 w3;
  frame_assign w a g : G g → R w (with_heap (alter g a (heap w)) w);
  frame_new w objects : R w (with_heap (heap w ++ objects) w);
  frame_this w f : T f → R w (with_this (f (this w)) w);
  frame_disk w d : R w (with_disk d w);
  frame_emitted w e : R w (with_emitted e w);
}.

(** The last steps of a handler that reports a change: the snapshot is
    persisted and the listeners are notified with the full path and the
    object. *)
Definition notified (baseName : string) (a : addr) (fields : FileInfo)
    (w : World) : World :=
  let w1 :=
    with_disk (writeFileMap (_rootPath (this w)) (snapshot w) (disk w)) w in
  with_emitted
    (emitted w1 ++ [(fullPath (_rootPath (this w)) baseName fields, a)]) w1.

(** The index of the category without the entry of [baseName]. *)
Definition unlisted (codeType : CodeType) (baseName : string)
    (m : UpdateManager) : UpdateManager :=
  match codeType with
  | ACTION => with_actionIndex (JsMap.delete baseName (actionIndex m)) m
  | WIDGET => with_widgetIndex (JsMap.delete baseName (widgetIndex m)) m
  | _ => m
  end.

(** The index of the category with [names] as the exports of
    [baseName]. *)
Definition listed (codeType : CodeType) (baseName : string)
    (names : list string) (m : UpdateManager) : UpdateManager :=
  match codeType with
  | ACTION => with_actionIndex (JsMap.set baseName names (actionIndex m)) m
  | WIDGET => with_widgetIndex (JsMap.set baseName names (widgetIndex m)) m
  | _ => m
  end.

(** The text [saveIndexFile] writes for an index. *)
Definition indexDocument (index : Index) : string :=
  let formattedContent :=
    formatDartCode
      (String.concat newline
         (map (λ kv, "export '" +:+ kv.1 +:+ "' show "
                     +:+ String.concat ", " kv.2 +:+ ";") index)) in
  if String.eqb formattedContent "" then "// No exports" else formattedContent.

(** Whether the index document of the category can be written on the
    disk [d]; only actions and widgets have one. *)
Definition indexWritable (codeType : CodeType) (m : UpdateManager) (d : Disk)
    : bool :=
  match codeType with
  | ACTION => writable d (actionsIndexPath (_rootPath m))
  | WIDGET => writable d (widgetsIndexPath (_rootPath m))
  | _ => true
  end.

(** The disk after the index document of the category is written. *)
Definition indexSaved (codeType : CodeType) (m : UpdateManager) (d : Disk)
    : Disk :=
  match codeType with
  | ACTION =>
      <[actionsIndexPath (_rootPath m) := indexDocument (actionIndex m)]> d
  | WIDGET =>
      <[widgetsIndexPath (_rootPath m) := indexDocument (widgetIndex m)]> d
  | _ => d
  end.

(** Whether each of the [documents], written in this order, finds its
    directory on the disk the earlier ones have left. *)
Fixpoint allWritable (documents : list (string * string)) (d : Disk) : bool :=
  match documents with
  | [] => true
  | document :: rest =>
      writable d document.1
      && allWritable rest (<[document.1 := document.2]> d)
  end.

(** The disk after the [documents] are written. *)
Definition written (documents : list (string * string)) (d : Disk) : Disk :=
  fold_left (λ d document, <[document.1 := document.2]> d) documents d.

(** How a handler ends that has changed the records and the manager
    into those of [w] and now saves the index of the category: when the
    document can be written, it is, and the change is reported; when it
    cannot, the handler throws at this point and [w] is what it
    leaves. *)
Definition saved_and_notified (codeType : CodeType) (baseName : string)
    (a : addr) (fields : FileInfo) (w : World) : Outcome (js addr) * World :=
  if indexWritable codeType (this w) (disk w)
  then (Ok (JVal a),
        notified baseName a fields
          (with_disk (indexSaved codeType (this w) (disk w)) w))
  else (Throw FsError, w).

(** The records and the manager as [deleteFile] leaves them when it
    finds the record [fileInfo] at [a]. *)
Definition unlinked (filePath : string) (a : addr) (fileInfo : FileInfo)
    (w : World) : World :=
  with_this
    (unlisted (pathToCodeType filePath) (path_basename filePath) (this w))
    (with_heap (<[a := with_is_deleted true fileInfo]> (heap w)) w).

(** The result of [deleteFile] when it finds the record [fileInfo] at
    [a]. *)
Definition deleted (filePath : string) (a : addr) (fileInfo : FileInfo)
    (w : World) : Outcome (js addr) * World :=
  saved_and_notified (pathToCodeType filePath) (path_basename filePath) a
    (with_is_deleted true fileInfo) (unlinked filePath a fileInfo w).

(** The record [addFile] creates for a path. *)
Definition impliedName (filePath : string) : string :=
  if decide (pathToCodeType filePath = WIDGET)
  then toPascalCase (path_basename_ext filePath ".dart")
  else toCamelCase (path_basename_ext filePath ".dart").

Definition created (filePath : string) : FileInfo := {|
  old_identifier_name := JVal (impliedName filePath);
  new_identifier_name := JVal (impliedName filePath);
  type := pathToCodeType filePath;
  is_deleted := false;
  original_checksum := JUndefined;
  current_checksum := JUndefined |}.

(** The key [addFile] stores a new record under. *)
Definition keyOf (root filePath : string) : string :=
  if decide (pathToCodeType filePath = OTHER)
  then path_relative (path_join [root; "lib"; "custom_code"]) filePath
  else path_basename filePath.

(** The boilerplate step of [addFile] reads [pubspec.yaml] when the
    added file is empty and is an action or a widget. *)
Definition boilerplate_readable (filePath source : string) (w : World) : Prop :=
  String.length source = 0 →
  pathToCodeType filePath = ACTION ∨ pathToCodeType filePath = WIDGET →
  is_Some (disk w !! path_join [_rootPath (this w); "pubspec.yaml"]).

(** The world after the boilerplate step of [addFile]. *)
Definition prepared (filePath source : string) (w : World) : World :=
  ((if bool_decide (String.length source = 0)
    then insertBoilerplate filePath else ret tt) w).2.

(** The records and the manager as [addFile] leaves them when it
    creates a record; [w] is the world after the boilerplate step. *)
Definition enrolled (filePath : string) (w : World) : World :=
  with_this
    (listed (pathToCodeType filePath) (path_basename filePath)
       [impliedName filePath]
       (with_fileMap
          (JsMap.set (keyOf (_rootPath (this w)) filePath) (length (heap w))
             (_fileMap (this w)))
          (this w)))
    (with_heap (heap w ++ [created filePath]) w).

(** The result of [addFile] when it creates a record; [w] is the world
    after the boilerplate step. *)
Definition added (filePath : string) (w : World) : Outcome (js addr) * World :=
  saved_and_notified (pathToCodeType filePath) (path_basename filePath)
    (length (heap w)) (created filePath) (enrolled filePath w).

(** The name the rename inference of [updateFile] records, if any. *)
Definition inferredName (filePath source : string) (m : UpdateManager)
    (fields : FileInfo) : js string :=
  let codeType := pathToCodeType filePath in
  if bool_decide (codeType = ACTION) || bool_decide (codeType = WIDGET) then
    let indexExports :=
      default [] (JsMap.get (path_basename filePath) (indexOf codeType m)) in
    if bool_decide (length indexExports = 0) then JNull else
    match getNewName (getTopLevelNames source) indexExports
            (old_identifier_name fields) with
    | JVal newName => if String.eqb newName "" then JNull else JVal newName
    | _ => JNull
    end
  else JNull.

(** Whether the update of a file whose content is [source] rewrites the
    index document: it does when it infers a name that is not yet the
    first export of the entry. *)
Definition rewritesIndex (filePath source : string) (m : UpdateManager)
    (fileInfo : FileInfo) : bool :=
  match inferredName filePath source m fileInfo with
  | JVal newName =>
      negb (first (default [] (JsMap.get (path_basename filePath)
                                 (indexOf (pathToCodeType filePath) m)))
            === JVal newName)
  | _ => false
  end.

(** The result of [updateFile] for a file that is not the function
    document when the digest of [source] differs from the baseline. *)
Definition updated (filePath source : string) (a : addr) (fileInfo : FileInfo)
    (w : World) : Outcome (js addr) * World :=
  let baseName := path_basename filePath in
  let codeType := pathToCodeType filePath in
  let touched :=
    with_is_deleted false
      (with_current_checksum (JVal (sha256_hex source)) fileInfo) in
  match inferredName filePath source (this w) fileInfo with
  | JVal newName =>
      let fields := with_new_identifier_name (JVal newName) touched in
      let w1 := with_heap (<[a := fields]> (heap w)) w in
      let indexExports :=
        default [] (JsMap.get baseName (indexOf codeType (this w))) in
      if first indexExports === JVal newName
      then (Ok (JVal a), notified baseName a fields w1)
      else
        saved_and_notified codeType baseName a fields
          (with_this (listed codeType baseName [newName] (this w)) w1)
  | _ =>
      (Ok (JVal a),
       notified baseName a touched (with_heap (<[a := touched]> (heap w)) w))
  end.

(** A record as [computeFileMap] leaves it: both checksums are the
    digest of the file the record stands for, and nothing is pending. *)
Definition in_sync_with (root : string) (d : Disk) (key : string)
    (fileInfo : FileInfo) : Prop :=
  ∃ fileContent,
    d !! fullPath root key fileInfo = Some fileContent
    ∧ original_checksum fileInfo = JVal (sha256_hex fileContent)
    ∧ current_checksum fileInfo = JVal (sha256_hex fileContent)
    ∧ is_deleted fileInfo = false
    ∧ old_identifier_name fileInfo = new_identifier_name fileInfo.

End Outcomes.

(** ** Pushing: [pushToFF] and [serializeUpdateManager]

    Platform functions these use besides the collaborators of the
    engine. *)

Class Platform : Type := {
  (* JSON.stringify(value) of a function change and of the object built
     by Object.fromEntries from the entries of a file map *)
  JSON_stringify_functionChange : FunctionChange → string;
  JSON_stringify_fileMap : list (string * FileInfo) → string;
  (* JSON.stringify(value, null, 2) of that object *)
  JSON_stringify_fileMap_indented : list (string * FileInfo) → string;
  (* adm-zip: the archive of the files and folders at the paths, as
     base64, or the error raised while reading them *)
  zipToBase64 : list string → Disk → Outcome string;
  (* the string coercion of a caught error *)
  Error_toString : Error → string;
}.

(** [PushCodeRequest], the form handed to the API client. *)
Record PushCodeRequest : Type := mkPushCodeRequest {
  project_id : string;
  zipped_custom_code : string;
  uid : string;
  branch_name : string;
  serialized_yaml : string;
  file_map : string;
  functions_map : string;
}.

Record SyncCodeParams : Type := mkSyncCodeParams {
  customCodePaths : list string;
  serializedYaml : string;
  branchName : string;
  projectId : string;
  uuid : string;
  fileMapContents : string;
  functionChangesMap : string;
}.

(** [error] is [null] or [new Error(message)]. *)
Record SyncCodeResult : Type := mkSyncCodeResult {
  error : option string;
  fileWarnings : JsMap.t JSON;
}.

Module FlutterFlowApiClient.

Record t : Type := mk {
  branchName : string;
  projectId : string;
  pushCode : PushCodeRequest → Outcome Response;
}.

End FlutterFlowApiClient.

Section Pushing.

Context `{Env} `{Platform}.

(** [customFilePath]; the five tests cover every [CodeType], so the
    final [throw] of the source is not reached. *)
Definition customFilePath (fileMapKey : string) (fileInfo : FileInfo) : string :=
  match type fileInfo with
  | ACTION => path_join ["lib"; "custom_code"; "actions"; fileMapKey]
  | WIDGET => path_join ["lib"; "custom_code"; "widgets"; fileMapKey]
  | FUNCTION => path_join ["lib"; "flutter_flow"; "custom_functions.dart"]
  | DEPENDENCIES => "pubspec.yaml"
  | OTHER => path_join ["lib"; "custom_code"; fileMapKey]
  end.

(** The getter [fileMap]: a copy of the map; its values are the objects
    of the manager, read here at the time of the call. *)
Definition get_fileMap : M World (JsMap.t FileInfo) := gets snapshot.

(** The local [modifiedFiles] of [pushToFF]. *)
Definition modifiedFiles (projectRoot : string) (fileMap : JsMap.t FileInfo)
    : list string :=
  (λ entry, path_join [projectRoot; customFilePath entry.1 entry.2])
    <$> List.filter
          (λ entry, negb (original_checksum entry.2 === current_checksum entry.2))
          fileMap.

(** [Response.error()]: a network error, without body. *)
Definition Response_error : Response := {| ok := false; text := "" |}.

Definition _zipAndSendFolder (customCodePaths : list string)
    (serializedYaml branchName projectId uuid fileMapContents
       functionChangesMap : string)
    : M World (option PushCodeRequest) :=
  try_catch
    (let* zipBuffer := on_disk (λ d, (zipToBase64 customCodePaths d, d)) in
     let formData := {|
       project_id := projectId;
       zipped_custom_code := zipBuffer;
       uid := uuid;
       branch_name := branchName;
       serialized_yaml := serializedYaml;
       file_map := fileMapContents;
       functions_map := functionChangesMap |} in
     ret (Some formData))
    (λ _, ret None).

Definition sendSyncRequest (params : SyncCodeParams)
    (apiClient : FlutterFlowApiClient.t) : M World Response :=
  let* pushCodeRequest :=
    _zipAndSendFolder (customCodePaths params) (serializedYaml params)
      (branchName params) (projectId params) (uuid params)
      (fileMapContents params) (functionChangesMap params) in
  match pushCodeRequest with
  | Some request => lift (FlutterFlowApiClient.pushCode apiClient request)
  | None => ret Response_error
  end.

(** [pushToFF]; the manager is the one of the world. *)
Definition pushToFF (apiClient : FlutterFlowApiClient.t)
    (projectRoot requestId : string) : M World SyncCodeResult :=
  let branchName := FlutterFlowApiClient.branchName apiClient in
  let projectId := FlutterFlowApiClient.projectId apiClient in
  let* fileMap := get_fileMap in
  let modifiedFiles := modifiedFiles projectRoot fileMap in
  let* yamlContents :=
    on_disk (readFile (path_join [projectRoot; "pubspec.yaml"])) in
  let* change := gets (λ w, functionChange (this w)) in
  let functionChangesMapString := JSON_stringify_functionChange change in
  let syncCodeParams := {|
    customCodePaths := modifiedFiles;
    serializedYaml := yamlContents;
    branchName := branchName;
    projectId := projectId;
    uuid := requestId;
    fileMapContents :=
      JSON_stringify_fileMap
        (List.filter
           (λ entry, negb (bool_decide (type entry.2 = DEPENDENCIES)))
           fileMap);
    functionChangesMap := functionChangesMapString |} in
  try_catch
    (let* response := sendSyncRequest syncCodeParams apiClient in
     let* fileErrors := lift (parseSyncCodeResponse response) in
     ret {| error := None; fileWarnings := fileErrors |})
    (λ error,
       ret {| error :=
                Some ("Error syncing with FlutterFlow: " +:+ Error_toString error);
              fileWarnings := JsMap.empty |}).

(** The request [pushToFF] hands to the client for the archive
    [zipBuffer] of the modified files. *)
Definition pushRequest (apiClient : FlutterFlowApiClient.t)
    (requestId yamlContents zipBuffer : string) (w : World)
    : PushCodeRequest := {|
  project_id := FlutterFlowApiClient.projectId apiClient;
  zipped_custom_code := zipBuffer;
  uid := requestId;
  branch_name := FlutterFlowApiClient.branchName apiClient;
  serialized_yaml := yamlContents;
  file_map :=
    JSON_stringify_fileMap
      (List.filter (λ entry, negb (bool_decide (type entry.2 = DEPENDENCIES)))
         (snapshot w));
  functions_map := JSON_stringify_functionChange (functionChange (this w)) |}.

(** The response [pushToFF] decodes: the answer of the client to that
    request, or [Response.error()] when the archive cannot be built. *)
Definition answered (apiClient : FlutterFlowApiClient.t)
    (projectRoot requestId yamlContents : string) (w : World)
    : Outcome Response :=
  match zipToBase64 (modifiedFiles projectRoot (snapshot w)) (disk w) with
  | Ok zipBuffer =>
      FlutterFlowApiClient.pushCode apiClient
        (pushRequest apiClient requestId yamlContents zipBuffer w)
  | Throw _ => Ok Response_error
  end.

(** The result that reports the error [e]. *)
Definition failed (e : Error) : SyncCodeResult := {|
  error := Some ("Error syncing with FlutterFlow: " +:+ Error_toString e);
  fileWarnings := JsMap.empty |}.

(** The documents [serializeUpdateManager] writes under [filePath], in
    the order it writes them. *)
Definition serialized (filePath : string) (w : World)
    : list (string * string) :=
  [ (fileMapJsonPath filePath, JSON_stringify_fileMap_indented (snapshot w));
    (actionsIndexPath filePath, indexDocument (actionIndex (this w)));
    (widgetsIndexPath filePath, indexDocument (widgetIndex (this w)));
    (snapshotPath filePath, _initialFunctionsCode (this w)) ].

(** [serializeFileMap] *)
Definition serializeFileMap (filePath : string) : M World unit :=
  let* fileMapObj := gets snapshot in
  on_disk (writeFile (fileMapJsonPath filePath)
             (JSON_stringify_fileMap_indented fileMapObj)).

(** [serializeUpdateManager]; its [catch] logs and re-throws. *)
Definition serializeUpdateManager (filePath : string) : M World unit :=
  try_catch
    (serializeFileMap filePath;;
     let* actions := gets (λ w, actionIndex (this w)) in
     on_disk (saveIndexFile actions (actionsIndexPath filePath));;
     let* widgets := gets (λ w, widgetIndex (this w)) in
     on_disk (saveIndexFile widgets (widgetsIndexPath filePath));;
     let* initial := gets (λ w, _initialFunctionsCode (this w)) in
     on_disk (writeFile (path_join [filePath; kCustomFunctionsSnapshotPath])
                initial))
    (λ error, throw error).

End Pushing.

(** ** Further sample worlds *)

Module Scenario.

(** An archiver that fails when one of the paths is not on disk. *)
Definition archive (paths : list string) (d : Disk) : Outcome string :=
  if forallb (λ p, bool_decide (is_Some (d !! p))) paths
  then Ok ("zip:" +:+ String.concat "," paths)
  else Throw FsError.

(** The string coercion of an error: its name, followed by its message
    when it has one. *)
Definition errorText (e : Error) : string :=
  match e with
  | FsError => "Error: ENOENT"
  | Err message =>
      if String.eqb message "" then "Error" else "Error: " +:+ message
  | TypeError => "TypeError"
  | SyntaxError => "SyntaxError"
  end.

Definition platform : Platform := {|
  JSON_stringify_functionChange := λ change,
    String.concat "," (functions_to_delete change ++ functions_to_add change);
  JSON_stringify_fileMap := λ entries, String.concat "," entries.*1;
  JSON_stringify_fileMap_indented := λ entries, String.concat ", " entries.*1;
  zipToBase64 := archive;
  Error_toString := errorText |}.

Definition apiClient : FlutterFlowApiClient.t := {|
  FlutterFlowApiClient.branchName := "main";
  FlutterFlowApiClient.projectId := "project";
  FlutterFlowApiClient.pushCode := λ _, Ok (mkResponse true "{}") |}.

Definition barPath : string := "/p/lib/custom_code/actions/bar.dart".
Definition movedFooPath : string := "/p/lib/custom_code/widgets/foo.dart".
Definition functionsPath : string := "/p/lib/flutter_flow/custom_functions.dart".

(** [foo.dart] was edited on disk: it now declares [fooBar]. *)
Definition fooEdited : World :=
  with_disk (<[Sample.fooPath := "fooBar"]> Sample.files) Sample.world.

(** [bar.dart] was created on disk, empty, and is not tracked yet. *)
Definition barCreated : World :=
  with_disk (<[barPath := ""]> Sample.files) Sample.world.

(** The same in a folder that has no [pubspec.yaml]. *)
Definition barCreatedOutside : World :=
  with_disk (<[barPath := ""]> ∅) Sample.world.

(** A project that tracks the function document, whose text on disk
    has changed since the last synchronisation. *)
Definition functionsInfo : FileInfo := {|
  old_identifier_name := JVal "CustomFunctions";
  new_identifier_name := JVal "CustomFunctions";
  type := FUNCTION;
  is_deleted := false;
  original_checksum := JVal "sha256:A:a";
  current_checksum := JVal "sha256:A:a" |}.

Definition functionsEdited : World := {|
  heap := [functionsInfo];
  this := {|
    _fileMap := [("custom_functions.dart", 0)];
    _rootPath := "/p";
    actionIndex := [];
    widgetIndex := [];
    _functionsCode := "A:a";
    _initialFunctionsCode := "A:a";
    paused := false |};
  disk := <[functionsPath := "A2:a2"]> Sample.files;
  emitted := [] |}.

(** The edited project of [Sample.editedWorld] after the files under
    [lib] were removed from disk. *)
Definition filesRemoved : World :=
  with_disk (<["/p/pubspec.yaml" := "name: p"]> ∅) Sample.editedWorld.

(** The edited project of [Sample.editedWorld] with a persisted file
    map, so that the folder [.vscode] exists. *)
Definition persisted : World :=
  with_disk Sample.filesWithFileMap Sample.editedWorld.

(** The project of [fooEdited] tracked by a manager rooted at a folder
    [/q] that does not exist. *)
Definition fooEditedElsewhere : World := {|
  heap := [Sample.fooInfo];
  this := {|
    _fileMap := [("foo.dart", 0)];
    _rootPath := "/q";
    actionIndex := [("foo.dart", ["foo"])];
    widgetIndex := [];
    _functionsCode := "";
    _initialFunctionsCode := "";
    paused := false |};
  disk := <[Sample.fooPath := "fooBar"]> Sample.files;
  emitted := [] |}.

(** The map [computeFileMap] builds for the sample project. *)
Definition computedFunctions : FileInfo := {|
  old_identifier_name := JVal "CustomFunctions";
  new_identifier_name := JVal "CustomFunctions";
  type := FUNCTION;
  is_deleted := false;
  original_checksum := JVal "sha256:";
  current_checksum := JVal "sha256:" |}.

Definition computedPubspec : FileInfo := {|
  old_identifier_name := JVal "pubspec.yaml";
  new_identifier_name := JVal "pubspec.yaml";
  type := DEPENDENCIES;
  is_deleted := false;
  original_checksum := JVal "sha256:name: p";
  current_checksum := JVal "sha256:name: p" |}.

Definition computedMap : JsMap.t FileInfo :=
  [("foo.dart", Sample.fooInfo);
   ("custom_functions.dart", computedFunctions);
   ("pubspec.yaml", computedPubspec)].

(** The edited project of [Sample.editedWorld] after [refresh]. *)
Definition refreshed : World := {|
  heap := [Sample.editedFoo; Sample.deletedBar;
           Sample.fooInfo; computedFunctions; computedPubspec];
  this := {|
    _fileMap := [("foo.dart", 2); ("custom_functions.dart", 3);
                 ("pubspec.yaml", 4)];
    _rootPath := "/p";
    actionIndex := [("foo.dart", ["foo"])];
    widgetIndex := [];
    _functionsCode := "";
    _initialFunctionsCode := "";
    paused := false |};
  disk := Sample.files;
  emitted := [] |}.

(** The manager loaded from the sample project, which has neither a
    persisted file map nor a function snapshot. *)
Definition loaded : UpdateManager := {|
  _fileMap := [("foo.dart", 0); ("custom_functions.dart", 1);
               ("pubspec.yaml", 2)];
  _rootPath := "/p";
  actionIndex := [("foo.dart", ["foo"])];
  widgetIndex := [];
  _functionsCode := "";
  _initialFunctionsCode := "";
  paused := false |}.

End Scenario.

(** * Properties *)

(** ** The rename tie-break *)

Lemma find_eq_elem (x : string) (decls : list string) :
  find (λ d, JVal d === JVal x) decls
  = if bool_decide (x ∈ decls) then JVal x else JUndefined.
Proof.
  induction decls as [|d decls IH]; simpl; [done|].
  unfold strict_eq at 1.
  destruct (decide (d = x)) as [->|Hne].
  - rewrite bool_decide_eq_true_2 by done.
    rewrite bool_decide_eq_true_2 by apply list_elem_of_here. done.
  - rewrite bool_decide_eq_false_2 by congruence.
    rewrite IH.
    destruct (decide (x ∈ decls)) as [Hin|Hnin].
    + rewrite !bool_decide_eq_true_2; [done| by apply list_elem_of_further | done].
    + rewrite !bool_decide_eq_false_2; [done| |done].
      intros [?|?]%elem_of_cons; congruence.
Qed.

Lemma find_eq_nonval (v : js string) (decls : list string) :
  (∀ s, v ≠ JVal s) →
  find (λ d, JVal d === v) decls = JUndefined.
Proof.
  intros Hv. induction decls as [|d decls IH]; simpl; [done|].
  unfold strict_eq at 1. rewrite bool_decide_eq_false_2; [done|].
  intros E. by apply (Hv d).
Qed.

Lemma inFileDeclaration_spec decls e es previous :
  find (λ d, JVal d === first (e :: es)) decls
    ?? find (λ d, JVal d === previous) decls ?? first decls
  = fileNameOf decls e previous.
Proof.
  simpl first. rewrite find_eq_elem. unfold fileNameOf.
  case_bool_decide; [done|]. simpl.
  destruct previous as [| |p].
  - rewrite find_eq_nonval by done. done.
  - rewrite find_eq_nonval by done. done.
  - rewrite find_eq_elem. by case_bool_decide.
Qed.

(** The four rows of the decision table, on concrete inputs. *)
Example getNewName_unchanged :
  getNewName ["foo"; "bar"] ["foo"] (JVal "foo") = JNull.
Proof. reflexivity. Qed.

Example getNewName_index_already_updated :
  getNewName ["helper"; "bar"] ["bar"] (JVal "foo") = JVal "bar".
Proof. reflexivity. Qed.

Example getNewName_index_stale :
  getNewName ["bar"] ["foo"] (JVal "foo") = JVal "bar".
Proof. reflexivity. Qed.

Example getNewName_ambiguous :
  getNewName ["bar"] ["baz"] (JVal "foo") = JNull.
Proof. reflexivity. Qed.

(** C1. For every list of declarations, every non-empty export list and
    every previous name, [getNewName] compares the first export with
    [fileName] (the declaration equal to the first export if one exists,
    else the one equal to the previous name if one exists, else the first
    declaration) and answers by the decision table: no rename when the
    first export equals both [fileName] and the previous name; [fileName]
    when it equals [fileName] but not the previous name; [fileName] when
    it equals the previous name but not [fileName] (so that [fileName]
    differs from the previous name); no rename when it equals neither. *)
Theorem getNewName_truth_table :
  ∀ (decls : list string) (e : string) (es : list string)
    (previous : js string),
    let indexName := JVal e in
    let fileName := fileNameOf decls e previous in
    getNewName decls (e :: es) previous
    = match bool_decide (indexName = fileName),
            bool_decide (indexName = previous) with
      | true, true => JNull
      | true, false => fileName
      | false, true => fileName
      | false, false => JNull
      end.
Proof.
  intros decls e es previous indexName fileName.
  unfold getNewName.
  rewrite inFileDeclaration_spec. fold fileName. simpl first. fold indexName.
  unfold strict_eq.
  repeat (case_bool_decide; simpl; try congruence).
Qed.

(** ** Running the monad *)

Lemma bind_gets {S A B} (f : S → A) (k : A → M S B) (s : S) :
  bind (gets f) k s = k (f s) s.
Proof. reflexivity. Qed.

Lemma bind_ok {S A B} (m : M S A) (k : A → M S B) (s s' : S) (a : A) :
  m s = (Ok a, s') → bind m k s = k a s'.
Proof. unfold bind. by intros ->. Qed.

Lemma bind_thrown {S A B} (m : M S A) (k : A → M S B) (s s' : S) (e : Error) :
  m s = (Throw e, s') → bind m k s = (Throw e, s').
Proof. unfold bind. by intros ->. Qed.

Lemma with_disk_same (w : World) : with_disk (disk w) w = w.
Proof. by destruct w. Qed.

(** ** [Map] lookups *)

Lemma JsMap_get_set {V} (k k' : string) (v : V) (m : JsMap.t V) :
  JsMap.get k (JsMap.set k' v m)
  = if String.eqb k' k then Some v else JsMap.get k m.
Proof.
  induction m as [|[k0 v0] m IH]; simpl.
  - by destruct (String.eqb k' k).
  - destruct (String.eqb k0 k') eqn:E0; simpl.
    + apply String.eqb_eq in E0 as ->. by destruct (String.eqb k' k).
    + rewrite IH. destruct (String.eqb k0 k) eqn:E1; [|done].
      apply String.eqb_eq in E1 as ->. by rewrite String.eqb_sym, E0.
Qed.

Lemma JsMap_get_delete {V} (k k' : string) (m : JsMap.t V) :
  JsMap.get k (JsMap.delete k' m)
  = if String.eqb k' k then None else JsMap.get k m.
Proof.
  induction m as [|[k0 v0] m IH]; simpl.
  - by destruct (String.eqb k' k).
  - destruct (String.eqb k0 k') eqn:E0; simpl.
    + apply String.eqb_eq in E0 as ->. rewrite IH.
      by destruct (String.eqb k' k).
    + rewrite IH. destruct (String.eqb k0 k) eqn:E1; [|done].
      apply String.eqb_eq in E1 as ->. by rewrite String.eqb_sym, E0.
Qed.

Lemma JsMap_get_of_entries {V} (k : string) (v : V) (entries : list (string * V)) :
  JsMap.get k (JsMap.of_entries entries) = Some v → (k, v) ∈ entries.
Proof.
  unfold JsMap.of_entries.
  assert (∀ acc, JsMap.get k (fold_left (λ m kv, JsMap.set kv.1 kv.2 m) entries acc)
                 = Some v → (k, v) ∈ entries ∨ JsMap.get k acc = Some v) as Hgen.
  { induction entries as [|[k0 v0] l IH]; intros acc; simpl; [by right|].
    intros [Hin|Hacc]%IH; [left; by right|].
    rewrite JsMap_get_set in Hacc. simpl in Hacc.
    destruct (String.eqb k0 k) eqn:E; [|by right].
    apply String.eqb_eq in E as ->. injection Hacc as ->. left. left. }
  intros [?|?]%Hgen; done.
Qed.

Lemma JsMap_set_fresh {V} (k : string) (v : V) (m : JsMap.t V) :
  k ∉ JsMap.keys m → JsMap.set k v m = m ++ [(k, v)].
Proof.
  unfold JsMap.keys. induction m as [|[k0 v0] m IH]; simpl; [done|].
  rewrite not_elem_of_cons. intros [Hne Hm].
  destruct (String.eqb k0 k) eqn:E.
  - apply String.eqb_eq in E. congruence.
  - by rewrite IH.
Qed.

(** A [Map] built from entries with distinct keys holds those entries,
    in their order. *)
Lemma JsMap_of_entries_NoDup {V} (entries : list (string * V)) :
  NoDup entries.*1 → JsMap.of_entries entries = entries.
Proof.
  unfold JsMap.of_entries, JsMap.empty.
  assert (∀ acc : JsMap.t V, NoDup (acc.*1 ++ entries.*1) →
            fold_left (λ m kv, JsMap.set kv.1 kv.2 m) entries acc
            = acc ++ entries) as Hgen.
  { induction entries as [|[k v] l IH]; intros acc Hnd; simpl.
    - by rewrite app_nil_r.
    - rewrite fmap_cons in Hnd. simpl in Hnd.
      rewrite JsMap_set_fresh.
      + rewrite IH; [by rewrite <- app_assoc|].
        rewrite fmap_app. simpl. by rewrite <- app_assoc.
      + apply NoDup_app in Hnd as (_ & Hdis & _).
        intros Hin. apply (Hdis k Hin). left. }
  intros Hnd. by apply (Hgen []).
Qed.

Lemma JsMap_get_elem {V} (k : string) (v : V) (m : JsMap.t V) :
  JsMap.get k m = Some v → (k, v) ∈ m.
Proof.
  induction m as [|[k0 v0] m IH]; simpl; [done|].
  destruct (String.eqb k0 k) eqn:E.
  - apply String.eqb_eq in E as ->. intros [= ->]. left.
  - intros Hg. right. by apply IH.
Qed.

(** The first entry of a key stays the first when other entries are
    filtered out. *)
Lemma JsMap_get_filter {V} (P : string * V → bool) (k : string) (v : V)
    (m : JsMap.t V) :
  JsMap.get k m = Some v → P (k, v) = true →
  JsMap.get k (List.filter P m) = Some v.
Proof.
  intros Hget HP. induction m as [|[k0 v0] m IH]; simpl in *; [done|].
  destruct (String.eqb k0 k) eqn:E.
  - apply String.eqb_eq in E as ->. injection Hget as ->.
    rewrite HP. simpl. by rewrite String.eqb_refl.
  - destruct (P (k0, v0)); simpl; [rewrite E|]; by apply IH.
Qed.

Lemma JsMap_keys_filter_NoDup {V} (P : string * V → bool) (m : JsMap.t V) :
  NoDup (JsMap.keys m) → NoDup (JsMap.keys (List.filter P m)).
Proof.
  unfold JsMap.keys. induction m as [|[k0 v0] m IH]; simpl; [done|].
  rewrite NoDup_cons. intros [Hk Hnd].
  destruct (P (k0, v0)); [|by apply IH].
  rewrite fmap_cons. apply NoDup_cons. split; [|by apply IH].
  intros (e & He & Hin)%list_elem_of_fmap. apply Hk.
  apply list_elem_of_fmap. exists e. split; [done|].
  by apply list_elem_of_In, filter_In in Hin as [?%list_elem_of_In _].
Qed.

(** ** The function diff *)

Section FunctionDiff.

Context `{Env}.

Lemma Qgtb_lt s m : Qgtb s m = true ↔ (m < s)%Q.
Proof.
  unfold Qgtb. rewrite negb_true_iff. split.
  - intros Hb. apply Qnot_le_lt. intros Hle.
    apply Qle_bool_iff in Hle. congruence.
  - intros Hlt. destruct (Qle_bool s m) eqn:Hb; [|done].
    apply Qle_bool_iff in Hb. by apply Qlt_not_le in Hlt.
Qed.

Lemma Qgtb_le s m : Qgtb s m = false ↔ (s <= m)%Q.
Proof.
  unfold Qgtb. rewrite negb_false_iff. apply Qle_bool_iff.
Qed.

(** What the scan returns: either nothing beat the running maximum, or
    the position of the first score among the highest ones. *)
Lemma scanSimilarities_spec similarities :
  ∀ index maxSimilarity maxSimilarityIndex,
    (scanSimilarities index similarities maxSimilarity maxSimilarityIndex
       = maxSimilarityIndex
     ∧ ∀ j s, similarities !! j = Some (Some s) →
         match maxSimilarity with
         | Some m => (s <= m)%Q
         | None => False
         end)
    ∨ (∃ k best,
         scanSimilarities index similarities maxSimilarity maxSimilarityIndex
           = Some (index + k)
         ∧ similarities !! k = Some (Some best)
         ∧ (∀ j s, j < k → similarities !! j = Some (Some s) → (s < best)%Q)
         ∧ (∀ j s, k < j → similarities !! j = Some (Some s) → (s <= best)%Q)
         ∧ match maxSimilarity with
           | Some m => (m < best)%Q
           | None => True
           end).
Proof.
  induction similarities as [|s rest IH]; intros index mx mi; simpl.
  { left. split; [done|]. intros j s Hj. by destruct j. }
  assert (Hkeep :
    (s = None ∨ ∃ sv m, s = Some sv ∧ mx = Some m ∧ (sv <= m)%Q) →
    (scanSimilarities (S index) rest mx mi = mi
     ∧ ∀ j s0, (s :: rest) !! j = Some (Some s0) →
         match mx with Some m => (s0 <= m)%Q | None => False end)
    ∨ (∃ k best,
         scanSimilarities (S index) rest mx mi = Some (index + k)
         ∧ (s :: rest) !! k = Some (Some best)
         ∧ (∀ j s0, j < k → (s :: rest) !! j = Some (Some s0) → (s0 < best)%Q)
         ∧ (∀ j s0, k < j → (s :: rest) !! j = Some (Some s0) → (s0 <= best)%Q)
         ∧ match mx with Some m => (m < best)%Q | None => True end)).
  { intros Hs. destruct (IH (S index) mx mi) as [[Heq Hall]|(k & best & Heq & Hk & Hlt & Hle & Hmx)].
    - left. split; [done|]. intros [|j] s0 Hj; simpl in Hj.
      + destruct Hs as [->|(sv & m & -> & -> & Hsv)]; [done|].
        by injection Hj as ->.
      + by eapply Hall.
    - right. exists (S k), best. split; [rewrite Heq; f_equal; lia|].
      split; [done|]. split; [|split; [|done]].
      + intros [|j] s0 Hjk Hj; simpl in Hj.
        * destruct Hs as [->|(sv & m & -> & -> & Hsv)]; [done|].
          injection Hj as ->. by eapply Qle_lt_trans.
        * eapply Hlt; [|done]. lia.
      + intros [|j] s0 Hjk Hj; [lia|]. simpl in Hj.
        eapply Hle; [|done]. lia. }
  destruct s as [sv|]; [|apply Hkeep; by left].
  destruct (match mx with Some m => Qgtb sv m | None => true end) eqn:Hup.
  - assert (Hmx : match mx with Some m => (m < sv)%Q | None => True end).
    { destruct mx as [m|]; [by apply Qgtb_lt|done]. }
    right.
    destruct (IH (S index) (Some sv) (Some index))
      as [[Heq Hall]|(k & best & Heq & Hk & Hlt & Hle & Hbest)].
    + exists 0, sv. rewrite Heq, Nat.add_0_r. split; [done|]. split; [done|].
      split; [intros; lia|]. split; [|done].
      intros [|j] s0 Hjk Hj; [lia|]. by eapply Hall.
    + exists (S k), best. split; [rewrite Heq; f_equal; lia|].
      split; [done|]. split; [|split].
      * intros [|j] s0 Hjk Hj; simpl in Hj.
        -- by injection Hj as ->.
        -- eapply Hlt; [|done]. lia.
      * intros [|j] s0 Hjk Hj; [lia|]. simpl in Hj.
        eapply Hle; [|done]. lia.
      * destruct mx as [m|]; [|done]. by eapply Qlt_trans.
  - destruct mx as [m|]; [|done]. apply Hkeep. right.
    exists sv, m. split; [done|]. split; [done|]. by apply Qgtb_le.
Qed.

(** The scan over the scores of a pool, started as the loop starts it. *)
Lemma scan_pool (pool : list FunctionInfo) (d : FunctionInfo) :
  let score c := functionSimilarity (content c) (content d) in
  match scanSimilarities 0 (score <$> pool) None None with
  | None => ∀ c, c ∈ pool → score c = None
  | Some k =>
      ∃ (before : list FunctionInfo) best after top,
        pool = before ++ best :: after
        ∧ pool !! k = Some best
        ∧ delete k pool = before ++ after
        ∧ score best = Some top
        ∧ (∀ c s, c ∈ before → score c = Some s → (s < top)%Q)
        ∧ (∀ c s, c ∈ after → score c = Some s → (s <= top)%Q)
  end.
Proof.
  intros score.
  destruct (scanSimilarities_spec (score <$> pool) 0 None None)
    as [[-> Hall]|(k & top & -> & Hk & Hlt & Hle & _)].
  - intros c [j Hj]%list_elem_of_lookup.
    destruct (score c) as [s|] eqn:Hc; [|done].
    exfalso. apply (Hall j s). by rewrite list_lookup_fmap, Hj, <- Hc.
  - simpl. rewrite list_lookup_fmap in Hk.
    destruct (pool !! k) as [best|] eqn:Hbest; [|done].
    injection Hk as Hk.
    exists (take k pool), best, (drop (S k) pool), top.
    split; [by rewrite take_drop_middle|]. split; [done|].
    split; [apply delete_take_drop|]. split; [done|]. split.
    + intros c s (j & Hj & Hjk)%elem_of_take Hc.
      apply (Hlt j s Hjk). by rewrite list_lookup_fmap, Hj, <- Hc.
    + intros c s [j Hj]%list_elem_of_lookup Hc. rewrite lookup_drop in Hj.
      apply (Hle (S k + j) s); [lia|]. by rewrite list_lookup_fmap, Hj, <- Hc.
Qed.

(** The loop of [functionChange] performs the greedy matching. *)
Lemma detectRenames_greedy deleted :
  ∀ pool renamed,
    ∃ renames unmatched remaining,
      detectRenames deleted pool renamed = (renamed ++ renames, remaining)
      ∧ greedy deleted pool renames unmatched remaining.
Proof.
  induction deleted as [|d ds IH]; intros pool renamed; simpl.
  { exists [], [], pool. rewrite app_nil_r. split; [done|constructor]. }
  pose proof (scan_pool pool d) as Hscan. simpl in Hscan.
  destruct (scanSimilarities 0 _ None None) as [k|].
  - destruct Hscan as (before & best & after & top & Hpool & Hk & Hdel & Hs & Hlt & Hle).
    rewrite Hk, Hdel.
    destruct (IH (before ++ after)
                (renamed ++ [mkRenamedFunction (name d) (name best) false]))
      as (renames & unmatched & remaining & -> & Hg).
    eexists (_ :: renames), unmatched, remaining.
    rewrite <- app_assoc. split; [done|].
    rewrite Hpool. by eapply greedy_match.
  - destruct (IH pool renamed) as (renames & unmatched & remaining & -> & Hg).
    exists renames, (d :: unmatched), remaining. split; [done|].
    by apply greedy_skip.
Qed.

(** No candidate is used twice and none is lost: the new names of the
    renames together with the remaining pool are the pool; likewise on
    the deleted side. *)
Lemma greedy_partition deleted pool renames unmatched remaining :
  greedy deleted pool renames unmatched remaining →
  name <$> pool ≡ₚ (new_function_name <$> renames) ++ (name <$> remaining)
  ∧ name <$> deleted ≡ₚ (old_function_name <$> renames) ++ (name <$> unmatched).
Proof.
  induction 1 as [pool|d ds before best after top renames unmatched remaining
                    _ _ _ _ [IHp IHd]
                 |d ds pool renames unmatched remaining _ _ [IHp IHd]].
  - done.
  - rewrite !fmap_app, !fmap_cons. cbn [new_function_name old_function_name].
    split.
    + rewrite <- Permutation_middle. constructor. by rewrite <- fmap_app.
    + rewrite <- app_comm_cons. by constructor.
  - split; [done|].
    rewrite !fmap_cons. rewrite <- Permutation_middle. by constructor.
Qed.

(** Two ways of cutting one list at different places: the earlier cut
    element lies before the later one. *)
Lemma split_earlier {A} (before after before' after' : list A) (x x' : A) :
  before ++ x :: after = before' ++ x' :: after' →
  length before < length before' →
  x ∈ before' ∧ x' ∈ after.
Proof.
  intros Heq Hlt. split.
  - apply (list_elem_of_lookup_2 _ (length before)).
    rewrite <- (lookup_app_l before' (x' :: after')) by done.
    rewrite <- Heq. by apply list_lookup_middle.
  - assert ((before ++ x :: after) !! length before' = Some x') as Hx'.
    { rewrite Heq. by apply list_lookup_middle. }
    rewrite lookup_app_r in Hx' by lia.
    destruct (length before' - length before) as [|i] eqn:E; [lia|].
    simpl in Hx'. by apply list_elem_of_lookup_2 in Hx'.
Qed.

(** The greedy matching is determined by the two lists. *)
Lemma greedy_deterministic deleted pool renames unmatched remaining :
  greedy deleted pool renames unmatched remaining →
  ∀ renames' unmatched' remaining',
    greedy deleted pool renames' unmatched' remaining' →
    renames' = renames ∧ unmatched' = unmatched ∧ remaining' = remaining.
Proof.
  induction 1 as [pool|d ds before best after top renames unmatched remaining
                    Htop Hlt Hle _ IH
                 |d ds pool renames unmatched remaining Hnone _ IH];
    intros renames' unmatched' remaining' Hg'.
  - by inversion Hg'.
  - inversion Hg' as [|? ? before' best' after' top' ? ? ? Htop' Hlt' Hle' Hrest Hd Hpool
                      |? ? ? ? ? ? Hnone' Hrest]; subst.
    + assert (length before' = length before) as Hlen.
      { destruct (Nat.lt_trichotomy (length before) (length before'))
          as [Hl|[Hl|Hl]]; [|done|].
        - destruct (split_earlier _ _ _ _ _ _ (eq_sym Hpool) Hl) as [Hin Hin'].
          pose proof (Hlt' _ _ Hin Htop) as H1.
          pose proof (Hle _ _ Hin' Htop') as H2.
          by apply Qlt_not_le in H1.
        - destruct (split_earlier _ _ _ _ _ _ Hpool Hl) as [Hin Hin'].
          pose proof (Hlt _ _ Hin Htop') as H1.
          pose proof (Hle' _ _ Hin' Htop) as H2.
          by apply Qlt_not_le in H1. }
      apply app_inj_1 in Hpool as [-> [= -> ->]]; [|done].
      destruct (IH _ _ _ Hrest) as (-> & -> & ->). done.
    + exfalso.
      assert (best ∈ before ++ best :: after) as Hin.
      { apply elem_of_app. right. left. }
      specialize (Hnone' _ Hin). congruence.
  - inversion Hg' as [|? ? before' best' after' top' ? ? ? Htop' Hlt' Hle' Hrest Hd Hpool
                      |? ? ? ? ? ? Hnone' Hrest]; subst.
    + exfalso.
      assert (best' ∈ before' ++ best' :: after') as Hin.
      { apply elem_of_app. right. left. }
      specialize (Hnone _ Hin). congruence.
    + destruct (IH _ _ _ Hrest) as (-> & -> & ->). done.
Qed.

Lemma filter_not_renamed_cons (x : string) (olds : list string)
    (l : list FunctionInfo) :
  x ∉ name <$> l →
  filter (λ f, name f ∉ x :: olds) l = filter (λ f, name f ∉ olds) l.
Proof.
  induction l as [|f l IH]; [done|].
  rewrite fmap_cons, not_elem_of_cons. intros [Hx Hl].
  rewrite !filter_cons, IH by done.
  apply decide_ext. rewrite not_elem_of_cons.
  split; [by intros [_ ?]|]. intros Hf. split; [congruence|done].
Qed.

(** With distinct names on the deleted side, filtering out the names
    that were renamed leaves exactly the unmatched entries. *)
Lemma greedy_unmatched deleted pool renames unmatched remaining :
  greedy deleted pool renames unmatched remaining →
  NoDup (name <$> deleted) →
  filter (λ f, name f ∉ old_function_name <$> renames) deleted = unmatched.
Proof.
  induction 1 as [pool|d ds before best after top renames unmatched remaining
                    _ _ _ Hg IH
                 |d ds pool renames unmatched remaining _ Hg IH];
    rewrite ?fmap_cons; intros Hnd.
  - done.
  - apply NoDup_cons in Hnd as [Hd Hnd]. cbn [old_function_name].
    rewrite filter_cons_False by (intros Hn; apply Hn; left).
    rewrite filter_not_renamed_cons by done. by apply IH.
  - apply NoDup_cons in Hnd as [Hd Hnd].
    apply greedy_partition in Hg as [_ Hperm].
    rewrite filter_cons_True; [by rewrite IH|].
    intros Hin. apply Hd. rewrite Hperm. apply elem_of_app. by left.
Qed.

(** Whatever the names, filtering the deleted entries by the renamed
    names is filtering the unmatched ones. *)
Lemma greedy_not_renamed deleted pool renames unmatched remaining
    (renamed : list string) :
  greedy deleted pool renames unmatched remaining →
  old_function_name <$> renames ⊆ renamed →
  filter (λ f, name f ∉ renamed) deleted
  = filter (λ f, name f ∉ renamed) unmatched.
Proof.
  induction 1 as [pool|d ds before best after top renames unmatched remaining
                    _ _ _ _ IH
                 |d ds pool renames unmatched remaining _ _ IH];
    rewrite ?fmap_cons; intros Hsub.
  - done.
  - cbn [old_function_name] in Hsub.
    rewrite filter_cons_False.
    + apply IH. intros x Hx. apply Hsub. by right.
    + intros Hn. apply Hn, Hsub. left.
  - rewrite !filter_cons, IH by done. done.
Qed.

(** C2. [functionChange] is the greedy matching of the specification:
    the deleted entries are processed in their original order; each is
    paired with the still-unmatched added entry of strictly highest
    non-null score, the first such entry winning ties, which is recorded
    as a rename and leaves the pool, so that no added function is matched
    twice (the new names of the renames and the additions partition the
    added names); the remaining pool is the additions, and the unmatched
    deleted entries are the deletions.  The two lists determine this
    matching, so the result is reproducible.  The deletions are listed by
    name: with the distinct function names that §4.4 requires of a
    snapshot they are exactly the unmatched entries; in general an
    unmatched entry is listed unless a matched entry has its name. *)
Theorem functionChange_greedy (m : UpdateManager) :
  let baseline := parseTopLevelFunctions (_initialFunctionsCode m) in
  let current := parseTopLevelFunctions (_functionsCode m) in
  let change := functionChange m in
  ∃ unmatched remaining,
    greedy (deleted0 baseline current) (added0 baseline current)
      (functions_to_rename change) unmatched remaining
    ∧ functions_to_add change = name <$> remaining
    ∧ (NoDup (name <$> baseline) →
       functions_to_delete change = name <$> unmatched)
    ∧ functions_to_delete change
      = name <$> filter (λ f, name f ∉ old_function_name
                                         <$> functions_to_rename change)
                   unmatched
    ∧ name <$> added0 baseline current
        ≡ₚ (new_function_name <$> functions_to_rename change)
           ++ functions_to_add change
    ∧ name <$> deleted0 baseline current
        ≡ₚ (old_function_name <$> functions_to_rename change)
           ++ (name <$> unmatched)
    ∧ (∀ renames' unmatched' remaining',
         greedy (deleted0 baseline current) (added0 baseline current)
           renames' unmatched' remaining' →
         renames' = functions_to_rename change
         ∧ unmatched' = unmatched ∧ remaining' = remaining).
Proof.
  intros baseline current change. subst change. unfold functionChange.
  fold baseline current.
  destruct (detectRenames_greedy (deleted0 baseline current)
              (added0 baseline current) [])
    as (renames & unmatched & remaining & -> & Hg).
  simpl. exists unmatched, remaining.
  destruct (greedy_partition _ _ _ _ _ Hg) as [Hp Hd].
  split; [done|]. split; [done|].
  split; [|split; [|split; [done|split; [done|]]]].
  - intros Hnd. f_equal. apply (greedy_unmatched _ _ _ _ _ Hg).
    unfold deleted0. clear -Hnd. induction baseline as [|f l IH]; [constructor|].
    rewrite fmap_cons in Hnd. apply NoDup_cons in Hnd as [Hf Hnd].
    rewrite filter_cons. case_decide; [|by apply IH].
    rewrite fmap_cons. apply NoDup_cons. split; [|by apply IH].
    intros (g & Hg & Hin)%list_elem_of_fmap. apply Hf.
    apply list_elem_of_fmap. exists g. split; [done|].
    by apply list_elem_of_filter in Hin as [_ ?].
  - f_equal. by apply (greedy_not_renamed _ _ _ _ _ _ Hg).
  - by apply greedy_deterministic.
Qed.

End FunctionDiff.

(** The scenario of §8: [A] takes [B2], its best score, and [B] is left
    with [A2]; [C] is in both snapshots. *)
Example functionChange_scenario :
  @functionChange Sample.renamingEnv Sample.renamingManager
  = {| functions_to_rename :=
         [ mkRenamedFunction "A" "B2" false; mkRenamedFunction "B" "A2" false ];
       functions_to_delete := [];
       functions_to_add := [] |}.
Proof. vm_compute. reflexivity. Qed.

Lemma functionChange_greedy_witness :
  ∃ unmatched remaining,
    @greedy Sample.renamingEnv
      [mkFunctionInfo "A" "A:a"; mkFunctionInfo "B" "B:b"]
      [mkFunctionInfo "A2" "A2:a2"; mkFunctionInfo "B2" "B2:b2"]
      [mkRenamedFunction "A" "B2" false; mkRenamedFunction "B" "A2" false]
      unmatched remaining
    ∧ functions_to_delete
        (@functionChange Sample.renamingEnv Sample.renamingManager)
      = name <$> unmatched.
Proof.
  destruct (@functionChange_greedy Sample.renamingEnv Sample.renamingManager)
    as (unmatched & remaining & Hgreedy & _ & Hdeleted & _).
  exists unmatched, remaining. split; [exact Hgreedy|].
  apply Hdeleted. apply (bool_decide_unpack _). vm_compute. exact I.
Defined.

(** ** Commit *)

Section Commit.

Context `{Env}.

Lemma rebase_rebased fileInfo : rebased (rebase fileInfo).
Proof. by destruct fileInfo. Qed.

Lemma rebase_is_deleted fileInfo : is_deleted (rebase fileInfo) = is_deleted fileInfo.
Proof. by destruct fileInfo. Qed.

Lemma rebase_idempotent fileInfo : rebase (rebase fileInfo) = rebase fileInfo.
Proof. by destruct fileInfo. Qed.

(** The [forEach] of [setToSynced] touches the heap only, and there it
    rebases exactly the objects of the map. *)
Lemma forEach_rebase (entries : JsMap.t addr) :
  ∀ w, ∃ h,
    forEach entries (λ entry, assign entry.2 rebase) w = (Ok tt, with_heap h w)
    ∧ ∀ a, h !! a = if decide (a ∈ entries.*2)
                    then rebase <$> heap w !! a else heap w !! a.
Proof.
  induction entries as [|[k a0] entries IH]; intros w.
  - exists (heap w). split; [by destruct w|].
    intros a. rewrite decide_False; [done|]. by intros ?%elem_of_nil.
  - destruct (IH (with_heap (alter rebase a0 (heap w)) w)) as (h & Hrun & Hh).
    exists h. split.
    { simpl. rewrite (bind_ok _ _ w (with_heap (alter rebase a0 (heap w)) w) tt)
        by reflexivity.
      rewrite Hrun. by destruct w. }
    intros a. rewrite Hh. cbn [heap with_heap]. rewrite fmap_cons. cbn [snd].
    destruct (decide (a0 = a)) as [->|Hne].
    + rewrite list_lookup_alter_eq.
      rewrite (decide_True (P := a ∈ a :: entries.*2)) by left.
      case_decide; [|done].
      destruct (heap w !! a); [|done]. simpl. by rewrite rebase_idempotent.
    + rewrite list_lookup_alter_ne by done.
      apply decide_ext. rewrite elem_of_cons. intuition congruence.
Qed.

Lemma writeFile_run (p c : string) (d : Disk) :
  writeFile p c d
  = if writable d p then (Ok tt, <[p := c]> d) else (Throw FsError, d).
Proof. reflexivity. Qed.

Lemma saveIndexFile_writes (index : Index) (p : string) :
  saveIndexFile index p = writeFile p (indexDocument index).
Proof. reflexivity. Qed.

(** [setToSynced] commits in memory and persists the map before it
    writes the function snapshot; that write decides how it ends. *)
Lemma setToSynced_run (w : World) :
  ∃ h,
    setToSynced w
    = (if writable (disk (committed h w)) (snapshotPath (_rootPath (this w)))
       then (Ok tt, synced h w)
       else (Throw FsError, committed h w))
    ∧ ∀ a, h !! a = if decide (a ∈ (_fileMap (this w)).*2)
                    then rebase <$> heap w !! a else heap w !! a.
Proof.
  destruct (forEach_rebase (_fileMap (this w)) w) as (h & Hrun & Hh).
  exists h. split; [|done].
  unfold setToSynced. rewrite bind_gets.
  rewrite (bind_ok _ _ _ _ _ Hrun).
  unfold bind, gets, update_this, persist, modify, on_disk. cbn.
  rewrite writeFile_run. unfold snapshotPath.
  by destruct (writable _ _).
Qed.

(** On every path [setToSynced] leaves the records and the manager of
    [synced]; only the disk depends on the write of the snapshot. *)
Lemma setToSynced_world (w : World) :
  ∃ h d,
    (setToSynced w).2 = with_disk d (synced h w)
    ∧ ∀ a, h !! a = if decide (a ∈ (_fileMap (this w)).*2)
                    then rebase <$> heap w !! a else heap w !! a.
Proof.
  destruct (setToSynced_run w) as (h & -> & Hh).
  destruct (writable _ _).
  - exists h, (disk (synced h w)). by rewrite with_disk_same.
  - by exists h, (disk (committed h w)).
Qed.

(** C3. After [setToSynced], every record that survives in the map has
    [original_checksum = current_checksum] and [old_identifier_name =
    new_identifier_name], no record marked deleted remains, and the
    function baseline equals the current function text.  This commit in
    memory is made, and the map persisted, before the function snapshot
    is written, so it holds on every path: when the directory of the
    snapshot file exists the call returns and the file holds the
    baseline; when it does not, the call raises the write error and
    leaves the commit in memory and the persisted map.  The surviving
    records are records of the map before, with their current values
    kept and their baselines set to them; in a map with distinct keys
    every record not marked deleted survives. *)
Theorem setToSynced_rebases (w : World) :
  let w' := (setToSynced w).2 in
  let persisted := writeFileMap (_rootPath (this w)) (snapshot w') (disk w) in
  let snapshotFile := snapshotPath (_rootPath (this w)) in
  (∀ key a fileInfo,
     lookupFile key w' = Some (a, fileInfo) →
     original_checksum fileInfo = current_checksum fileInfo
     ∧ old_identifier_name fileInfo = new_identifier_name fileInfo
     ∧ is_deleted fileInfo = false)
  ∧ _initialFunctionsCode (this w') = _functionsCode (this w')
  ∧ _functionsCode (this w') = _functionsCode (this w)
  ∧ (if writable persisted snapshotFile
     then (setToSynced w).1 = Ok tt
          ∧ disk w' = <[snapshotFile := _functionsCode (this w)]> persisted
          ∧ disk w' !! snapshotFile = Some (_functionsCode (this w))
     else (setToSynced w).1 = Throw FsError
          ∧ disk w' = persisted)
  ∧ (∀ key a fileInfo,
       lookupFile key w' = Some (a, fileInfo) →
       ∃ before,
         (key, a) ∈ _fileMap (this w) ∧ heap w !! a = Some before
         ∧ fileInfo = rebase before)
  ∧ (NoDup (JsMap.keys (_fileMap (this w))) →
     ∀ key a before,
       lookupFile key w = Some (a, before) → is_deleted before = false →
       lookupFile key w' = Some (a, rebase before)).
Proof.
  intros w' persisted snapshotFile. subst w' persisted snapshotFile.
  destruct (setToSynced_run w) as (h & Hrun & Hh).
  assert (∃ d, (setToSynced w).2 = with_disk d (synced h w)) as [d Hworld].
  { rewrite Hrun. destruct (writable _ _).
    - exists (disk (synced h w)). by rewrite with_disk_same.
    - by exists (disk (committed h w)). }
  assert (∀ key a fileInfo,
            lookupFile key (with_disk d (synced h w)) = Some (a, fileInfo) →
            ∃ before,
              (key, a) ∈ _fileMap (this w) ∧ heap w !! a = Some before
              ∧ fileInfo = rebase before ∧ is_deleted fileInfo = false)
    as Hsurvivor.
  { intros key a fileInfo. unfold lookupFile. cbn.
    destruct (JsMap.get key _) as [a'|] eqn:Hget; [|done].
    destruct (h !! a') as [f'|] eqn:Hf'; [|done]. intros [= -> ->].
    apply JsMap_get_of_entries in Hget.
    apply list_elem_of_In, filter_In in Hget as [Hin Hkept].
    apply list_elem_of_In in Hin.
    unfold notDeleted in Hkept. cbn in Hkept. rewrite Hf' in Hkept.
    rewrite Hh, decide_True in Hf'.
    2:{ apply list_elem_of_fmap. by exists (key, a). }
    destruct (heap w !! a) as [before|]; [|done]. injection Hf' as <-.
    exists before. split; [done|]. split; [done|]. split; [done|].
    by apply negb_true_iff. }
  split; [|split; [|split; [|split; [|split]]]].
  - rewrite Hworld. intros key a fileInfo Hfound.
    destruct (Hsurvivor key a fileInfo Hfound) as (before & _ & _ & -> & Hdel).
    destruct (rebase_rebased before) as [Ho Hn]. done.
  - by rewrite Hworld.
  - by rewrite Hworld.
  - assert (snapshot (setToSynced w).2 = snapshot (committed h w)) as ->
      by by rewrite Hworld.
    change (writeFileMap (_rootPath (this w)) (snapshot (committed h w)) (disk w))
      with (disk (committed h w)).
    rewrite Hrun. destruct (writable _ _).
    + split; [done|]. split; [done|]. apply lookup_insert_eq.
    + done.
  - rewrite Hworld. intros key a fileInfo Hfound.
    destruct (Hsurvivor key a fileInfo Hfound) as (before & ? & ? & ? & _).
    by exists before.
  - rewrite Hworld. intros Hnd key a before Hfound Hdel.
    unfold lookupFile in Hfound |- *. cbn.
    destruct (JsMap.get key (_fileMap (this w))) as [a'|] eqn:Hget; [|done].
    destruct (heap w !! a') as [f|] eqn:Hf; [|done].
    injection Hfound as -> ->.
    assert (h !! a = Some (rebase before)) as Hobj.
    { rewrite Hh, decide_True, Hf; [done|].
      apply list_elem_of_fmap. exists (key, a). split; [done|].
      by apply JsMap_get_elem. }
    rewrite JsMap_of_entries_NoDup by by apply JsMap_keys_filter_NoDup.
    rewrite (JsMap_get_filter _ key a), Hobj; [done..|].
    unfold notDeleted. cbn. by rewrite Hobj, rebase_is_deleted, Hdel.
Qed.

End Commit.

(** Commit on the edited project: [foo.dart] is rebased, [bar.dart] is
    gone, the function baseline is the current text. *)
Example setToSynced_edited_project :
  let w' := (@setToSynced Sample.env Sample.editedWorld).2 in
  _fileMap (this w') = [("foo.dart", 0)]
  ∧ heap w' !! 0
    = Some {| old_identifier_name := JVal "fooBar";
              new_identifier_name := JVal "fooBar";
              type := ACTION;
              is_deleted := false;
              original_checksum := JVal "sha256:fooBar";
              current_checksum := JVal "sha256:fooBar" |}
  ∧ _initialFunctionsCode (this w') = "A2:a2".
Proof. vm_compute. done. Qed.

Lemma setToSynced_rebases_witness :
  lookupFile "foo.dart" (@setToSynced Sample.env Sample.editedWorld).2
  = Some (0, rebase Sample.editedFoo).
Proof.
  destruct (@setToSynced_rebases Sample.env Sample.editedWorld)
    as (_ & _ & _ & _ & _ & Hsurvives).
  apply Hsurvives.
  - apply (bool_decide_unpack _). vm_compute. exact I.
  - reflexivity.
  - reflexivity.
Defined.

(** ** Entry points that do nothing *)

Section NoOps.

Context `{Env}.

Lemma lookupFile_absent key w :
  JsMap.get key (_fileMap (this w)) = None → lookupFile key w = None.
Proof. unfold lookupFile. by intros ->. Qed.

(** C9. While [paused] is set, [addFile], [updateFile] and [deleteFile]
    return [null] and leave the whole world as it is: the file-state
    map, both indexes, the files on disk (index documents and persisted
    snapshot) and the notifications emitted so far.  Nothing is kept for
    later: resuming after a suppressed event gives the world that
    resuming without it gives.  [pause] sets the flag, so an event that
    follows it, in any world, is suppressed in this way. *)
Theorem paused_entry_points_do_nothing (w w0 : World) (filePath : string) :
  paused (this w) = true →
  addFile filePath w = (Ok JNull, w)
  ∧ updateFile filePath w = (Ok JNull, w)
  ∧ deleteFile filePath w = (Ok JNull, w)
  ∧ (addFile filePath;; resume) w = resume w
  ∧ (updateFile filePath;; resume) w = resume w
  ∧ (deleteFile filePath;; resume) w = resume w
  ∧ (pause;; addFile filePath) w0 = (Ok JNull, (pause w0).2)
  ∧ (pause;; updateFile filePath) w0 = (Ok JNull, (pause w0).2)
  ∧ (pause;; deleteFile filePath) w0 = (Ok JNull, (pause w0).2).
Proof.
  assert (∀ w, paused (this w) = true → addFile filePath w = (Ok JNull, w))
    as Hadd.
  { intros w1 Hpaused. unfold addFile. by rewrite bind_gets, Hpaused. }
  assert (∀ w, paused (this w) = true → updateFile filePath w = (Ok JNull, w))
    as Hupdate.
  { intros w1 Hpaused. unfold updateFile. by rewrite bind_gets, Hpaused. }
  assert (∀ w, paused (this w) = true → deleteFile filePath w = (Ok JNull, w))
    as Hdelete.
  { intros w1 Hpaused. unfold deleteFile. by rewrite bind_gets, Hpaused. }
  intros Hpaused.
  assert (∀ op : M World (js addr),
            op w = (Ok JNull, w) → (op;; resume) w = resume w) as Hresume.
  { intros op Hop. by rewrite (bind_ok _ _ _ _ _ Hop). }
  assert (∀ op : M World (js addr),
            (∀ w, paused (this w) = true → op w = (Ok JNull, w)) →
            (pause;; op) w0 = (Ok JNull, (pause w0).2)) as Hpause.
  { intros op Hop. rewrite (bind_ok _ _ w0 (pause w0).2 tt) by reflexivity.
    by apply Hop. }
  repeat split; auto.
Qed.

(** C10. For a key without a record, [deleteFile] (on a path that is not
    the function document) and [renameFile] return [null] and leave the
    whole world as it is: map, indexes, files on disk and emitted
    notifications. *)
Theorem absent_key_delete_rename_do_nothing
    (w : World) (filePath oldFilePath newFilePath : string) :
  JsMap.get (path_basename filePath) (_fileMap (this w)) = None →
  pathToCodeType filePath ≠ FUNCTION →
  JsMap.get (path_basename oldFilePath) (_fileMap (this w)) = None →
  deleteFile filePath w = (Ok JNull, w)
  ∧ renameFile oldFilePath newFilePath w = (Ok JNull, w).
Proof.
  intros Habsent%lookupFile_absent Hcode Hold%lookupFile_absent. split.
  - unfold deleteFile, bind at 1, gets at 1. cbv beta iota.
    destruct (paused (this w)); [done|].
    rewrite decide_False by done.
    unfold bind at 1, gets at 1. cbv beta iota. by rewrite Habsent.
  - unfold renameFile, bind at 1, gets at 1. cbv beta iota.
    destruct (paused (this w)); [done|].
    unfold bind at 1, gets at 1. cbv beta iota. by rewrite Hold.
Qed.

End NoOps.

Lemma paused_entry_points_do_nothing_witness :
  @addFile Sample.env Sample.fooPath Sample.pausedWorld
    = (Ok JNull, Sample.pausedWorld)
  ∧ @updateFile Sample.env Sample.fooPath Sample.pausedWorld
    = (Ok JNull, Sample.pausedWorld)
  ∧ @deleteFile Sample.env Sample.fooPath Sample.pausedWorld
    = (Ok JNull, Sample.pausedWorld)
  ∧ (@addFile Sample.env Sample.fooPath;; resume) Sample.pausedWorld
    = resume Sample.pausedWorld
  ∧ (@updateFile Sample.env Sample.fooPath;; resume) Sample.pausedWorld
    = resume Sample.pausedWorld
  ∧ (@deleteFile Sample.env Sample.fooPath;; resume) Sample.pausedWorld
    = resume Sample.pausedWorld
  ∧ (pause;; @addFile Sample.env Sample.fooPath) Sample.world
    = (Ok JNull, Sample.pausedWorld)
  ∧ (pause;; @updateFile Sample.env Sample.fooPath) Sample.world
    = (Ok JNull, Sample.pausedWorld)
  ∧ (pause;; @deleteFile Sample.env Sample.fooPath) Sample.world
    = (Ok JNull, Sample.pausedWorld).
Proof.
  apply (@paused_entry_points_do_nothing Sample.env Sample.pausedWorld
           Sample.world Sample.fooPath).
  reflexivity.
Defined.

Lemma absent_key_delete_rename_do_nothing_witness :
  @deleteFile Sample.env "/p/lib/custom_code/actions/bar.dart" Sample.world
    = (Ok JNull, Sample.world)
  ∧ @renameFile Sample.env "/p/lib/custom_code/widgets/bar.dart"
      "/p/lib/custom_code/widgets/baz.dart" Sample.world
    = (Ok JNull, Sample.world).
Proof.
  apply (@absent_key_delete_rename_do_nothing Sample.env Sample.world
           "/p/lib/custom_code/actions/bar.dart"
           "/p/lib/custom_code/widgets/bar.dart"
           "/p/lib/custom_code/widgets/baz.dart").
  - reflexivity.
  - vm_compute. discriminate.
  - reflexivity.
Defined.

(** ** Update with an unchanged digest *)

Section UnchangedUpdate.

Context `{Env}.

(** C5. An update of a tracked file whose fresh digest equals
    [original_checksum] stores the digest in [current_checksum] and
    returns the record at once.  Nothing else happens: the map, both
    indexes and the function text are as before (no rename inference:
    [new_identifier_name] keeps its value), no file is written (no index
    document, no persisted snapshot) and no notification is emitted. *)
Theorem updateFile_unchanged_digest
    (w : World) (filePath : string) (a : addr) (fileInfo : FileInfo)
    (content : string) :
  paused (this w) = false →
  lookupFile (path_basename filePath) w = Some (a, fileInfo) →
  disk w !! filePath = Some content →
  original_checksum fileInfo = JVal (sha256_hex content) →
  let refreshed := with_current_checksum (JVal (sha256_hex content)) fileInfo in
  let w' := (updateFile filePath w).2 in
  (updateFile filePath w).1 = Ok (JVal a)
  ∧ heap w' = <[a := refreshed]> (heap w)
  ∧ new_identifier_name refreshed = new_identifier_name fileInfo
  ∧ this w' = this w
  ∧ disk w' = disk w
  ∧ emitted w' = emitted w.
Proof.
  intros Hpaused Hfound Hfile Horiginal refreshed w'. subst w'.
  assert (heap w !! a = Some fileInfo) as Hobj.
  { unfold lookupFile in Hfound.
    destruct (JsMap.get _ _) as [a'|]; [|done].
    destruct (heap w !! a') eqn:E; [|done]. by injection Hfound as -> ->. }
  assert (updateFile filePath w
          = (Ok (JVal a), with_heap (<[a := refreshed]> (heap w)) w)) as ->.
  { unfold updateFile, bind at 1, gets at 1. cbv beta iota. rewrite Hpaused.
    unfold bind at 1, gets at 1. cbv beta iota. rewrite Hfound.
    unfold bind at 1, on_disk at 1, computeChecksum at 1, bind at 1,
      readFile at 1. rewrite Hfile. cbv beta iota zeta.
    unfold ret at 1. cbv beta iota.
    assert (with_disk (disk w) w = w) as -> by by destruct w.
    unfold bind at 1, assign at 1, modify at 1. cbv beta iota.
    unfold bind at 1, load at 1. cbn [heap with_heap].
    rewrite list_lookup_alter_eq, Hobj. cbn [fmap option_fmap option_map].
    cbv beta iota.
    replace (current_checksum _ === original_checksum _) with true.
    2:{ symmetry. apply bool_decide_eq_true. cbn. by rewrite Horiginal. }
    unfold ret. do 2 f_equal.
    apply list_eq. intros i. destruct (decide (a = i)) as [->|Hne].
    - rewrite list_lookup_alter_eq, list_lookup_insert_eq, Hobj; [done|].
      by eapply lookup_lt_Some.
    - by rewrite list_lookup_alter_ne, list_lookup_insert_ne. }
  done.
Qed.

End UnchangedUpdate.

Lemma updateFile_unchanged_digest_witness :
  (@updateFile Sample.env Sample.fooPath Sample.world).1 = Ok (JVal 0)
  ∧ heap (@updateFile Sample.env Sample.fooPath Sample.world).2
    = [Sample.fooInfo]
  ∧ JVal "foo" = JVal "foo"
  ∧ this (@updateFile Sample.env Sample.fooPath Sample.world).2
    = Sample.manager
  ∧ disk (@updateFile Sample.env Sample.fooPath Sample.world).2
    = Sample.files
  ∧ emitted (@updateFile Sample.env Sample.fooPath Sample.world).2 = [].
Proof.
  apply (@updateFile_unchanged_digest Sample.env Sample.world Sample.fooPath
           0 Sample.fooInfo "foo"); reflexivity.
Defined.

(** ** Decoding the sync response *)

Section Decoding.

Context `{Env}.

(** C4. Decoding a sync response.  A body that does not parse makes the
    decoding fail with the raw response text as error detail.  A body
    that parses is, on a non-success status, itself turned into the
    filename-to-warnings map; on a success status its [value] field is
    parsed as a document and that document is turned into the map.  Both
    paths build the map in the same way ([errorMapOf]), so for the same
    document [warnings] they give the same map: its entries. *)
Theorem parseSyncCodeResponse_decodes
    (response : Response) (warnings envelope : list (string * JSON))
    (inner : string) :
  NoDup warnings.*1 →
  (JSON_parse (text response) = None →
     parseSyncCodeResponse response = Throw (Err (text response)))
  ∧ (∀ body, JSON_parse (text response) = Some body → ok response = false →
       parseSyncCodeResponse response = errorMapOf body)
  ∧ (∀ body, JSON_parse (text response) = Some body → ok response = true →
       parseSyncCodeResponse response
       = Outcome_bind (value_of body) (λ value,
         Outcome_bind (JSON_parse_value value) errorMapOf))
  ∧ (JSON_parse (text response) = Some (json_object warnings) →
     ok response = false →
       parseSyncCodeResponse response = Ok warnings)
  ∧ (JSON_parse (text response) = Some (json_object envelope) →
     ok response = true →
     JsMap.get "value" envelope = Some (json_string inner) →
     JSON_parse inner = Some (json_object warnings) →
       parseSyncCodeResponse response = Ok warnings).
Proof.
  intros Hnd. unfold parseSyncCodeResponse.
  split; [by intros ->|]. split; [by intros body -> ->|].
  split; [by intros body -> ->|]. split.
  - intros -> ->. unfold errorMapOf. simpl.
    by rewrite JsMap_of_entries_NoDup.
  - intros -> -> Hvalue Hinner. unfold value_of. rewrite Hvalue.
    unfold Outcome_bind at 1, JSON_parse_value. rewrite Hinner.
    unfold errorMapOf. simpl. by rewrite JsMap_of_entries_NoDup.
Qed.

End Decoding.

(** The two scenarios of §8. *)
Example parseSyncCodeResponse_failure_scenario :
  @parseSyncCodeResponse Sample.syncEnv (mkResponse false Sample.failureBody)
  = Ok [("foo.dart",
         json_array [json_object [("message", json_string "bad")]])].
Proof. vm_compute. reflexivity. Qed.

Example parseSyncCodeResponse_success_scenario :
  @parseSyncCodeResponse Sample.syncEnv (mkResponse true Sample.successBody)
  = Ok [("foo.dart", json_array [])].
Proof. vm_compute. reflexivity. Qed.

Example parseSyncCodeResponse_unparseable :
  @parseSyncCodeResponse Sample.syncEnv (mkResponse true "<html>502</html>")
  = Throw (Err "<html>502</html>").
Proof. vm_compute. reflexivity. Qed.

Lemma parseSyncCodeResponse_decodes_witness :
  @parseSyncCodeResponse Sample.syncEnv (mkResponse true Sample.successBody)
  = Ok [("foo.dart", json_array [])].
Proof.
  pose proof (@parseSyncCodeResponse_decodes Sample.syncEnv
                (mkResponse true Sample.successBody)
                [("foo.dart", json_array [])]
                [("value", json_string Sample.innerDocument)]
                Sample.innerDocument) as Hdecode.
  assert (NoDup [("foo.dart", json_array [])].*1) as Hnd.
  { apply NoDup_singleton. }
  destruct (Hdecode Hnd) as (_ & _ & _ & _ & Hsuccess).
  apply Hsuccess; reflexivity.
Defined.

(** ** The category of a record *)

Section Category.

Context `{Env}.

Lemma types_kept_refl h : types_kept h h.
Proof. intros a f Hf. by exists f. Qed.

Lemma types_kept_trans h1 h2 h3 :
  types_kept h1 h2 → types_kept h2 h3 → types_kept h1 h3.
Proof.
  intros H12 H23 a f Hf.
  destruct (H12 a f Hf) as (f2 & Hf2 & E2).
  destruct (H23 a f2 Hf2) as (f3 & Hf3 & E3).
  exists f3. split; [done|congruence].
Qed.

Lemma types_kept_alter h a g :
  (∀ f, type (g f) = type f) → types_kept h (alter g a h).
Proof.
  intros Hg a' f Hf. destruct (decide (a = a')) as [->|Hne].
  - exists (g f). by rewrite list_lookup_alter_eq, Hf.
  - exists f. by rewrite list_lookup_alter_ne.
Qed.

#[local] Instance types_kept_rel :
  WorldRel (λ w w', types_kept (heap w) (heap w')).
Proof.
  split; simpl; intros.
  - apply types_kept_refl.
  - by eapply types_kept_trans.
  - by apply types_kept_alter.
  - apply types_kept_refl.
  - apply types_kept_refl.
  - apply types_kept_refl.
Qed.

#[local] Instance objects_kept_rel : WorldRel objects_kept.
Proof.
  unfold objects_kept, same_objects. split; simpl.
  - intros w. split; [done|apply types_kept_refl].
  - intros w1 w2 w3 [L12 H12] [L23 H23]. split; [congruence|].
    by eapply types_kept_trans.
  - intros w a g Hg. split; [apply length_alter|by apply types_kept_alter].
  - intros. split; [done|apply types_kept_refl].
  - intros. split; [done|apply types_kept_refl].
  - intros. split; [done|apply types_kept_refl].
Qed.

#[local] Instance binding_kept_rel key a : WorldRel (binding_kept key a).
Proof.
  unfold binding_kept. split; simpl; try done.
  intros w1 w2 w3 H12 H23 Hget. rewrite H23, H12; [done..|].
  by rewrite H12.
Qed.

#[local] Instance types_kept_rebinds key a :
  Rebinds (λ w w', types_kept (heap w) (heap w')) key a.
Proof. intros w. apply types_kept_refl. Qed.

#[local] Instance objects_kept_rebinds key a : Rebinds objects_kept key a.
Proof. intros w. split; [done|apply types_kept_refl]. Qed.

Lemma JsMap_set_same {V} (key : string) (v : V) (m : JsMap.t V) :
  JsMap.get key m = Some v → JsMap.set key v m = m.
Proof.
  induction m as [|[k0 v0] m IH]; simpl; [done|].
  destruct (String.eqb k0 key) eqn:E.
  - apply String.eqb_eq in E as ->. by intros [= ->].
  - intros Hget. by rewrite IH.
Qed.

#[local] Instance binding_kept_rebinds key a : Rebinds (binding_kept key a) key a.
Proof. intros w Hget. simpl. by apply JsMap_set_same. Qed.

Section Steady.

Context (R : World → World → Prop) `{!WorldRel R}.

Lemma steady_ret {A} (a : A) : steady R (ret a).
Proof. intros w. apply world_rel_refl. Qed.

Lemma steady_throw {A} (e : Error) : steady R (throw (A:=A) e).
Proof. intros w. apply world_rel_refl. Qed.

Lemma steady_gets {A} (f : World → A) : steady R (gets f).
Proof. intros w. apply world_rel_refl. Qed.

Lemma steady_bind {A B} (m : M World A) (k : A → M World B) :
  steady R m → (∀ a, steady R (k a)) → steady R (bind m k).
Proof.
  intros Hm Hk w. unfold bind. specialize (Hm w).
  destruct (m w) as [[a|e] w1]; simpl in *; [|done].
  eapply world_rel_trans; [done|apply Hk].
Qed.

Lemma steady_on_disk {A} (m : M Disk A) : steady R (on_disk m).
Proof.
  intros w. unfold on_disk. destruct (m (disk w)). apply world_rel_disk.
Qed.

Lemma steady_update_this (f : UpdateManager → UpdateManager) :
  (∀ m, _fileMap (f m) = _fileMap m) → steady R (update_this f).
Proof. intros Hf w. by apply world_rel_this. Qed.

Lemma steady_rebind (key : string) (a : addr) `{!Rebinds R key a} :
  steady R (update_this (λ m, with_fileMap (JsMap.set key a (_fileMap m)) m)).
Proof. intros w. apply rebinds. Qed.

Lemma steady_modify_disk (f : World → Disk) :
  steady R (modify (λ w, with_disk (f w) w)).
Proof. intros w. apply world_rel_disk. Qed.

Lemma steady_persist : steady R persist.
Proof. intros w. apply world_rel_disk. Qed.

Lemma steady_emit (fullFilePath : string) (a : addr) :
  steady R (emit fullFilePath a).
Proof. intros w. apply world_rel_emitted. Qed.

Lemma steady_load (a : addr) : steady R (load a).
Proof. intros w. unfold load. destruct (heap w !! a); apply world_rel_refl. Qed.

Lemma steady_assign (a : addr) (g : FileInfo → FileInfo) :
  (∀ f, type (g f) = type f) → steady R (assign a g).
Proof. intros Hg w. by apply world_rel_assign. Qed.

End Steady.

Ltac steady_step :=
  first
    [ apply steady_ret, _ | apply steady_throw, _ | apply steady_gets, _
    | apply steady_on_disk, _ | apply steady_modify_disk, _
    | apply steady_persist, _ | apply steady_emit, _ | apply steady_load, _
    | apply steady_rebind; apply _
    | apply steady_update_this;
        [apply _
        |intros []; unfold with_indexOf; repeat case_decide; reflexivity]
    | apply steady_assign; [apply _|intros []; reflexivity]
    | apply steady_bind; [apply _| |intros ?]
    | match goal with
      | |- steady _ (if ?b then _ else _) => destruct b
      | |- steady _ (match ?x with _ => _ end) => destruct x
      end ].

Section Handlers.

Context (R : World → World → Prop) `{!WorldRel R}.

(** [updateFile] once the record of the base name is found. *)
Lemma updateFile_found_steady filePath (a : addr) (w : World) fileInfo
    `{!Rebinds R (path_basename filePath) a} :
  lookupFile (path_basename filePath) w = Some (a, fileInfo) →
  R w (updateFile filePath w).2.
Proof.
  intros Hfound. unfold updateFile. rewrite bind_gets.
  destruct (paused (this w)); [apply world_rel_refl|].
  rewrite bind_gets, Hfound.
  match goal with |- R w (?m w).2 => cut (steady R m); [by intros Hm|] end.
  repeat steady_step.
Qed.

Lemma updateFile_steady filePath `{!∀ a, Rebinds R (path_basename filePath) a} :
  steady R (updateFile filePath).
Proof.
  intros w.
  destruct (lookupFile (path_basename filePath) w) as [[a fileInfo]|] eqn:Hfound.
  - by eapply updateFile_found_steady.
  - unfold updateFile. rewrite bind_gets.
    destruct (paused (this w)); [apply world_rel_refl|].
    rewrite bind_gets, Hfound. apply world_rel_refl.
Qed.

(** [deleteFile] once the record of the base name is found. *)
Lemma deleteFile_found_steady filePath (a : addr) (w : World) fileInfo
    `{!Rebinds R (path_basename filePath) a} :
  lookupFile (path_basename filePath) w = Some (a, fileInfo) →
  R w (deleteFile filePath w).2.
Proof.
  intros Hfound. unfold deleteFile. rewrite bind_gets.
  destruct (paused (this w)); [apply world_rel_refl|].
  case_decide; [apply world_rel_refl|].
  rewrite bind_gets, Hfound.
  match goal with |- R w (?m w).2 => cut (steady R m); [by intros Hm|] end.
  repeat steady_step.
Qed.

Lemma deleteFile_steady filePath `{!∀ a, Rebinds R (path_basename filePath) a} :
  steady R (deleteFile filePath).
Proof.
  intros w.
  destruct (lookupFile (path_basename filePath) w) as [[a fileInfo]|] eqn:Hfound.
  - by eapply deleteFile_found_steady.
  - unfold deleteFile. rewrite bind_gets.
    destruct (paused (this w)); [apply world_rel_refl|].
    case_decide; [apply world_rel_refl|].
    rewrite bind_gets, Hfound. apply world_rel_refl.
Qed.

Lemma insertBoilerplate_steady filePath : steady R (insertBoilerplate filePath).
Proof.
  unfold insertBoilerplate, customFunctionsExist, themeImportPath.
  repeat steady_step.
Qed.

End Handlers.

(** A key bound to a record stays bound to it through [updateFile] and
    [deleteFile]: these never change the map. *)
Lemma updateFile_keeps_map filePath w :
  _fileMap (this (updateFile filePath w).2) = _fileMap (this w).
Proof.
  destruct (lookupFile (path_basename filePath) w) as [[a fileInfo]|] eqn:Hfound.
  - apply (updateFile_found_steady (binding_kept (path_basename filePath) a)
             filePath a w fileInfo Hfound).
    unfold lookupFile in Hfound.
    destruct (JsMap.get _ _) as [a'|]; [|done].
    destruct (heap w !! a'); [|done]. by injection Hfound as -> _.
  - unfold updateFile. rewrite bind_gets.
    destruct (paused (this w)); [done|]. by rewrite bind_gets, Hfound.
Qed.

Lemma deleteFile_keeps_map filePath w :
  _fileMap (this (deleteFile filePath w).2) = _fileMap (this w).
Proof.
  destruct (lookupFile (path_basename filePath) w) as [[a fileInfo]|] eqn:Hfound.
  - apply (deleteFile_found_steady (binding_kept (path_basename filePath) a)
             filePath a w fileInfo Hfound).
    unfold lookupFile in Hfound.
    destruct (JsMap.get _ _) as [a'|]; [|done].
    destruct (heap w !! a'); [|done]. by injection Hfound as -> _.
  - unfold deleteFile. rewrite bind_gets.
    destruct (paused (this w)); [done|]. case_decide; [done|].
    by rewrite bind_gets, Hfound.
Qed.

Lemma renameFile_types_kept oldFilePath newFilePath :
  steady (λ w w', types_kept (heap w) (heap w'))
    (renameFile oldFilePath newFilePath).
Proof.
  intros w. unfold renameFile. rewrite bind_gets.
  destruct (paused (this w)); [apply types_kept_refl|].
  rewrite bind_gets.
  destruct (lookupFile _ w) as [[a fileInfo]|]; apply types_kept_refl.
Qed.

Lemma new_object_types_kept fileInfo :
  steady (λ w w', types_kept (heap w) (heap w')) (new_object fileInfo).
Proof.
  intros w a f Hf. exists f. split; [|done]. simpl.
  by apply lookup_app_l_Some.
Qed.

Lemma addFile_types_kept filePath :
  steady (λ w w', types_kept (heap w) (heap w')) (addFile filePath).
Proof.
  unfold addFile.
  repeat first
    [ apply updateFile_steady; apply _
    | apply insertBoilerplate_steady, _
    | apply new_object_types_kept
    | steady_step ].
Qed.

Lemma handle_types_kept event :
  steady (λ w w', types_kept (heap w) (heap w')) (handle event).
Proof.
  destruct event; simpl.
  - apply addFile_types_kept.
  - apply updateFile_steady; apply _.
  - apply deleteFile_steady; apply _.
  - apply renameFile_types_kept.
Qed.

Lemma run_events_types_kept events :
  ∀ w, types_kept (heap w) (heap (run_events events w)).
Proof.
  unfold run_events.
  induction events as [|event events IH]; intros w; simpl.
  - apply types_kept_refl.
  - eapply types_kept_trans; [apply handle_types_kept|apply IH].
Qed.

(** The part of [addFile] that precedes the look-up of the base name
    only reads and writes files. *)
Lemma addFile_prelude_disk_only filePath source w :
  ∃ r d,
    (if bool_decide (String.length source = 0)
     then insertBoilerplate filePath else ret tt) w
    = (r, with_disk d w).
Proof.
  case_bool_decide; [|exists (Ok tt), (disk w); by rewrite with_disk_same].
  unfold insertBoilerplate, customFunctionsExist, themeImportPath.
  unfold bind, ret, gets, on_disk, readFile, modify.
  repeat case_decide;
    repeat (case_match; simplify_eq);
    try (eexists _, _; cbn; reflexivity).
  exists (Ok tt), (disk w). by rewrite with_disk_same.
Qed.

Lemma lookupFile_object key w a fileInfo :
  lookupFile key w = Some (a, fileInfo) →
  JsMap.get key (_fileMap (this w)) = Some a ∧ heap w !! a = Some fileInfo.
Proof.
  unfold lookupFile. destruct (JsMap.get _ _) as [a'|]; [|done].
  destruct (heap w !! a') eqn:E; [|done]. by intros [= -> ->].
Qed.

(** [renameFile] moves the record: the new key holds the object the old
    key held, with all its fields, and the old key holds nothing. *)
Lemma renameFile_moves oldFilePath newFilePath w a fileInfo :
  paused (this w) = false →
  lookupFile (path_basename oldFilePath) w = Some (a, fileInfo) →
  path_basename newFilePath ≠ path_basename oldFilePath →
  let w' := (renameFile oldFilePath newFilePath w).2 in
  lookupFile (path_basename newFilePath) w' = Some (a, fileInfo)
  ∧ lookupFile (path_basename oldFilePath) w' = None.
Proof.
  intros Hpaused Hfound Hne w'. subst w'.
  unfold renameFile. rewrite bind_gets, Hpaused, bind_gets, Hfound.
  apply lookupFile_object in Hfound as [Hkey Hobj].
  unfold lookupFile. cbn.
  rewrite !JsMap_get_delete, !JsMap_get_set, !String.eqb_refl.
  destruct (String.eqb (path_basename oldFilePath) (path_basename newFilePath))
    eqn:E.
  - apply String.eqb_eq in E. congruence.
  - by rewrite Hobj.
Qed.

(** C8. The category of a record never changes after its creation.  No
    sequence of add, update, delete and rename events changes the [type]
    of an existing [FileInfo] object; so a key that holds the same record
    before and after the events holds it with the same category.  Update
    and delete events leave every key with its record, hence with its
    category; a rename moves the record, fields unchanged, to the new
    key.  An [addFile] for a base name whose record has the category of
    the added path runs [updateFile] on that record: it creates no record
    and leaves the map as it is. *)
Theorem category_fixed_at_creation :
  (∀ (events : list FileEvent) (w : World) (a : addr) (fileInfo : FileInfo),
     heap w !! a = Some fileInfo →
     ∃ fileInfo',
       heap (run_events events w) !! a = Some fileInfo'
       ∧ type fileInfo' = type fileInfo)
  ∧ (∀ (events : list FileEvent) (w : World) (key : string) (a : addr)
       (fileInfo fileInfo' : FileInfo),
       lookupFile key w = Some (a, fileInfo) →
       lookupFile key (run_events events w) = Some (a, fileInfo') →
       type fileInfo' = type fileInfo)
  ∧ (∀ (w : World) (filePath key : string) (a : addr) (fileInfo : FileInfo),
       lookupFile key w = Some (a, fileInfo) →
       (∃ fileInfo',
          lookupFile key (updateFile filePath w).2 = Some (a, fileInfo')
          ∧ type fileInfo' = type fileInfo)
       ∧ (∃ fileInfo',
            lookupFile key (deleteFile filePath w).2 = Some (a, fileInfo')
            ∧ type fileInfo' = type fileInfo))
  ∧ (∀ (w : World) (oldFilePath newFilePath : string) (a : addr)
       (fileInfo : FileInfo),
       paused (this w) = false →
       lookupFile (path_basename oldFilePath) w = Some (a, fileInfo) →
       path_basename newFilePath ≠ path_basename oldFilePath →
       lookupFile (path_basename newFilePath)
         (renameFile oldFilePath newFilePath w).2
       = Some (a, fileInfo))
  ∧ (∀ (w : World) (filePath source : string) (a : addr) (fileInfo : FileInfo),
       paused (this w) = false →
       disk w !! filePath = Some source →
       lookupFile (path_basename filePath) w = Some (a, fileInfo) →
       type fileInfo = pathToCodeType filePath →
       addFile filePath w
       = ((if bool_decide (String.length source = 0)
           then insertBoilerplate filePath else ret tt);;
          updateFile filePath) w
       ∧ length (heap (addFile filePath w).2) = length (heap w)
       ∧ _fileMap (this (addFile filePath w).2) = _fileMap (this w)).
Proof.
  split; [|split; [|split; [|split]]].
  - intros events w a fileInfo Hobj.
    by apply (run_events_types_kept events w).
  - intros events w key a fileInfo fileInfo' Hbefore Hafter.
    apply lookupFile_object in Hbefore as [_ Hobj].
    apply lookupFile_object in Hafter as [_ Hobj'].
    destruct (run_events_types_kept events w a fileInfo Hobj)
      as (f' & Hf' & Htype).
    congruence.
  - intros w filePath key a fileInfo Hfound.
    apply lookupFile_object in Hfound as [Hkey Hobj].
    split.
    + destruct (handle_types_kept (Update filePath) w a fileInfo Hobj)
        as (f' & Hf' & Htype).
      exists f'. split; [|done]. unfold lookupFile.
      simpl in Hf'. by rewrite updateFile_keeps_map, Hkey, Hf'.
    + destruct (handle_types_kept (Delete filePath) w a fileInfo Hobj)
        as (f' & Hf' & Htype).
      exists f'. split; [|done]. unfold lookupFile.
      simpl in Hf'. by rewrite deleteFile_keeps_map, Hkey, Hf'.
  - intros w oldFilePath newFilePath a fileInfo Hpaused Hfound Hne.
    by destruct (renameFile_moves oldFilePath newFilePath w a fileInfo
                   Hpaused Hfound Hne).
  - intros w filePath source a fileInfo Hpaused Hfile Hfound Htype.
    assert (on_disk (readFile filePath) w = (Ok source, w)) as Hread.
    { unfold on_disk, readFile. by rewrite Hfile, with_disk_same. }
    destruct (addFile_prelude_disk_only filePath source w)
      as (r & d & Hprelude).
    assert (addFile filePath w
            = ((if bool_decide (String.length source = 0)
                then insertBoilerplate filePath else ret tt);;
               updateFile filePath) w) as Heq.
    { unfold addFile. rewrite bind_gets, Hpaused.
      rewrite (bind_ok _ _ _ _ _ Hread).
      destruct r as [[]|e].
      - rewrite !(bind_ok _ _ _ _ _ Hprelude).
        rewrite bind_gets.
        assert (lookupFile (path_basename filePath) (with_disk d w)
                = Some (a, fileInfo)) as -> by done.
        by rewrite bool_decide_eq_true_2.
      - by rewrite !(bind_thrown _ _ _ _ _ Hprelude). }
    split; [done|]. rewrite Heq.
    destruct r as [[]|e].
    + rewrite (bind_ok _ _ _ _ _ Hprelude).
      split.
      * assert (Hsteady := updateFile_steady objects_kept filePath (with_disk d w)).
        by destruct Hsteady.
      * by rewrite updateFile_keeps_map.
    + by rewrite (bind_thrown _ _ _ _ _ Hprelude).
Qed.

End Category.

(** ** Loading without index documents *)

Section MissingIndexes.

Context `{Env}.

Lemma readFile_absent (path : string) (d : Disk) :
  d !! path = None → readFile path d = (Throw FsError, d).
Proof. unfold readFile. by intros ->. Qed.

Lemma readFile_present (path content : string) (d : Disk) :
  d !! path = Some content → readFile path d = (Ok content, d).
Proof. unfold readFile. by intros ->. Qed.

Lemma try_catch_thrown {S A} (m : M S A) (h : Error → M S A) (s s' : S) e :
  m s = (Throw e, s') → try_catch m h s = h e s'.
Proof. unfold try_catch. by intros ->. Qed.

(** Reading and parsing an index document that is absent throws, and
    touches nothing. *)
Lemma read_index_absent (path : string) (set : Index → UpdateManager → UpdateManager)
    (w : World) :
  disk w !! path = None →
  (let* content := on_disk (readFile path) in
   let* index := lift (parseIndexFile content) in
   update_this (set index)) w
  = (Throw FsError, w).
Proof.
  intros Habsent. apply bind_thrown.
  unfold on_disk. by rewrite (readFile_absent _ _ Habsent), with_disk_same.
Qed.

(** What [refresh] does when both index documents are absent: it empties
    the two in-memory indexes, catches the two read errors, and then
    throws when [computeFileMap] reads the action index document. *)
Lemma refresh_without_index_documents (w : World) :
  let root := _rootPath (this w) in
  disk w !! actionsIndexPath root = None →
  disk w !! widgetsIndexPath root = None →
  refresh w
  = (Throw FsError,
     with_this
       (with_widgetIndex JsMap.empty (with_actionIndex JsMap.empty (this w))) w).
Proof.
  intros root Hactions Hwidgets. unfold refresh. rewrite bind_gets. fold root.
  set (w1 := with_this (with_actionIndex JsMap.empty (this w)) w).
  rewrite (bind_ok _ _ w w1 tt) by reflexivity.
  assert (try_catch
            (let* content := on_disk (readFile (actionsIndexPath root)) in
             let* index := lift (parseIndexFile content) in
             update_this (with_actionIndex index))
            (λ _, ret tt) w1 = (Ok tt, w1)) as Hcatch1.
  { erewrite try_catch_thrown; [done|]. by apply read_index_absent. }
  rewrite (bind_ok _ _ _ _ _ Hcatch1).
  set (w2 := with_this (with_widgetIndex JsMap.empty (this w1)) w1).
  rewrite (bind_ok _ _ w1 w2 tt) by reflexivity.
  assert (try_catch
            (let* content := on_disk (readFile (widgetsIndexPath root)) in
             let* index := lift (parseIndexFile content) in
             update_this (with_widgetIndex index))
            (λ _, ret tt) w2 = (Ok tt, w2)) as Hcatch2.
  { erewrite try_catch_thrown; [done|]. by apply read_index_absent. }
  rewrite (bind_ok _ _ _ _ _ Hcatch2).
  apply bind_thrown. unfold on_disk, computeFileMap.
  erewrite bind_thrown; [|by apply readFile_absent].
  by rewrite with_disk_same.
Qed.

(** C6, as amended.  When the index documents are absent,
    [deserializeUpdateManager] raises the read error, builds no manager
    and leaves the disk as it is; [refresh] catches the read errors of
    the two index documents and leaves both in-memory indexes empty. *)
Theorem load_without_index_documents :
  (∀ (projectPath : string) (d : Disk),
     d !! actionsIndexPath projectPath = None →
     deserializeUpdateManager projectPath d = (Throw FsError, d))
  ∧ (∀ w : World,
       disk w !! actionsIndexPath (_rootPath (this w)) = None →
       disk w !! widgetsIndexPath (_rootPath (this w)) = None →
       actionIndex (this (refresh w).2) = JsMap.empty
       ∧ widgetIndex (this (refresh w).2) = JsMap.empty).
Proof.
  split.
  - intros projectPath d Habsent. unfold deserializeUpdateManager.
    apply bind_thrown. by apply readFile_absent.
  - intros w Hactions Hwidgets.
    by rewrite (refresh_without_index_documents w Hactions Hwidgets).
Qed.

End MissingIndexes.

(** On a project without index documents neither way of loading yields
    empty mappings without raising: both raise. *)
Lemma load_without_index_documents_raises :
  (@deserializeUpdateManager Sample.env "/p" Sample.filesWithoutIndexes).1
    = Throw FsError
  ∧ (@refresh Sample.env Sample.worldWithoutIndexes).1 = Throw FsError.
Proof. split; vm_compute; reflexivity. Qed.

Lemma load_without_index_documents_witness :
  @deserializeUpdateManager Sample.env "/p" Sample.filesWithoutIndexes
  = (Throw FsError, Sample.filesWithoutIndexes).
Proof.
  destruct (@load_without_index_documents Sample.env) as [Hload _].
  apply Hload. reflexivity.
Defined.

(** ** Checksums after loading *)

Section LoadedChecksums.

Context `{Env}.

Lemma verifyChecksums_run projectPath (d : Disk) key fileInfo :
  (unverified fileInfo = true →
   is_Some (d !! fullPath projectPath key fileInfo)) →
  ∃ fileInfo',
    verifyChecksums projectPath key fileInfo d = (Ok fileInfo', d)
    ∧ verified projectPath d key fileInfo fileInfo'.
Proof.
  intros Hfile. unfold verifyChecksums, verified. fold (unverified fileInfo).
  destruct (unverified fileInfo); [|by exists fileInfo].
  destruct (Hfile eq_refl) as [fileContent Hcontent].
  eexists. split; [|eauto].
  unfold computeChecksum.
  erewrite bind_ok; [reflexivity|].
  erewrite bind_ok; [reflexivity|]. by apply readFile_present.
Qed.

(** The verification loop succeeds when every entry without checksums
    refers to a readable file; it changes no file and keeps the keys in
    their order. *)
Lemma forEntries_verifyChecksums projectPath (d : Disk) (m : JsMap.t FileInfo) :
  (∀ key fileInfo, (key, fileInfo) ∈ m → unverified fileInfo = true →
     is_Some (d !! fullPath projectPath key fileInfo)) →
  ∃ m',
    forEntries m (verifyChecksums projectPath) d = (Ok m', d)
    ∧ Forall2 (λ e e', e'.1 = e.1 ∧ verified projectPath d e.1 e.2 e'.2) m m'.
Proof.
  induction m as [|[key fileInfo] m IH]; intros Hfiles; simpl.
  - exists []. split; [done|constructor].
  - destruct (verifyChecksums_run projectPath d key fileInfo)
      as (fileInfo' & Hrun & Hverified).
    { apply Hfiles. left. }
    destruct IH as (m' & Hloop & Hall).
    { intros k f Hin. apply Hfiles. by right. }
    exists ((key, fileInfo') :: m'). split.
    + rewrite (bind_ok _ _ _ _ _ Hrun), (bind_ok _ _ _ _ _ Hloop). done.
    + by constructor.
Qed.

(** The address given to the first entry of a key. *)
Lemma addresses_get {V V'} (m : JsMap.t V) (m' : JsMap.t V') :
  ∀ base key v,
    Forall2 (λ e e', e'.1 = e.1) m m' →
    JsMap.get key m = Some v →
    ∃ i v',
      JsMap.get key (addresses base m') = Some (base + i)
      ∧ m !! i = Some (key, v) ∧ m' !! i = Some (key, v').
Proof.
  intros base key v Hkeys. revert base.
  induction Hkeys as [|e e' m m' Hk Hkeys IH]; intros base; simpl; [done|].
  destruct e as [k x], e' as [k' x'].
  simpl in Hk. subst k'.
  destruct (String.eqb k key) eqn:E.
  - apply String.eqb_eq in E as ->. intros [= ->].
    exists 0, x'. simpl. by rewrite String.eqb_refl, Nat.add_0_r.
  - intros Hget. destruct (IH (S base) Hget) as (i & v' & Ha & Hi & Hi').
    exists (S i), v'. split; [|done]. simpl. rewrite E, Ha. f_equal. lia.
Qed.

(** C7, as amended.  Loading a persisted snapshot succeeds when the index
    documents, the function document and the files of the entries to
    verify can be read, and then every entry of the snapshot is in the
    loaded map as follows: an entry that had neither checksum has both,
    set to the digest of the file it refers to; an entry that had at
    least one checksum is unchanged. *)
Theorem deserialize_backfills_entries_without_checksums
    (projectPath : string) (d : Disk) (saved : JsMap.t FileInfo)
    (actionText widgetText code fileMapText : string)
    (actions widgets : Index) :
  d !! actionsIndexPath projectPath = Some actionText →
  parseIndexFileWithDart actionText = Ok actions →
  d !! widgetsIndexPath projectPath = Some widgetText →
  parseIndexFileWithDart widgetText = Ok widgets →
  d !! customFunctionsPath projectPath = Some code →
  d !! fileMapJsonPath projectPath = Some fileMapText →
  readFileMap projectPath d = Ok saved →
  (∀ key fileInfo, (key, fileInfo) ∈ snapshotEntries saved →
     unverified fileInfo = true →
     is_Some (d !! fullPath projectPath key fileInfo)) →
  ∃ objects manager d',
    deserializeUpdateManager projectPath d = (Ok (objects, manager), d')
    ∧ ∀ key fileInfo,
        JsMap.get key (snapshotEntries saved) = Some fileInfo →
        ∃ a fileInfo',
          JsMap.get key (_fileMap manager) = Some a
          ∧ objects !! a = Some fileInfo'
          ∧ verified projectPath d key fileInfo fileInfo'.
Proof.
  intros Hactions Hparse1 Hwidgets Hparse2 Hcode Hmap Hsaved Hfiles.
  destruct (forEntries_verifyChecksums projectPath d (snapshotEntries saved) Hfiles)
    as (loaded & Hloop & Hall).
  unfold deserializeUpdateManager.
  rewrite (bind_ok _ _ _ _ _ (readFile_present _ _ _ Hactions)).
  unfold parseIndexFile. rewrite Hparse1.
  rewrite (bind_ok _ _ d d actions) by reflexivity.
  rewrite (bind_ok _ _ _ _ _ (readFile_present _ _ _ Hwidgets)).
  rewrite Hparse2.
  rewrite (bind_ok _ _ d d widgets) by reflexivity.
  rewrite (bind_ok _ _ _ _ _ (readFile_present _ _ _ Hcode)).
  unfold existsSync at 1. rewrite bind_gets.
  assert (∃ initial,
            (if bool_decide
                  (is_Some (d !! path_join [projectPath; kCustomFunctionsSnapshotPath]))
             then readFile (path_join [projectPath; kCustomFunctionsSnapshotPath])
             else ret code) d = (Ok initial, d)) as [initial Hinitial].
  { case_bool_decide as Hsnap; [|by exists code].
    destruct Hsnap as [initial Hsnap]. exists initial.
    by apply readFile_present. }
  rewrite (bind_ok _ _ _ _ _ Hinitial).
  unfold existsSync. rewrite bind_gets.
  rewrite bool_decide_eq_true_2 by (by rewrite Hmap).
  assert ((let* fileMap := λ d0, (readFileMap projectPath d0, d0) in
           if negb (JsMap.has "pubspec.yaml" fileMap)
           then ret (JsMap.set "pubspec.yaml" {|
                  old_identifier_name := JVal "pubspec.yaml";
                  new_identifier_name := JVal "pubspec.yaml";
                  type := DEPENDENCIES;
                  is_deleted := false;
                  original_checksum := JUndefined;
                  current_checksum := JUndefined |} fileMap)
           else ret fileMap) d = (Ok (snapshotEntries saved), d)) as Hentries.
  { erewrite bind_ok; [|by rewrite Hsaved].
    unfold snapshotEntries. by destruct (JsMap.has _ saved). }
  rewrite (bind_ok _ _ _ _ _ Hentries).
  rewrite (bind_ok _ _ _ _ _ Hloop).
  eexists _, _, _. split; [reflexivity|]. cbn [_fileMap].
  intros key fileInfo Hget.
  destruct (addresses_get (snapshotEntries saved) loaded 0 key fileInfo)
    as (i & fileInfo' & Haddr & Hi & Hi'); [|done|].
  { eapply Forall2_impl; [exact Hall|]. by intros ? ? [? _]. }
  exists i, fileInfo'. split; [done|]. split.
  - apply list_lookup_fmap_Some. by exists (key, fileInfo').
  - eapply Forall2_lookup_lr in Hall as [_ Hverified]; [|exact Hi|exact Hi'].
    done.
Qed.

End LoadedChecksums.

(** An entry that has a current checksum but no baseline is loaded as it
    is: after loading it still has no [original_checksum]. *)
Lemma loaded_entry_without_original_checksum :
  match (@deserializeUpdateManager Sample.savedEnv "/p" Sample.filesWithFileMap).1 with
  | Ok (objects, manager) =>
      JsMap.get "foo.dart" (_fileMap manager) = Some 0
      ∧ objects !! 0 = Some Sample.unsyncedFoo
      ∧ original_checksum Sample.unsyncedFoo = JUndefined
  | Throw _ => False
  end.
Proof. vm_compute. done. Qed.

Lemma deserialize_backfills_entries_without_checksums_witness :
  ∃ objects manager d',
    @deserializeUpdateManager Sample.bareEnv "/p" Sample.filesWithFileMap
    = (Ok (objects, manager), d')
    ∧ ∀ key fileInfo,
        JsMap.get key (snapshotEntries [("foo.dart", Sample.bareFoo)])
        = Some fileInfo →
        ∃ a fileInfo',
          JsMap.get key (_fileMap manager) = Some a
          ∧ objects !! a = Some fileInfo'
          ∧ @verified Sample.bareEnv "/p" Sample.filesWithFileMap key
              fileInfo fileInfo'.
Proof.
  apply (@deserialize_backfills_entries_without_checksums Sample.bareEnv
           "/p" Sample.filesWithFileMap [("foo.dart", Sample.bareFoo)]
           "foo.dart" "" "" "foo.dart"
           [("foo.dart", ["foo"])] []); try reflexivity.
  intros key fileInfo Hin _.
  apply elem_of_cons in Hin as [[= -> ->]|Hin]; [by eexists|].
  apply elem_of_cons in Hin as [[= -> ->]|Hin]; [by eexists|].
  by apply elem_of_nil in Hin.
Defined.

Lemma category_fixed_at_creation_witness :
  @addFile Sample.env Sample.fooPath Sample.world
  = ((if bool_decide (String.length "foo" = 0)
      then @insertBoilerplate Sample.env Sample.fooPath else ret tt);;
     @updateFile Sample.env Sample.fooPath) Sample.world
  ∧ length (heap (@addFile Sample.env Sample.fooPath Sample.world).2)
    = length (heap Sample.world)
  ∧ _fileMap (this (@addFile Sample.env Sample.fooPath Sample.world).2)
    = _fileMap (this Sample.world).
Proof.
  destruct (@category_fixed_at_creation Sample.env) as (_ & _ & _ & _ & Hadd).
  apply (Hadd Sample.world Sample.fooPath "foo" 0 Sample.fooInfo);
    reflexivity.
Defined.

(** ** Running the handlers *)

Lemma bind_ret {S A B} (a : A) (k : A → M S B) (s : S) :
  bind (ret a) k s = k a s.
Proof. reflexivity. Qed.

Lemma bind_modify {S B} (f : S → S) (k : unit → M S B) (s : S) :
  bind (modify f) k s = k tt (f s).
Proof. reflexivity. Qed.

Lemma bind_assoc {S A B C} (m : M S A) (k : A → M S B) (k' : B → M S C)
    (s : S) :
  bind (bind m k) k' s = bind m (λ x, bind (k x) k') s.
Proof. unfold bind. by destruct (m s) as [[?|?] ?]. Qed.

Lemma alter_found {A} (g : A → A) (a : nat) (x : A) (l : list A) :
  l !! a = Some x → alter g a l = <[a := g x]> l.
Proof.
  intros Hx. apply list_eq. intros i. destruct (decide (a = i)) as [->|Hne].
  - rewrite list_lookup_alter_eq, list_lookup_insert_eq, Hx; [done|].
    by eapply lookup_lt_Some.
  - by rewrite list_lookup_alter_ne, list_lookup_insert_ne.
Qed.

Lemma insert_found {A} (a : nat) (x y : A) (l : list A) :
  l !! a = Some x → <[a := y]> l !! a = Some y.
Proof. intros Hx. apply list_lookup_insert_eq. by eapply lookup_lt_Some. Qed.

Section Runs.

Context `{Env}.

Lemma bind_assign {B} (a : addr) (g : FileInfo → FileInfo) fileInfo
    (k : unit → M World B) (w : World) :
  heap w !! a = Some fileInfo →
  bind (assign a g) k w = k tt (with_heap (<[a := g fileInfo]> (heap w)) w).
Proof.
  intros Hobj. unfold assign. rewrite bind_modify.
  by rewrite (alter_found _ _ _ _ Hobj).
Qed.

Lemma bind_load {B} (a : addr) fileInfo (k : FileInfo → M World B) (w : World) :
  heap w !! a = Some fileInfo → bind (load a) k w = k fileInfo w.
Proof. intros Hobj. unfold bind, load. by rewrite Hobj. Qed.

Lemma bind_read {B} (p source : string) (k : string → M World B) (w : World) :
  disk w !! p = Some source → bind (on_disk (readFile p)) k w = k source w.
Proof.
  intros Hfile. unfold bind, on_disk, readFile.
  by rewrite Hfile, with_disk_same.
Qed.

Lemma bind_checksum {B} (p source : string) (k : string → M World B)
    (w : World) :
  disk w !! p = Some source →
  bind (on_disk (computeChecksum p)) k w = k (sha256_hex source) w.
Proof.
  intros Hfile. unfold bind, on_disk, computeChecksum, bind, readFile.
  rewrite Hfile. cbn. by rewrite with_disk_same.
Qed.

Lemma bind_save {B} (index : Index) (p : string) (k : unit → M World B)
    (w : World) :
  bind (on_disk (saveIndexFile index p)) k w
  = if writable (disk w) p
    then k tt (with_disk (<[p := indexDocument index]> (disk w)) w)
    else (Throw FsError, w).
Proof.
  rewrite saveIndexFile_writes. unfold bind, on_disk. rewrite writeFile_run.
  destruct (writable _ _); [done|]. by rewrite with_disk_same.
Qed.

(** The closing steps shared by the handlers. *)
Lemma report_run (root baseName : string) (a : addr) fields (w : World) :
  heap w !! a = Some fields →
  root = _rootPath (this w) →
  (persist;;
   let* fields := load a in
   emit (fullPath root baseName fields) a;;
   ret (JVal a)) w
  = (Ok (JVal a), notified baseName a fields w).
Proof.
  intros Hobj ->. unfold persist. rewrite bind_modify.
  rewrite (bind_load a fields) by done. reflexivity.
Qed.

End Runs.

(** ** Deleting a tracked file *)

Lemma with_fileMap_same (m : UpdateManager) : with_fileMap (_fileMap m) m = m.
Proof. by destruct m. Qed.

Section Deleting.

Context `{Env}.

Lemma deleteFile_run (filePath : string) (a : addr) (fileInfo : FileInfo)
    (w : World) :
  paused (this w) = false →
  pathToCodeType filePath ≠ FUNCTION →
  lookupFile (path_basename filePath) w = Some (a, fileInfo) →
  deleteFile filePath w = deleted filePath a fileInfo w.
Proof.
  intros Hpaused Hcode Hfound.
  destruct (lookupFile_object _ _ _ _ Hfound) as [Hkey Hobj].
  unfold deleteFile. rewrite bind_gets, Hpaused.
  rewrite decide_False by done. rewrite bind_gets, Hfound.
  rewrite (bind_assign a _ fileInfo) by done.
  unfold update_this at 1. rewrite bind_modify, bind_gets.
  cbn [this with_this with_heap with_fileMap _fileMap _rootPath].
  rewrite (JsMap_set_same _ _ _ Hkey).
  rewrite with_fileMap_same.
  unfold deleted, saved_and_notified, unlinked.
  destruct (pathToCodeType filePath) eqn:Hct; try done;
    cbn [indexWritable indexSaved unlisted].
  - rewrite bind_assoc. unfold update_this at 1.
    rewrite bind_modify, bind_assoc, bind_gets, bind_save.
    cbn [this disk with_this with_heap _rootPath with_actionIndex actionIndex].
    destruct (writable _ _); [|done].
    apply (report_run _ _ a (with_is_deleted true fileInfo)); [|done].
    cbn. by eapply insert_found.
  - rewrite bind_assoc. unfold update_this at 1.
    rewrite bind_modify, bind_assoc, bind_gets, bind_save.
    cbn [this disk with_this with_heap _rootPath with_widgetIndex widgetIndex].
    destruct (writable _ _); [|done].
    apply (report_run _ _ a (with_is_deleted true fileInfo)); [|done].
    cbn. by eapply insert_found.
  - rewrite bind_ret.
    rewrite (report_run _ _ a (with_is_deleted true fileInfo));
      [|by eapply insert_found|done].
    by rewrite with_disk_same.
  - rewrite bind_ret.
    rewrite (report_run _ _ a (with_is_deleted true fileInfo));
      [|by eapply insert_found|done].
    by rewrite with_disk_same.
Qed.

(** On every path the record is marked and the index entry dropped. *)
Lemma deleteFile_memory (filePath : string) (a : addr) (fileInfo : FileInfo)
    (w : World) :
  paused (this w) = false →
  pathToCodeType filePath ≠ FUNCTION →
  lookupFile (path_basename filePath) w = Some (a, fileInfo) →
  let w' := (deleteFile filePath w).2 in
  heap w' = <[a := with_is_deleted true fileInfo]> (heap w)
  ∧ this w'
    = unlisted (pathToCodeType filePath) (path_basename filePath) (this w).
Proof.
  intros Hpaused Hcode Hfound w'. subst w'.
  rewrite (deleteFile_run _ a fileInfo) by done.
  unfold deleted, saved_and_notified. by destruct (indexWritable _ _ _).
Qed.

End Deleting.

(** ** Updating a tracked file whose content changed *)

Section Updating.

Context `{Env}.

(** The closing steps of [updateFile] for a file that is not the function
    document. *)
Lemma updateFile_close (codeType : CodeType) (baseName root : string)
    (a : addr) fields (w : World) :
  codeType ≠ FUNCTION →
  JsMap.get baseName (_fileMap (this w)) = Some a →
  heap w !! a = Some fields →
  root = _rootPath (this w) →
  ((if bool_decide (codeType = FUNCTION) then
      let* code := on_disk (readFile (customFunctionsPath root)) in
      update_this (with_functionsCode code)
    else ret tt);;
   update_this (λ m, with_fileMap (JsMap.set baseName a (_fileMap m)) m);;
   persist;;
   let* fields := load a in
   emit (fullPath root baseName fields) a;;
   ret (JVal a)) w
  = (Ok (JVal a), notified baseName a fields w).
Proof.
  intros Hcode Hkey Hobj ->.
  rewrite bool_decide_eq_false_2 by done. rewrite bind_ret.
  unfold update_this. rewrite bind_modify.
  rewrite (JsMap_set_same _ _ _ Hkey), with_fileMap_same.
  rewrite (report_run (_rootPath (this w)) _ a fields); [|done..].
  by destruct w.
Qed.

Lemma updateFile_run (filePath source : string) (a : addr)
    (fileInfo : FileInfo) (w : World) :
  paused (this w) = false →
  pathToCodeType filePath ≠ FUNCTION →
  lookupFile (path_basename filePath) w = Some (a, fileInfo) →
  disk w !! filePath = Some source →
  original_checksum fileInfo ≠ JVal (sha256_hex source) →
  updateFile filePath w = updated filePath source a fileInfo w.
Proof.
  intros Hpaused Hcode Hfound Hfile Hchanged.
  destruct (lookupFile_object _ _ _ _ Hfound) as [Hkey Hobj].
  unfold updateFile. rewrite bind_gets, Hpaused, bind_gets, Hfound.
  rewrite (bind_checksum _ source) by done.
  rewrite (bind_assign a _ fileInfo) by done.
  rewrite (bind_load a (with_current_checksum (JVal (sha256_hex source)) fileInfo))
    by (by eapply insert_found).
  unfold strict_eq at 1. rewrite bool_decide_eq_false_2 by (cbn; congruence).
  rewrite (bind_assign a _
             (with_current_checksum (JVal (sha256_hex source)) fileInfo))
    by (by eapply insert_found).
  cbn [heap with_heap]. rewrite list_insert_insert_eq.
  rewrite bind_gets. cbn [this with_heap].
  set (touched := with_is_deleted false
                    (with_current_checksum (JVal (sha256_hex source)) fileInfo)).
  unfold updated, inferredName. fold touched.
  destruct (bool_decide (pathToCodeType filePath = ACTION)
            || bool_decide (pathToCodeType filePath = WIDGET)) eqn:Hindexed.
  - rewrite bind_assoc, (bind_read _ source) by done.
    rewrite bind_assoc, bind_gets. cbn [this with_heap].
    set (indexExports :=
           default [] (JsMap.get (path_basename filePath)
                         (indexOf (pathToCodeType filePath) (this w)))).
    destruct (bool_decide (length indexExports = 0)) eqn:Hlength.
    { rewrite bind_ret. apply updateFile_close; [done..| |done].
      cbn. by eapply insert_found. }
    rewrite bind_assoc, (bind_load a touched) by (cbn; by eapply insert_found).
    replace (old_identifier_name touched) with (old_identifier_name fileInfo)
      by done.
    destruct (getNewName _ _ _) as [| |newName].
    { rewrite bind_ret. apply updateFile_close; [done..| |done].
      cbn. by eapply insert_found. }
    { rewrite bind_ret. apply updateFile_close; [done..| |done].
      cbn. by eapply insert_found. }
    destruct (String.eqb newName "").
    { rewrite bind_ret. apply updateFile_close; [done..| |done].
      cbn. by eapply insert_found. }
    rewrite bind_assoc, (bind_assign a _ touched)
      by (cbn; by eapply insert_found).
    cbn [heap with_heap]. rewrite list_insert_insert_eq.
    destruct (first indexExports === JVal newName); cbn [negb].
    { rewrite bind_ret. apply updateFile_close; [done..| |done].
      cbn. by eapply insert_found. }
    rewrite bind_assoc. unfold update_this at 1.
    rewrite bind_modify, bind_assoc, bind_gets, bind_save.
    unfold saved_and_notified. clear indexExports Hlength.
    destruct (pathToCodeType filePath) eqn:Hct; try done;
      cbn [indexWritable indexSaved listed this disk with_this with_heap
           _rootPath with_actionIndex with_widgetIndex];
      (destruct (writable _ _); [|done]);
      apply updateFile_close; [done|exact Hkey| |done|done|exact Hkey| |done];
      cbn; by eapply insert_found.
  - rewrite bind_ret. apply updateFile_close; [done..| |done].
    cbn. by eapply insert_found.
Qed.

(** On every path of such an update the record holds the digest of
    [source], and neither its baseline, its category nor the map has
    changed. *)
Lemma updateFile_memory (filePath source : string) (a : addr)
    (fileInfo : FileInfo) (w : World) :
  paused (this w) = false →
  pathToCodeType filePath ≠ FUNCTION →
  lookupFile (path_basename filePath) w = Some (a, fileInfo) →
  disk w !! filePath = Some source →
  original_checksum fileInfo ≠ JVal (sha256_hex source) →
  let w' := (updateFile filePath w).2 in
  ∃ fields,
    heap w' = <[a := fields]> (heap w)
    ∧ _fileMap (this w') = _fileMap (this w)
    ∧ current_checksum fields = JVal (sha256_hex source)
    ∧ original_checksum fields = original_checksum fileInfo
    ∧ type fields = type fileInfo.
Proof.
  intros Hpaused Hcode Hfound Hfile Hchanged w'. subst w'.
  rewrite (updateFile_run _ source a fileInfo) by done.
  unfold updated.
  destruct (inferredName filePath source (this w) fileInfo) as [| |newName];
    [by eexists..|].
  destruct (first _ === JVal newName); [by eexists|].
  unfold saved_and_notified. destruct (indexWritable _ _ _).
  - eexists. cbn. split; [done|]. split; [|done].
    by destruct (pathToCodeType filePath).
  - eexists. cbn. split; [done|]. split; [|done].
    by destruct (pathToCodeType filePath).
Qed.

End Updating.

(** ** Adding an untracked file *)

Section Adding.

Context `{Env}.

(** The boilerplate step succeeds when [pubspec.yaml] can be read, and
    it changes nothing but the disk. *)
Lemma prepared_run (filePath source : string) (w : World) :
  boilerplate_readable filePath source w →
  (if bool_decide (String.length source = 0)
   then insertBoilerplate filePath else ret tt) w
  = (Ok tt, prepared filePath source w)
  ∧ prepared filePath source w
    = with_disk (disk (prepared filePath source w)) w.
Proof.
  intros Hpubspec. unfold prepared.
  case_bool_decide as Hempty; [|by rewrite with_disk_same].
  specialize (Hpubspec Hempty).
  unfold insertBoilerplate, customFunctionsExist, themeImportPath.
  destruct (decide (pathToCodeType filePath = ACTION)) as [Haction|Haction].
  { destruct Hpubspec as [pubspecText Htext]; [by left|].
    repeat first
      [ rewrite bind_ret | rewrite bind_assoc | rewrite bind_gets
      | rewrite (bind_read _ pubspecText) by done ].
    done. }
  destruct (decide (pathToCodeType filePath = WIDGET)) as [Hwidget|Hwidget].
  { destruct Hpubspec as [pubspecText Htext]; [by right|].
    repeat first
      [ rewrite bind_ret | rewrite bind_assoc | rewrite bind_gets
      | rewrite (bind_read _ pubspecText) by done ].
    done. }
  by rewrite with_disk_same.
Qed.

Lemma addFile_run (filePath source : string) (w : World) :
  paused (this w) = false →
  disk w !! filePath = Some source →
  boilerplate_readable filePath source w →
  (∀ a fileInfo,
     lookupFile (path_basename filePath) w = Some (a, fileInfo) →
     type fileInfo ≠ pathToCodeType filePath) →
  addFile filePath w = added filePath (prepared filePath source w).
Proof.
  intros Hpaused Hfile Hpubspec Hnew.
  destruct (prepared_run filePath source w Hpubspec) as [Hstep Hworld].
  unfold addFile. fold (impliedName filePath).
  rewrite bind_gets, Hpaused, (bind_read _ source) by done.
  rewrite (bind_ok _ _ _ _ _ Hstep), bind_gets.
  set (w1 := prepared filePath source w) in *.
  assert (heap w1 = heap w) as Hheap by (by rewrite Hworld).
  assert (lookupFile (path_basename filePath) w1
          = lookupFile (path_basename filePath) w) as ->
    by (by rewrite Hworld).
  assert (match lookupFile (path_basename filePath) w with
          | Some (_, fields) =>
              bool_decide (type fields = pathToCodeType filePath)
          | None => false
          end = false) as ->.
  { destruct (lookupFile _ w) as [[a fileInfo]|] eqn:Hfound; [|done].
    apply bool_decide_eq_false_2. by eapply Hnew. }
  rewrite (bind_ok _ _ w1 (with_heap (heap w1 ++ [created filePath]) w1)
             (length (heap w1))) by reflexivity.
  rewrite bind_gets. unfold added, saved_and_notified, enrolled.
  assert ((heap w1 ++ [created filePath]) !! length (heap w1)
          = Some (created filePath)) as Hobj.
  { by rewrite lookup_app_r, Nat.sub_diag by lia. }
  unfold keyOf.
  destruct (decide (pathToCodeType filePath = OTHER)) as [Hother|Hother];
    unfold update_this at 1; rewrite bind_modify.
  - rewrite Hother, bind_ret. cbn [indexWritable indexSaved listed].
    rewrite (report_run _ _ _ (created filePath)); [|exact Hobj|done].
    by rewrite with_disk_same.
  - destruct (pathToCodeType filePath) eqn:Hct; try done;
      cbn [indexWritable indexSaved listed].
    + rewrite bind_assoc. unfold update_this at 1.
      rewrite bind_modify, bind_assoc, bind_gets, bind_save.
      cbn [this disk with_this with_heap _rootPath with_actionIndex
           with_fileMap actionIndex].
      destruct (writable _ _); [|done].
      apply (report_run _ _ _ (created filePath)); [exact Hobj|done].
    + rewrite bind_assoc. unfold update_this at 1.
      rewrite bind_modify, bind_assoc, bind_gets, bind_save.
      cbn [this disk with_this with_heap _rootPath with_widgetIndex
           with_fileMap widgetIndex].
      destruct (writable _ _); [|done].
      apply (report_run _ _ _ (created filePath)); [exact Hobj|done].
    + rewrite bind_ret.
      rewrite (report_run _ _ _ (created filePath)); [|exact Hobj|done].
      by rewrite with_disk_same.
    + rewrite bind_ret.
      rewrite (report_run _ _ _ (created filePath)); [|exact Hobj|done].
      by rewrite with_disk_same.
Qed.

End Adding.

(** ** What the handlers leave alone *)

Section Frames.

Context `{Env}.

Lemma view_kept_refl {X} (view : FileInfo → X) h : view_kept view h h.
Proof. intros a f Hf. by exists f. Qed.

Lemma view_kept_trans {X} (view : FileInfo → X) h1 h2 h3 :
  view_kept view h1 h2 → view_kept view h2 h3 → view_kept view h1 h3.
Proof.
  intros H12 H23 a f Hf.
  destruct (H12 a f Hf) as (f2 & Hf2 & E2).
  destruct (H23 a f2 Hf2) as (f3 & Hf3 & E3).
  exists f3. split; [done|congruence].
Qed.

#[local] Instance view_kept_frame {X} (view : FileInfo → X) :
  Frame (λ g, ∀ f, view (g f) = view f) (λ _, True)
    (λ w w', view_kept view (heap w) (heap w')).
Proof.
  split; simpl; intros; try apply view_kept_refl.
  - by eapply view_kept_trans.
  - intros a' f Hf. destruct (decide (a = a')) as [->|Hne].
    + exists (g f). by rewrite list_lookup_alter_eq, Hf.
    + exists f. by rewrite list_lookup_alter_ne.
  - intros a f Hf. exists f. split; [|done]. by apply lookup_app_l_Some.
Qed.

#[local] Instance manager_kept_frame {X} (field : UpdateManager → X) :
  Frame (λ _, True) (λ f, ∀ m, field (f m) = field m)
    (λ w w', field (this w') = field (this w)).
Proof. split; simpl; intros; congruence. Qed.

Section Framed.

Context (G : (FileInfo → FileInfo) → Prop)
  (T : (UpdateManager → UpdateManager) → Prop)
  (R : World → World → Prop) `{!Frame G T R}.

Lemma framed_ret {A} (a : A) : steady R (ret a).
Proof. intros w. apply (frame_refl (G:=G) (T:=T)). Qed.

Lemma framed_throw {A} (e : Error) : steady R (throw (A:=A) e).
Proof. intros w. apply (frame_refl (G:=G) (T:=T)). Qed.

Lemma framed_gets {A} (f : World → A) : steady R (gets f).
Proof. intros w. apply (frame_refl (G:=G) (T:=T)). Qed.

Lemma framed_bind {A B} (m : M World A) (k : A → M World B) :
  steady R m → (∀ a, steady R (k a)) → steady R (bind m k).
Proof.
  intros Hm Hk w. unfold bind. specialize (Hm w).
  destruct (m w) as [[a|e] w1]; simpl in *; [|done].
  eapply (frame_trans (G:=G) (T:=T)); [done|apply Hk].
Qed.

Lemma framed_on_disk {A} (m : M Disk A) : steady R (on_disk m).
Proof.
  intros w. unfold on_disk. destruct (m (disk w)).
  apply (frame_disk (G:=G) (T:=T)).
Qed.

Lemma framed_modify_disk (f : World → Disk) :
  steady R (modify (λ w, with_disk (f w) w)).
Proof. intros w. apply (frame_disk (G:=G) (T:=T)). Qed.

Lemma framed_persist : steady R persist.
Proof. intros w. apply (frame_disk (G:=G) (T:=T)). Qed.

Lemma framed_emit (fullFilePath : string) (a : addr) :
  steady R (emit fullFilePath a).
Proof. intros w. apply (frame_emitted (G:=G) (T:=T)). Qed.

Lemma framed_load (a : addr) : steady R (load a).
Proof.
  intros w. unfold load.
  destruct (heap w !! a); apply (frame_refl (G:=G) (T:=T)).
Qed.

Lemma framed_new_object fileInfo : steady R (new_object fileInfo).
Proof. intros w. apply (frame_new (G:=G) (T:=T)). Qed.

Lemma framed_assign (a : addr) (g : FileInfo → FileInfo) :
  G g → steady R (assign a g).
Proof. intros Hg w. by apply (frame_assign (T:=T)). Qed.

Lemma framed_update_this (f : UpdateManager → UpdateManager) :
  T f → steady R (update_this f).
Proof. intros Hf w. by apply (frame_this (G:=G)). Qed.

End Framed.

Ltac framed_step :=
  match goal with
  | |- steady _ (bind _ _) => eapply framed_bind; [apply _| |intros ?]
  | |- steady _ (ret _) => eapply framed_ret; apply _
  | |- steady _ (throw _) => eapply framed_throw; apply _
  | |- steady _ (gets _) => eapply framed_gets; apply _
  | |- steady _ (on_disk _) => eapply framed_on_disk; apply _
  | |- steady _ persist => eapply framed_persist; apply _
  | |- steady _ (emit _ _) => eapply framed_emit; apply _
  | |- steady _ (load _) => eapply framed_load; apply _
  | |- steady _ (new_object _) => eapply framed_new_object; apply _
  | |- steady _ (assign _ _) =>
      eapply framed_assign; [apply _|first [exact I|intros []; reflexivity]]
  | |- steady _ (update_this _) =>
      eapply framed_update_this;
        [apply _
        |first [exact I
               |intros []; unfold with_indexOf; repeat case_decide;
                reflexivity]]
  | |- steady _ (modify _) => eapply framed_modify_disk; apply _
  | |- steady _ (if ?b then _ else _) => destruct b
  | |- steady _ (match ?x with _ => _ end) => destruct x
  end.

Ltac handler_framed :=
  match goal with
  | |- steady _ (handle ?event) =>
      destruct event; simpl;
      unfold addFile, updateFile, deleteFile, renameFile, insertBoilerplate,
        customFunctionsExist, themeImportPath;
      repeat framed_step
  end.

(** No handler assigns a baseline field of a record. *)
Lemma handle_keeps_baselines event :
  steady (λ w w', view_kept baseline (heap w) (heap w')) (handle event).
Proof. handler_framed. Qed.

(** No handler assigns the function baseline, the root or the pause
    flag. *)
Lemma handle_keeps_function_baseline event :
  steady (λ w w', _initialFunctionsCode (this w') = _initialFunctionsCode (this w))
    (handle event).
Proof. handler_framed. Qed.

(** X7. File events never advance a baseline.  Whatever add, update,
    delete and rename events are handled, every record that existed
    before still exists and has the [original_checksum] and the
    [old_identifier_name] it had, and the function baseline
    [_initialFunctionsCode] is the text it was. *)
Theorem events_keep_baselines (events : list FileEvent) (w : World) :
  (∀ a fileInfo,
     heap w !! a = Some fileInfo →
     ∃ fileInfo',
       heap (run_events events w) !! a = Some fileInfo'
       ∧ original_checksum fileInfo' = original_checksum fileInfo
       ∧ old_identifier_name fileInfo' = old_identifier_name fileInfo)
  ∧ _initialFunctionsCode (this (run_events events w))
    = _initialFunctionsCode (this w).
Proof.
  unfold run_events. revert w.
  induction events as [|event events IH]; intros w; simpl.
  - split; [|done]. intros a fileInfo Hobj. by exists fileInfo.
  - destruct (IH (handle event w).2) as [Hrecords Hfunctions]. split.
    + intros a fileInfo Hobj.
      destruct (handle_keeps_baselines event w a fileInfo Hobj)
        as (f1 & Hf1 & E1).
      destruct (Hrecords a f1 Hf1) as (f2 & Hf2 & Eo & En).
      exists f2. split; [done|]. unfold baseline in E1.
      injection E1 as Eo1 En1. split; congruence.
    + rewrite Hfunctions. apply handle_keeps_function_baseline.
Qed.

End Frames.

(** ** Soft deletion *)

Lemma JsMap_get_filter_out {V} (P : string * V → bool) (k : string) (v : V)
    (m : JsMap.t V) :
  NoDup (JsMap.keys m) → JsMap.get k m = Some v → P (k, v) = false →
  JsMap.get k (List.filter P m) = None.
Proof.
  unfold JsMap.keys. induction m as [|[k0 v0] m IH]; simpl; [done|].
  rewrite NoDup_cons. intros [Hk0 Hnd] Hget HP.
  destruct (String.eqb k0 k) eqn:E.
  - apply String.eqb_eq in E as ->. injection Hget as ->. rewrite HP.
    destruct (JsMap.get k (List.filter P m)) as [v'|] eqn:Hin; [|done].
    exfalso. apply Hk0. apply JsMap_get_elem in Hin.
    apply list_elem_of_In, filter_In in Hin as [Hin%list_elem_of_In _].
    apply list_elem_of_fmap. by exists (k, v').
  - destruct (P (k0, v0)); simpl; [rewrite E|]; by apply IH.
Qed.

Section SoftDeletion.

Context `{Env}.

Lemma updateFile_same_run (filePath source : string) (a : addr)
    (fileInfo : FileInfo) (w : World) :
  paused (this w) = false →
  lookupFile (path_basename filePath) w = Some (a, fileInfo) →
  disk w !! filePath = Some source →
  original_checksum fileInfo = JVal (sha256_hex source) →
  updateFile filePath w
  = (Ok (JVal a),
     with_heap
       (<[a := with_current_checksum (JVal (sha256_hex source)) fileInfo]>
          (heap w)) w).
Proof.
  intros Hpaused Hfound Hfile Hsame.
  destruct (lookupFile_object _ _ _ _ Hfound) as [Hkey Hobj].
  unfold updateFile. rewrite bind_gets, Hpaused, bind_gets, Hfound.
  rewrite (bind_checksum _ source) by done.
  rewrite (bind_assign a _ fileInfo) by done.
  rewrite (bind_load a (with_current_checksum (JVal (sha256_hex source)) fileInfo))
    by (by eapply insert_found).
  unfold strict_eq. by rewrite bool_decide_eq_true_2 by (cbn; congruence).
Qed.

(** X1. Deleting a tracked file that is not the function document is a
    soft delete.  The record stays in the map under its key, marked
    [is_deleted] and otherwise as it was; no other record changes; the
    entry of the base name leaves the index of the path's category.
    These changes in memory are made before the index document is
    rewritten, so they hold on every path.  When the document can be
    written (always, for a category without index), it is, the snapshot
    is persisted, one notification is emitted and [deleteFile] returns
    the record.  When its directory is missing, [deleteFile] raises the
    write error: no file is written and nothing is emitted. *)
Theorem deleteFile_soft_deletes (w : World) (filePath : string) (a : addr)
    (fileInfo : FileInfo) :
  paused (this w) = false →
  pathToCodeType filePath ≠ FUNCTION →
  lookupFile (path_basename filePath) w = Some (a, fileInfo) →
  let baseName := path_basename filePath in
  let codeType := pathToCodeType filePath in
  let marked := with_is_deleted true fileInfo in
  let w' := (deleteFile filePath w).2 in
  lookupFile baseName w' = Some (a, marked)
  ∧ heap w' = <[a := marked]> (heap w)
  ∧ this w' = unlisted codeType baseName (this w)
  ∧ _fileMap (this w') = _fileMap (this w)
  ∧ (codeType = ACTION → JsMap.get baseName (actionIndex (this w')) = None)
  ∧ (codeType = WIDGET → JsMap.get baseName (widgetIndex (this w')) = None)
  ∧ if indexWritable codeType (this w) (disk w)
    then
      (deleteFile filePath w).1 = Ok (JVal a)
      ∧ disk w'
        = writeFileMap (_rootPath (this w)) (snapshot w')
            (indexSaved codeType (this w') (disk w))
      ∧ emitted w'
        = emitted w ++ [(fullPath (_rootPath (this w)) baseName marked, a)]
    else
      (deleteFile filePath w).1 = Throw FsError
      ∧ disk w' = disk w
      ∧ emitted w' = emitted w.
Proof.
  intros Hpaused Hcode Hfound baseName codeType marked w'.
  subst baseName codeType marked w'.
  rewrite (deleteFile_run _ a fileInfo) by done.
  destruct (lookupFile_object _ _ _ _ Hfound) as [Hkey Hobj].
  unfold deleted, saved_and_notified, unlinked.
  set (baseName := path_basename filePath) in *.
  set (codeType := pathToCodeType filePath) in *.
  assert (_fileMap (unlisted codeType baseName (this w)) = _fileMap (this w))
    as Hmap by by destruct codeType.
  assert (_rootPath (unlisted codeType baseName (this w)) = _rootPath (this w))
    as Hroot by by destruct codeType.
  assert (codeType = ACTION →
          JsMap.get baseName (actionIndex (unlisted codeType baseName (this w)))
          = None) as Hactions.
  { intros ->. cbn. by rewrite JsMap_get_delete, String.eqb_refl. }
  assert (codeType = WIDGET →
          JsMap.get baseName (widgetIndex (unlisted codeType baseName (this w)))
          = None) as Hwidgets.
  { intros ->. cbn. by rewrite JsMap_get_delete, String.eqb_refl. }
  cbn [this disk with_this with_heap].
  assert (indexWritable codeType (unlisted codeType baseName (this w)) (disk w)
          = indexWritable codeType (this w) (disk w)) as ->
    by by destruct codeType.
  destruct (indexWritable codeType (this w) (disk w)); cbn; rewrite ?Hroot.
  - split.
    { unfold lookupFile. cbn. rewrite Hmap, Hkey.
      by rewrite (insert_found _ _ _ _ Hobj). }
    done.
  - split.
    { unfold lookupFile. cbn. rewrite Hmap, Hkey.
      by rewrite (insert_found _ _ _ _ Hobj). }
    done.
Qed.

(** X2. A record deleted before a commit is forgotten by the commit:
    in the world [deleteFile] and then [setToSynced] leave, the base
    name has no entry in the map (the keys of the map being distinct).
    This holds on every path, since both mark and commit are made in
    memory before anything is written.  Run in sequence, the two calls
    return when the index document and then the function snapshot can
    be written.  When the snapshot cannot, the sequence raises the
    write error after the commit in memory; when the index document
    cannot, the deletion raises it, the commit is not reached and the
    marked record is still in the map. *)
Theorem delete_then_commit_forgets (w : World) (filePath : string)
    (a : addr) (fileInfo : FileInfo) :
  paused (this w) = false →
  pathToCodeType filePath ≠ FUNCTION →
  lookupFile (path_basename filePath) w = Some (a, fileInfo) →
  NoDup (JsMap.keys (_fileMap (this w))) →
  let baseName := path_basename filePath in
  let codeType := pathToCodeType filePath in
  let w1 := (deleteFile filePath w).2 in
  let w' := (setToSynced w1).2 in
  let persisted :=
    writeFileMap (_rootPath (this w)) (snapshot w') (disk w1) in
  JsMap.get baseName (_fileMap (this w')) = None
  ∧ (indexWritable codeType (this w) (disk w) = true →
     (deleteFile filePath;; setToSynced) w
     = (if writable persisted (snapshotPath (_rootPath (this w)))
        then Ok tt else Throw FsError, w'))
  ∧ (indexWritable codeType (this w) (disk w) = false →
     (deleteFile filePath;; setToSynced) w = (Throw FsError, w1)
     ∧ lookupFile baseName w1 = Some (a, with_is_deleted true fileInfo)).
Proof.
  intros Hpaused Hcode Hfound Hnd baseName codeType w1 w' persisted.
  destruct (lookupFile_object _ _ _ _ Hfound) as [Hkey Hobj].
  destruct (deleteFile_memory _ a fileInfo w Hpaused Hcode Hfound)
    as [Hheap Hthis].
  fold w1 baseName codeType in Hheap, Hthis. fold baseName in Hkey.
  assert (_fileMap (this w1) = _fileMap (this w)) as Hmap.
  { rewrite Hthis. by destruct codeType. }
  assert (_rootPath (this w1) = _rootPath (this w)) as Hroot.
  { rewrite Hthis. by destruct codeType. }
  assert (heap w1 !! a = Some (with_is_deleted true fileInfo)) as Hmarked.
  { rewrite Hheap. by eapply insert_found. }
  assert (deleteFile filePath w
          = (if indexWritable codeType (this w) (disk w)
             then Ok (JVal a) else Throw FsError, w1)) as Hdelete.
  { subst w1. rewrite (deleteFile_run _ a fileInfo) by done.
    unfold deleted, saved_and_notified.
    cbn [this disk with_this with_heap unlinked].
    fold baseName codeType.
    assert (indexWritable codeType (unlisted codeType baseName (this w)) (disk w)
            = indexWritable codeType (this w) (disk w)) as ->
      by by destruct codeType.
    by destruct (indexWritable _ _ _). }
  subst persisted w'. clearbody w1.
  destruct (setToSynced_run w1) as (h & Hrun & Hh).
  assert (JsMap.get baseName
            (JsMap.of_entries
               (List.filter (notDeleted (with_heap h w1)) (_fileMap (this w1))))
          = None) as Hforgotten.
  { rewrite Hmap.
    rewrite JsMap_of_entries_NoDup by by apply JsMap_keys_filter_NoDup.
    apply (JsMap_get_filter_out _ _ a); [done..|].
    unfold notDeleted. cbn. rewrite Hh, decide_True.
    2:{ rewrite Hmap. apply list_elem_of_fmap. exists (baseName, a).
        split; [done|]. by apply JsMap_get_elem. }
    by rewrite Hmarked. }
  split; [|split].
  - rewrite Hrun. by destruct (writable _ _).
  - intros Hindex. rewrite Hindex in Hdelete.
    rewrite (bind_ok _ _ _ _ _ Hdelete), <- Hroot.
    assert (∀ r : Outcome unit * World,
              r = (if writable (disk (committed h w1))
                        (snapshotPath (_rootPath (this w1)))
                   then (Ok tt, synced h w1)
                   else (Throw FsError, committed h w1)) →
              writeFileMap (_rootPath (this w1)) (snapshot r.2) (disk w1)
              = disk (committed h w1)) as Hdisk.
    { intros r ->. by destruct (writable _ _). }
    rewrite (Hdisk _ Hrun), Hrun. by destruct (writable _ _).
  - intros Hindex. rewrite Hindex in Hdelete.
    rewrite (bind_thrown _ _ _ _ _ Hdelete). split; [done|].
    unfold lookupFile. by rewrite Hmap, Hkey, Hmarked.
Qed.

(** X3. Recreating a deleted file.  After [deleteFile], when the file
    is written again with [source] and [updateFile] runs, the record is
    found again under its key with the digest of [source] as current
    checksum.  The deletion mark is cleared exactly when that digest
    differs from the baseline: a file recreated with its synchronised
    content stays marked as deleted.  In both cases the export entry
    that the deletion removed from the index is not put back. *)
Theorem update_after_delete (w : World) (filePath source : string)
    (a : addr) (fileInfo : FileInfo) :
  paused (this w) = false →
  pathToCodeType filePath ≠ FUNCTION →
  lookupFile (path_basename filePath) w = Some (a, fileInfo) →
  let baseName := path_basename filePath in
  let codeType := pathToCodeType filePath in
  let w1 := (deleteFile filePath w).2 in
  let w2 := with_disk (<[filePath := source]> (disk w1)) w1 in
  let w3 := (updateFile filePath w2).2 in
  (updateFile filePath w2).1 = Ok (JVal a)
  ∧ (∃ fields,
       lookupFile baseName w3 = Some (a, fields)
       ∧ current_checksum fields = JVal (sha256_hex source)
       ∧ is_deleted fields
         = bool_decide (original_checksum fileInfo = JVal (sha256_hex source)))
  ∧ (codeType = ACTION → JsMap.get baseName (actionIndex (this w3)) = None)
  ∧ (codeType = WIDGET → JsMap.get baseName (widgetIndex (this w3)) = None).
Proof.
  intros Hpaused Hcode Hfound baseName codeType w1 w2 w3.
  destruct (deleteFile_memory _ a fileInfo w Hpaused Hcode Hfound)
    as [Hheap1 Hthis1].
  fold w1 baseName codeType in Hheap1, Hthis1.
  subst w3. clearbody w1.
  destruct (lookupFile_object _ _ _ _ Hfound) as [Hkey Hobj].
  set (marked := with_is_deleted true fileInfo) in *.
  assert (this w2 = unlisted codeType baseName (this w)) as Hthis
    by by rewrite <- Hthis1.
  assert (heap w2 = <[a := marked]> (heap w)) as Hheap
    by by rewrite <- Hheap1.
  assert (_fileMap (this w2) = _fileMap (this w)) as Hmap.
  { rewrite Hthis. by destruct codeType. }
  assert (paused (this w2) = false) as Hpaused2.
  { rewrite Hthis. by destruct codeType. }
  assert (lookupFile baseName w2 = Some (a, marked)) as Hfound2.
  { unfold lookupFile. rewrite Hmap, Hheap. fold baseName in Hkey.
    by rewrite Hkey, (insert_found _ _ _ _ Hobj). }
  assert (disk w2 !! filePath = Some source) as Hfile by apply lookup_insert_eq.
  assert (JsMap.get baseName
            (indexOf codeType (unlisted codeType baseName (this w))) = None
          ∨ (codeType ≠ ACTION ∧ codeType ≠ WIDGET)) as Hindex.
  { destruct codeType; [left|left|right..]; try done.
    - unfold indexOf. rewrite decide_True by done.
      cbn [unlisted actionIndex with_actionIndex].
      by rewrite JsMap_get_delete, String.eqb_refl.
    - unfold indexOf. rewrite decide_False by done.
      cbn [unlisted widgetIndex with_widgetIndex].
      by rewrite JsMap_get_delete, String.eqb_refl. }
  assert (codeType = ACTION →
          JsMap.get baseName (actionIndex (unlisted codeType baseName (this w)))
          = None) as Hactions.
  { intros ->. cbn. by rewrite JsMap_get_delete, String.eqb_refl. }
  assert (codeType = WIDGET →
          JsMap.get baseName (widgetIndex (unlisted codeType baseName (this w)))
          = None) as Hwidgets.
  { intros ->. cbn. by rewrite JsMap_get_delete, String.eqb_refl. }
  clearbody w2.
  destruct (decide (original_checksum fileInfo = JVal (sha256_hex source)))
    as [Hsame|Hchanged].
  - rewrite (updateFile_same_run _ source a marked) by done.
    rewrite bool_decide_eq_true_2 by done. cbn [fst snd].
    split; [done|]. split; [|by rewrite <- Hthis in Hactions, Hwidgets].
    exists (with_current_checksum (JVal (sha256_hex source)) marked).
    split; [|done].
    unfold lookupFile. cbn. rewrite Hmap. fold baseName in Hkey.
    rewrite Hkey, Hheap, list_insert_insert_eq.
    by rewrite (insert_found _ _ _ _ Hobj).
  - rewrite (updateFile_run _ source a marked) by done.
    rewrite bool_decide_eq_false_2 by done.
    assert (inferredName filePath source (this w2) marked = JNull) as Hnone.
    { unfold inferredName. fold codeType baseName. rewrite Hthis.
      destruct Hindex as [->|[Ha Hw]]; [by case_match|].
      by rewrite !bool_decide_eq_false_2 by done. }
    unfold updated. rewrite Hnone. fold baseName. cbn [fst snd].
    split; [done|]. split; [|by rewrite <- Hthis in Hactions, Hwidgets].
    exists (with_is_deleted false
              (with_current_checksum (JVal (sha256_hex source)) marked)).
    split; [|done].
    unfold lookupFile. cbn. rewrite Hmap. fold baseName in Hkey.
    rewrite Hkey, Hheap, list_insert_insert_eq.
    by rewrite (insert_found _ _ _ _ Hobj).
Qed.

End SoftDeletion.

(** ** Renaming and adding *)

Section Renaming.

Context `{Env}.

(** X4. [renameFile] only rebinds the record.  When the old base name
    is tracked, the call returns the record and changes nothing but the
    map: the record itself, both indexes, the files on disk (no index
    document, no persisted snapshot) and the emitted notifications are
    as before.  In the map the old base name has no entry any more and
    every key other than the two base names keeps its entry. *)
Theorem renameFile_only_rebinds (w : World) (oldFilePath newFilePath : string)
    (a : addr) (fileInfo : FileInfo) :
  paused (this w) = false →
  lookupFile (path_basename oldFilePath) w = Some (a, fileInfo) →
  let w' := (renameFile oldFilePath newFilePath w).2 in
  (renameFile oldFilePath newFilePath w).1 = Ok (JVal a)
  ∧ heap w' = heap w
  ∧ actionIndex (this w') = actionIndex (this w)
  ∧ widgetIndex (this w') = widgetIndex (this w)
  ∧ disk w' = disk w
  ∧ emitted w' = emitted w
  ∧ JsMap.get (path_basename oldFilePath) (_fileMap (this w')) = None
  ∧ (∀ key,
       key ≠ path_basename oldFilePath → key ≠ path_basename newFilePath →
       JsMap.get key (_fileMap (this w')) = JsMap.get key (_fileMap (this w))).
Proof.
  intros Hpaused Hfound w'. subst w'.
  unfold renameFile. rewrite bind_gets, Hpaused, bind_gets, Hfound. cbn.
  repeat (split; [done|]). split.
  - by rewrite JsMap_get_delete, String.eqb_refl.
  - intros key Hold Hnew. rewrite JsMap_get_delete, JsMap_get_set.
    rewrite <- String.eqb_neq in Hold, Hnew.
    by rewrite (String.eqb_sym _ key), Hold, (String.eqb_sym _ key), Hnew.
Qed.

(** X5. A rename that keeps the base name (a move to another
    directory) untracks the file: the entry is set and then deleted
    under the same key, so afterwards the map has no entry for the base
    name, while the record object itself is unchanged. *)
Theorem renameFile_same_basename_untracks (w : World)
    (oldFilePath newFilePath : string) (a : addr) (fileInfo : FileInfo) :
  paused (this w) = false →
  lookupFile (path_basename oldFilePath) w = Some (a, fileInfo) →
  path_basename newFilePath = path_basename oldFilePath →
  let w' := (renameFile oldFilePath newFilePath w).2 in
  (renameFile oldFilePath newFilePath w).1 = Ok (JVal a)
  ∧ lookupFile (path_basename newFilePath) w' = None
  ∧ heap w' !! a = Some fileInfo
  ∧ (∀ key,
       key ≠ path_basename oldFilePath →
       JsMap.get key (_fileMap (this w')) = JsMap.get key (_fileMap (this w))).
Proof.
  intros Hpaused Hfound Hsame w'. subst w'.
  destruct (lookupFile_object _ _ _ _ Hfound) as [Hkey Hobj].
  unfold renameFile. rewrite bind_gets, Hpaused, bind_gets, Hfound. cbn.
  rewrite Hsame. split; [done|]. split; [|split; [done|]].
  - unfold lookupFile. cbn. by rewrite JsMap_get_delete, String.eqb_refl.
  - intros key Hold. rewrite JsMap_get_delete, JsMap_get_set.
    rewrite <- String.eqb_neq in Hold.
    by rewrite (String.eqb_sym _ key), Hold.
Qed.

(** X6. Adding an untracked file.  When the base name has no record of
    the path's category (and the file can be read, as well as
    [pubspec.yaml] if the boilerplate step needs it), [addFile] creates
    a record: its category is the one of the path, both names are the
    name implied by the file name, it has no checksum and is not
    deleted.  It is stored under the base name, or under the path
    relative to [lib/custom_code] for the category [OTHER]; an action or
    a widget gets the one-export entry [impliedName] in its index; the
    existing records are untouched.  All this is done in memory before
    the index document is rewritten.  When the document can be written
    (always, for a category without index), it is, the snapshot is
    persisted, one notification is emitted and [addFile] returns the
    record.  When its directory is missing, [addFile] raises the write
    error: the disk is as the boilerplate step left it and nothing is
    emitted. *)
Theorem addFile_creates_record (w : World) (filePath source : string) :
  paused (this w) = false →
  disk w !! filePath = Some source →
  boilerplate_readable filePath source w →
  (∀ a fileInfo,
     lookupFile (path_basename filePath) w = Some (a, fileInfo) →
     type fileInfo ≠ pathToCodeType filePath) →
  let baseName := path_basename filePath in
  let codeType := pathToCodeType filePath in
  let a := length (heap w) in
  let key := keyOf (_rootPath (this w)) filePath in
  let w1 := prepared filePath source w in
  let w' := (addFile filePath w).2 in
  heap w' = heap w ++ [created filePath]
  ∧ this w'
    = listed codeType baseName [impliedName filePath]
        (with_fileMap (JsMap.set key a (_fileMap (this w))) (this w))
  ∧ lookupFile key w' = Some (a, created filePath)
  ∧ (codeType = ACTION →
     JsMap.get baseName (actionIndex (this w')) = Some [impliedName filePath])
  ∧ (codeType = WIDGET →
     JsMap.get baseName (widgetIndex (this w')) = Some [impliedName filePath])
  ∧ if indexWritable codeType (this w) (disk w1)
    then
      (addFile filePath w).1 = Ok (JVal a)
      ∧ disk w'
        = writeFileMap (_rootPath (this w)) (snapshot w')
            (indexSaved codeType (this w') (disk w1))
      ∧ emitted w'
        = emitted w
          ++ [(fullPath (_rootPath (this w)) baseName (created filePath), a)]
    else
      (addFile filePath w).1 = Throw FsError
      ∧ disk w' = disk w1
      ∧ emitted w' = emitted w.
Proof.
  intros Hpaused Hfile Hpubspec Hnew baseName codeType a key w1 w'.
  subst baseName codeType a key w1 w'.
  rewrite (addFile_run _ source) by done.
  destruct (prepared_run filePath source w Hpubspec) as [_ Hworld].
  generalize dependent (prepared filePath source w). intros w1 Hworld.
  rewrite Hworld. unfold added, saved_and_notified, enrolled.
  set (m := listed _ _ _ _).
  assert (_fileMap m
          = JsMap.set (keyOf (_rootPath (this w)) filePath)
              (length (heap w)) (_fileMap (this w))) as Hmap
    by by destruct (pathToCodeType filePath).
  assert (_rootPath m = _rootPath (this w)) as Hroot
    by by destruct (pathToCodeType filePath).
  assert (lookupFile (keyOf (_rootPath (this w)) filePath)
            (mkWorld (heap w ++ [created filePath]) m (disk w1) (emitted w))
          = Some (length (heap w), created filePath)) as Hfound.
  { unfold lookupFile. cbn. rewrite Hmap, JsMap_get_set, String.eqb_refl.
    by rewrite lookup_app_r, Nat.sub_diag by lia. }
  assert (pathToCodeType filePath = ACTION →
          JsMap.get (path_basename filePath) (actionIndex m)
          = Some [impliedName filePath]) as Hactions.
  { subst m. intros ->. cbn. by rewrite JsMap_get_set, String.eqb_refl. }
  assert (pathToCodeType filePath = WIDGET →
          JsMap.get (path_basename filePath) (widgetIndex m)
          = Some [impliedName filePath]) as Hwidgets.
  { subst m. intros ->. cbn. by rewrite JsMap_get_set, String.eqb_refl. }
  cbn [this disk with_this with_heap with_disk heap emitted].
  assert (indexWritable (pathToCodeType filePath) m (disk w1)
          = indexWritable (pathToCodeType filePath) (this w) (disk w1)) as ->.
  { unfold indexWritable. by rewrite Hroot. }
  clearbody m.
  destruct (indexWritable _ _ _); cbn; rewrite ?Hroot; done.
Qed.

End Renaming.

(** ** Rename inference *)

Lemma find_elem {A} (p : A → bool) (arr : list A) (x : A) :
  find p arr = JVal x → x ∈ arr.
Proof.
  induction arr as [|y arr IH]; simpl; [done|].
  destruct (p y); [intros [= ->]; left|intros ?; right; by apply IH].
Qed.

Lemma first_elem {A} (arr : list A) (x : A) : first arr = JVal x → x ∈ arr.
Proof. destruct arr; [done|]. intros [= ->]. left. Qed.

(** X8. A name answered by [getNewName] is a declaration of the file
    and differs from the previous name; and the first export of the
    index is then either that name already (the index was edited first)
    or still the previous name (the file was edited first).  So the
    answer never invents a name and never repeats the old one. *)
Theorem getNewName_names_a_declaration
    (topLevelDeclarations indexExports : list string)
    (oldName : js string) (newName : string) :
  getNewName topLevelDeclarations indexExports oldName = JVal newName →
  newName ∈ topLevelDeclarations
  ∧ JVal newName ≠ oldName
  ∧ (first indexExports = JVal newName ∨ first indexExports = oldName).
Proof.
  unfold getNewName.
  set (inFileDeclaration := _ ?? _ ?? _).
  assert (∀ x, inFileDeclaration = JVal x → x ∈ topLevelDeclarations) as Helem.
  { intros x. subst inFileDeclaration. unfold nullish.
    destruct (find _ topLevelDeclarations) eqn:E1;
      [| |intros [= ->]; by eapply find_elem].
    all: destruct (find (λ d, JVal d === oldName) topLevelDeclarations) eqn:E2;
      [| |intros [= ->]; by eapply find_elem].
    all: apply first_elem. }
  clearbody inFileDeclaration. unfold strict_eq.
  repeat case_bool_decide; simpl; try done.
  all: intros Hname; split; [by apply Helem|]; split; [congruence|].
  all: first [left; congruence|right; congruence].
Qed.

Lemma getNewName_names_a_declaration_witness :
  "bar" ∈ ["bar"; "helper"]
  ∧ JVal "bar" ≠ JVal "foo"
  ∧ (first ["foo"] = JVal "bar" ∨ first ["foo"] = JVal "foo").
Proof.
  apply (getNewName_names_a_declaration ["bar"; "helper"] ["foo"] (JVal "foo")).
  reflexivity.
Defined.

Section ChangedUpdate.

Context `{Env}.

(** When [inferredName] answers a name, the path is an action or a
    widget and the name is the non-empty answer of [getNewName] on the
    declarations of the file and the exports of its index entry. *)
Lemma inferredName_name (filePath source : string) (m : UpdateManager)
    (fields : FileInfo) (newName : string) :
  inferredName filePath source m fields = JVal newName →
  (pathToCodeType filePath = ACTION ∨ pathToCodeType filePath = WIDGET)
  ∧ getNewName (getTopLevelNames source)
      (default [] (JsMap.get (path_basename filePath)
                     (indexOf (pathToCodeType filePath) m)))
      (old_identifier_name fields)
    = JVal newName
  ∧ newName ≠ "".
Proof.
  unfold inferredName.
  destruct (bool_decide (pathToCodeType filePath = ACTION)
            || bool_decide (pathToCodeType filePath = WIDGET)) eqn:Hindexed;
    [|done].
  cbv zeta. destruct (bool_decide (length _ = 0)); [done|].
  destruct (getNewName _ _ _) as [| |n]; [done..|].
  destruct (String.eqb n "") eqn:Hempty; [done|]. intros [= ->].
  apply String.eqb_neq in Hempty. split; [|done].
  apply orb_true_iff in Hindexed as [Ha|Hw].
  - left. by apply bool_decide_eq_true in Ha.
  - right. by apply bool_decide_eq_true in Hw.
Qed.

Lemma indexOf_listed (codeType : CodeType) (baseName : string)
    (names : list string) (m : UpdateManager) :
  codeType = ACTION ∨ codeType = WIDGET →
  JsMap.get baseName (indexOf codeType (listed codeType baseName names m))
  = Some names.
Proof.
  intros [->| ->]; unfold indexOf;
    [rewrite decide_True by done|rewrite decide_False by done];
    cbn [listed actionIndex with_actionIndex widgetIndex with_widgetIndex];
    by rewrite JsMap_get_set, String.eqb_refl.
Qed.

(** X9. An update whose digest differs from the baseline, for a tracked
    file other than the function document.  The record gets the new
    digest as current checksum and loses its deletion mark.  The rename
    inference answers a name only for an action or a widget whose index
    entry has exports, namely the non-empty answer of [getNewName]; that
    name becomes [new_identifier_name], and afterwards the first export
    of the file's index entry is that name: record and index agree.
    When it answers none, the name and the manager (indexes included)
    are unchanged.  All this is done in memory first, so it holds on
    every path.  The index document is rewritten only when the inferred
    name was not yet the first export.  Unless that write finds its
    directory missing, [updateFile] persists the snapshot, notifies once
    and returns the record; if it does, [updateFile] raises the write
    error, no file is written and nothing is emitted. *)
Theorem updateFile_records_change (w : World) (filePath source : string)
    (a : addr) (fileInfo : FileInfo) :
  paused (this w) = false →
  pathToCodeType filePath ≠ FUNCTION →
  lookupFile (path_basename filePath) w = Some (a, fileInfo) →
  disk w !! filePath = Some source →
  original_checksum fileInfo ≠ JVal (sha256_hex source) →
  let baseName := path_basename filePath in
  let codeType := pathToCodeType filePath in
  let inferred := inferredName filePath source (this w) fileInfo in
  let rewrites := rewritesIndex filePath source (this w) fileInfo in
  let touched :=
    with_is_deleted false
      (with_current_checksum (JVal (sha256_hex source)) fileInfo) in
  let fields :=
    match inferred with
    | JVal newName => with_new_identifier_name (JVal newName) touched
    | _ => touched
    end in
  let w' := (updateFile filePath w).2 in
  heap w' = <[a := fields]> (heap w)
  ∧ lookupFile baseName w' = Some (a, fields)
  ∧ (∀ newName,
       inferred = JVal newName →
       newName ≠ ""
       ∧ getNewName (getTopLevelNames source)
           (default [] (JsMap.get baseName (indexOf codeType (this w))))
           (old_identifier_name fileInfo)
         = JVal newName
       ∧ first (default [] (JsMap.get baseName (indexOf codeType (this w'))))
         = JVal newName)
  ∧ ((∀ newName, inferred ≠ JVal newName) → this w' = this w)
  ∧ if negb rewrites || indexWritable codeType (this w) (disk w)
    then
      (updateFile filePath w).1 = Ok (JVal a)
      ∧ disk w'
        = writeFileMap (_rootPath (this w)) (snapshot w')
            (if rewrites then indexSaved codeType (this w') (disk w)
             else disk w)
      ∧ emitted w'
        = emitted w ++ [(fullPath (_rootPath (this w)) baseName fields, a)]
    else
      (updateFile filePath w).1 = Throw FsError
      ∧ disk w' = disk w
      ∧ emitted w' = emitted w.
Proof.
  intros Hpaused Hcode Hfound Hfile Hchanged
    baseName codeType inferred rewrites touched fields w'.
  subst w'. rewrite (updateFile_run _ source a fileInfo) by done.
  destruct (lookupFile_object _ _ _ _ Hfound) as [Hkey Hobj].
  fold baseName in Hkey.
  subst rewrites. unfold updated, rewritesIndex.
  fold baseName codeType inferred touched.
  assert (∀ fields' m d e,
            _fileMap m = _fileMap (this w) →
            lookupFile baseName (mkWorld (<[a := fields']> (heap w)) m d e)
            = Some (a, fields')) as Hlookup.
  { intros fields' m d e Hm. unfold lookupFile. cbn.
    by rewrite Hm, Hkey, (insert_found _ _ _ _ Hobj). }
  destruct inferred as [| |newName] eqn:Hinferred; subst fields.
  - cbn. split; [done|]. split; [|done].
    by apply (Hlookup touched (this w)).
  - cbn. split; [done|]. split; [|done].
    by apply (Hlookup touched (this w)).
  - destruct (inferredName_name _ _ _ _ _ Hinferred)
      as (Hindexed & Hname & Hfilled).
    fold baseName codeType in Hindexed, Hname.
    set (indexExports := default [] _) in *.
    destruct (first indexExports === JVal newName) eqn:Hfirst.
    + cbn. split; [done|]. split.
      { by apply (Hlookup _ (this w)). }
      split; [|split; [by intros Hnone; destruct (Hnone newName)|done]].
      intros ? [= <-]. split; [done|]. split; [done|].
      by apply bool_decide_eq_true in Hfirst.
    + assert (_fileMap (listed codeType baseName [newName] (this w))
              = _fileMap (this w)) as Hmap by by destruct codeType.
      assert (_rootPath (listed codeType baseName [newName] (this w))
              = _rootPath (this w)) as Hroot by by destruct codeType.
      unfold saved_and_notified.
      cbn [this disk with_this with_heap negb orb].
      assert (indexWritable codeType
                (listed codeType baseName [newName] (this w)) (disk w)
              = indexWritable codeType (this w) (disk w)) as ->.
      { unfold indexWritable. by rewrite Hroot. }
      destruct (indexWritable codeType (this w) (disk w)); cbn; rewrite ?Hroot.
      all: split; [done|]; split;
        [by apply (Hlookup _ (listed codeType baseName [newName] (this w)))|].
      all: split; [|split; [by intros Hnone; destruct (Hnone newName)|done]].
      all: intros ? [= <-]; split; [done|]; split; [done|].
      all: by rewrite indexOf_listed.
Qed.

Lemma updateFile_function_run (filePath source : string) (a : addr)
    (fileInfo : FileInfo) (w : World) :
  paused (this w) = false →
  pathToCodeType filePath = FUNCTION →
  lookupFile (path_basename filePath) w = Some (a, fileInfo) →
  disk w !! filePath = Some source →
  original_checksum fileInfo ≠ JVal (sha256_hex source) →
  let touched :=
    with_is_deleted false
      (with_current_checksum (JVal (sha256_hex source)) fileInfo) in
  let w1 := with_heap (<[a := touched]> (heap w)) w in
  updateFile filePath w
  = match disk w !! customFunctionsPath (_rootPath (this w)) with
    | Some code =>
        (Ok (JVal a),
         notified (path_basename filePath) a touched
           (with_this (with_functionsCode code (this w)) w1))
    | None => (Throw FsError, w1)
    end.
Proof.
  intros Hpaused Hcode Hfound Hfile Hchanged touched w1. subst w1.
  destruct (lookupFile_object _ _ _ _ Hfound) as [Hkey Hobj].
  unfold updateFile. rewrite bind_gets, Hpaused, bind_gets, Hfound.
  rewrite (bind_checksum _ source) by done.
  rewrite (bind_assign a _ fileInfo) by done.
  rewrite (bind_load a (with_current_checksum (JVal (sha256_hex source)) fileInfo))
    by (by eapply insert_found).
  unfold strict_eq at 1. rewrite bool_decide_eq_false_2 by (cbn; congruence).
  rewrite (bind_assign a _
             (with_current_checksum (JVal (sha256_hex source)) fileInfo))
    by (by eapply insert_found).
  cbn [heap with_heap]. rewrite list_insert_insert_eq.
  rewrite bind_gets. cbn [this with_heap]. fold touched.
  rewrite Hcode.
  replace (bool_decide (FUNCTION = ACTION) || bool_decide (FUNCTION = WIDGET))
    with false by done.
  replace (bool_decide (FUNCTION = FUNCTION)) with true by done.
  rewrite bind_ret, bind_assoc.
  destruct (disk w !! customFunctionsPath (_rootPath (this w)))
    as [code|] eqn:Hcodefile.
  - rewrite (bind_read _ code) by done.
    unfold update_this. rewrite !bind_modify. cbn [this with_this with_heap].
    cbn [_fileMap with_functionsCode].
    rewrite (JsMap_set_same _ _ _ Hkey).
    rewrite (report_run (_rootPath (this w)) _ a touched);
      [|cbn; by eapply insert_found|done].
    reflexivity.
  - unfold bind at 1, on_disk, readFile. cbn [disk with_heap].
    by rewrite Hcodefile.
Qed.

(** X10. An update of the function document whose digest differs from
    the baseline.  The record gets the new digest and loses its
    deletion mark.  Then the text of
    [lib/flutter_flow/custom_functions.dart] under the root is read: if
    that succeeds it becomes [_functionsCode], the baseline
    [_initialFunctionsCode] staying as it was, the snapshot is persisted
    and one notification is emitted; if the file cannot be read the call
    raises the read error after the record was already changed, and
    nothing is persisted or notified. *)
Theorem updateFile_function_document (w : World) (filePath source : string)
    (a : addr) (fileInfo : FileInfo) :
  paused (this w) = false →
  pathToCodeType filePath = FUNCTION →
  lookupFile (path_basename filePath) w = Some (a, fileInfo) →
  disk w !! filePath = Some source →
  original_checksum fileInfo ≠ JVal (sha256_hex source) →
  let baseName := path_basename filePath in
  let root := _rootPath (this w) in
  let touched :=
    with_is_deleted false
      (with_current_checksum (JVal (sha256_hex source)) fileInfo) in
  let w' := (updateFile filePath w).2 in
  heap w' = <[a := touched]> (heap w)
  ∧ _initialFunctionsCode (this w') = _initialFunctionsCode (this w)
  ∧ match disk w !! customFunctionsPath root with
    | Some code =>
        (updateFile filePath w).1 = Ok (JVal a)
        ∧ this w' = with_functionsCode code (this w)
        ∧ disk w' = writeFileMap root (snapshot w') (disk w)
        ∧ emitted w' = emitted w ++ [(fullPath root baseName touched, a)]
    | None =>
        (updateFile filePath w).1 = Throw FsError
        ∧ this w' = this w
        ∧ disk w' = disk w
        ∧ emitted w' = emitted w
    end.
Proof.
  intros Hpaused Hcode Hfound Hfile Hchanged baseName root touched w'.
  subst w'. rewrite (updateFile_function_run _ source a fileInfo) by done.
  fold root.
  by destruct (disk w !! customFunctionsPath root) as [code|].
Qed.

End ChangedUpdate.

(** ** What the function diff reports *)

Section ReportedFunctions.

Context `{Env}.

Lemma deleted0_names baseline current (x : string) :
  x ∈ name <$> deleted0 baseline current →
  x ∈ name <$> baseline ∧ x ∉ name <$> current.
Proof.
  intros (f & -> & Hf)%list_elem_of_fmap.
  apply list_elem_of_filter in Hf as [Hnot Hin].
  split; [|done]. apply list_elem_of_fmap. by exists f.
Qed.

Lemma added0_names baseline current (x : string) :
  x ∈ name <$> added0 baseline current →
  x ∈ name <$> current ∧ x ∉ name <$> baseline.
Proof.
  intros (f & -> & Hf)%list_elem_of_fmap.
  apply list_elem_of_filter in Hf as [Hnot Hin].
  split; [|done]. apply list_elem_of_fmap. by exists f.
Qed.

(** X11. The function diff reports only names that occur in exactly one
    of the two snapshots.  The old name of a rename and every deletion
    is a baseline function that the current text no longer has; the new
    name of a rename and every addition is a function of the current
    text that the baseline does not have.  So a function whose name is
    in both snapshots is never reported, whatever happened to its
    body. *)
Theorem functionChange_reports_one_sided_names (m : UpdateManager) :
  let baseline := name <$> parseTopLevelFunctions (_initialFunctionsCode m) in
  let current := name <$> parseTopLevelFunctions (_functionsCode m) in
  let change := functionChange m in
  (∀ r, r ∈ functions_to_rename change →
     (old_function_name r ∈ baseline ∧ old_function_name r ∉ current)
     ∧ (new_function_name r ∈ current ∧ new_function_name r ∉ baseline))
  ∧ (∀ x, x ∈ functions_to_delete change → x ∈ baseline ∧ x ∉ current)
  ∧ (∀ x, x ∈ functions_to_add change → x ∈ current ∧ x ∉ baseline).
Proof.
  intros baseline current change. subst baseline current change.
  unfold functionChange.
  set (initial := parseTopLevelFunctions (_initialFunctionsCode m)).
  set (now := parseTopLevelFunctions (_functionsCode m)).
  destruct (detectRenames_greedy (deleted0 initial now) (added0 initial now) [])
    as (renames & unmatched & remaining & Hrun & Hg).
  rewrite Hrun. cbn [app functions_to_rename functions_to_delete functions_to_add].
  apply greedy_partition in Hg as [Hadded Hdeleted].
  split; [|split].
  - intros r Hr. split.
    + apply (deleted0_names initial now). rewrite Hdeleted.
      apply elem_of_app. left. apply list_elem_of_fmap. by exists r.
    + apply (added0_names initial now). rewrite Hadded.
      apply elem_of_app. left. apply list_elem_of_fmap. by exists r.
  - intros x (f & -> & Hf)%list_elem_of_fmap.
    apply list_elem_of_filter in Hf as [_ Hf].
    apply (deleted0_names initial now). apply list_elem_of_fmap. by exists f.
  - intros x Hx. apply (added0_names initial now). rewrite Hadded.
    apply elem_of_app. by right.
Qed.

Lemma filter_known_names (l l' : list FunctionInfo) :
  l ⊆ l' → filter (λ f, name f ∉ name <$> l') l = [].
Proof.
  induction l as [|f l IH]; intros Hsub; [done|].
  rewrite filter_cons_False.
  - apply IH. intros x Hx. apply Hsub. by right.
  - intros Hnot. apply Hnot. apply list_elem_of_fmap. exists f.
    split; [done|]. apply Hsub. left.
Qed.

Lemma functionChange_same (m : UpdateManager) :
  _initialFunctionsCode m = _functionsCode m →
  functionChange m
  = {| functions_to_rename := [];
       functions_to_delete := [];
       functions_to_add := [] |}.
Proof.
  intros Hsame. unfold functionChange, deleted0, added0. rewrite Hsame.
  by rewrite filter_known_names.
Qed.

(** X12. After a commit there is no function change to report:
    [functionChange] on the manager [setToSynced] leaves has no rename,
    no deletion and no addition. *)
Theorem commit_clears_function_diff (w : World) :
  functionChange (this (setToSynced w).2)
  = {| functions_to_rename := [];
       functions_to_delete := [];
       functions_to_add := [] |}.
Proof.
  destruct (setToSynced_world w) as (h & d & -> & _).
  by apply functionChange_same.
Qed.

End ReportedFunctions.

(** ** Pushing *)

Lemma JsMap_set_elem {V} (k : string) (v : V) (m : JsMap.t V) (x : string * V) :
  x ∈ JsMap.set k v m → x = (k, v) ∨ x ∈ m.
Proof.
  induction m as [|[k0 v0] m IH]; simpl.
  - intros ?%list_elem_of_singleton. by left.
  - destruct (String.eqb k0 k).
    + intros [->|?]%elem_of_cons; [by left|right; by right].
    + intros [->|Hx]%elem_of_cons; [right; left|].
      destruct (IH Hx) as [?|?]; [by left|right; by right].
Qed.

Lemma JsMap_of_entries_elem {V} (entries : list (string * V)) (x : string * V) :
  x ∈ JsMap.of_entries entries → x ∈ entries.
Proof.
  unfold JsMap.of_entries.
  assert (∀ acc, x ∈ fold_left (λ m kv, JsMap.set kv.1 kv.2 m) entries acc →
                 x ∈ entries ∨ x ∈ acc) as Hgen.
  { induction entries as [|[k v] l IH]; intros acc; simpl; [by right|].
    intros [Hin|Hacc]%IH; [left; by right|].
    apply JsMap_set_elem in Hacc as [->|?]; [left; left|by right]. }
  intros [?|Hnil]%Hgen; [done|]. by apply elem_of_nil in Hnil.
Qed.

Lemma filter_none {A} (P : A → bool) (l : list A) :
  (∀ x, x ∈ l → P x = false) → List.filter P l = [].
Proof.
  induction l as [|x l IH]; intros Hall; simpl; [done|].
  rewrite (Hall x) by left. apply IH. intros y Hy. apply Hall. by right.
Qed.

Section PushProperties.

Context `{Env} `{Platform}.

Lemma snapshot_elem (w : World) (key : string) (fileInfo : FileInfo) :
  (key, fileInfo) ∈ snapshot w
  ↔ ∃ a, (key, a) ∈ _fileMap (this w) ∧ heap w !! a = Some fileInfo.
Proof.
  unfold snapshot. rewrite list_elem_of_omap. split.
  - intros ([k a] & Hin & Hsome). exists a. simpl in Hsome.
    destruct (heap w !! a) as [f|]; [|done]. by injection Hsome as -> ->.
  - intros (a & Hin & Hobj). exists (key, a). split; [done|].
    simpl. by rewrite Hobj.
Qed.

(** X13. [pushToFF] reports and never commits.  It raises only when
    [pubspec.yaml] cannot be read.  Otherwise it returns a result, which
    is determined by the response ([answered]) and its decoding: if the
    request raises, or if the response does not decode, that error is
    reported in [error], prefixed with "Error syncing with FlutterFlow:
    ", together with an empty warnings map; a failure of the archive
    makes [Response.error()] the response, whose empty body does not
    decode; only a response that decodes gives a result without error,
    carrying the decoded warnings.  On every path the world is left as
    it was: no baseline moves, nothing is written, nothing is
    emitted. *)
Theorem pushToFF_reports_without_committing
    (apiClient : FlutterFlowApiClient.t) (projectRoot requestId : string)
    (w : World) :
  match disk w !! path_join [projectRoot; "pubspec.yaml"] with
  | Some yamlContents =>
      let response := answered apiClient projectRoot requestId yamlContents w in
      ∃ result,
        pushToFF apiClient projectRoot requestId w = (Ok result, w)
        ∧ (∀ e, response = Throw e → result = failed e)
        ∧ (∀ answer e,
             response = Ok answer →
             parseSyncCodeResponse answer = Throw e →
             result = failed e)
        ∧ (∀ e,
             zipToBase64 (modifiedFiles projectRoot (snapshot w)) (disk w)
             = Throw e →
             JSON_parse "" = None →
             result = failed (Err ""))
        ∧ (∀ answer fileErrors,
             response = Ok answer →
             parseSyncCodeResponse answer = Ok fileErrors →
             result = {| error := None; fileWarnings := fileErrors |})
  | None => pushToFF apiClient projectRoot requestId w = (Throw FsError, w)
  end.
Proof.
  unfold pushToFF, get_fileMap. rewrite bind_gets.
  destruct (disk w !! path_join [projectRoot; "pubspec.yaml"])
    as [yamlContents|] eqn:Hyaml.
  - rewrite (bind_read _ yamlContents) by done. rewrite bind_gets.
    unfold try_catch, sendSyncRequest, _zipAndSendFolder, try_catch, bind,
      on_disk, lift, ret, answered, pushRequest, failed.
    cbn [customCodePaths serializedYaml branchName projectId uuid
         fileMapContents functionChangesMap].
    destruct (zipToBase64 _ _) as [zipBuffer|e]; rewrite with_disk_same.
    + destruct (FlutterFlowApiClient.pushCode _ _) as [response|e].
      * destruct (parseSyncCodeResponse response) as [fileErrors|e] eqn:Hparse.
        -- eexists. split; [done|]. split; [done|]. split.
           { intros answer e [= <-]. by rewrite Hparse. }
           split; [done|]. intros answer errors [= <-]. rewrite Hparse.
           by intros [= <-].
        -- eexists. split; [done|]. split; [done|]. split.
           { intros answer e' [= <-]. rewrite Hparse. by intros [= <-]. }
           split; [done|]. intros answer errors [= <-]. by rewrite Hparse.
      * eexists. split; [done|]. split; [by intros ? [= <-]|]. done.
    + destruct (parseSyncCodeResponse Response_error) as [fileErrors|e']
        eqn:Hparse.
      * eexists. split; [done|]. split; [done|]. split.
        { intros answer e' [= <-]. by rewrite Hparse. }
        split.
        { intros e' _ Hempty. unfold parseSyncCodeResponse in Hparse.
          cbn [text Response_error] in Hparse. by rewrite Hempty in Hparse. }
        intros answer errors [= <-]. rewrite Hparse. by intros [= <-].
      * eexists. split; [done|]. split; [done|]. split.
        { intros answer e'' [= <-]. rewrite Hparse. by intros [= <-]. }
        split.
        { intros e'' _ Hempty. unfold parseSyncCodeResponse in Hparse.
          cbn [text Response_error] in Hparse. rewrite Hempty in Hparse.
          by injection Hparse as <-. }
        intros answer errors [= <-]. by rewrite Hparse.
  - unfold bind at 1, on_disk, readFile. by rewrite Hyaml, with_disk_same.
Qed.

(** X14. When the archive cannot be built, nothing is sent: the request
    function of the client is not consulted, [Response.error()] stands
    in for the response, and its empty body fails to decode.  The
    result carries the error of that decoding, an [Error] with an empty
    message, not the error that stopped the archive. *)
Theorem pushToFF_archive_failure
    (apiClient : FlutterFlowApiClient.t) (projectRoot requestId : string)
    (w : World) (yamlContents : string) (e : Error) :
  disk w !! path_join [projectRoot; "pubspec.yaml"] = Some yamlContents →
  zipToBase64 (modifiedFiles projectRoot (snapshot w)) (disk w) = Throw e →
  JSON_parse "" = None →
  pushToFF apiClient projectRoot requestId w
  = (Ok {| error :=
             Some ("Error syncing with FlutterFlow: "
                   +:+ Error_toString (Err ""));
           fileWarnings := JsMap.empty |}, w).
Proof.
  intros Hyaml Hzip Hempty.
  unfold pushToFF, get_fileMap. rewrite bind_gets.
  rewrite (bind_read _ yamlContents) by done. rewrite bind_gets.
  unfold try_catch, sendSyncRequest, _zipAndSendFolder, try_catch, bind,
    on_disk, lift, ret.
  cbn [customCodePaths]. rewrite Hzip, with_disk_same.
  unfold parseSyncCodeResponse, Response_error. cbn [text].
  by rewrite Hempty.
Qed.

(** X15. After a commit a push has no file to send: for every record of
    the map [setToSynced] leaves, the two checksums are equal, so the
    list of modified files is empty. *)
Theorem commit_leaves_nothing_to_push (w : World) (projectRoot : string) :
  modifiedFiles projectRoot (snapshot (setToSynced w).2) = [].
Proof.
  destruct (setToSynced_world w) as (h & d & -> & Hh).
  unfold modifiedFiles. rewrite filter_none; [done|].
  intros [key fileInfo] (a & Hin & Hobj)%snapshot_elem. cbn in Hin, Hobj.
  apply JsMap_of_entries_elem in Hin.
  apply list_elem_of_In, filter_In in Hin as [Hin%list_elem_of_In _].
  rewrite Hh, decide_True in Hobj.
  2:{ apply list_elem_of_fmap. by exists (key, a). }
  destruct (heap w !! a) as [before|]; [|done]. injection Hobj as <-.
  cbn. unfold strict_eq. by rewrite bool_decide_eq_true_2.
Qed.

End PushProperties.

Lemma bind_inv {S A B} (m : M S A) (k : A → M S B) (s s' : S) (b : B) :
  bind m k s = (Ok b, s') → ∃ a s1, m s = (Ok a, s1) ∧ k a s1 = (Ok b, s').
Proof.
  unfold bind. destruct (m s) as [[a|e] s1]; [|done]. intros Hk. by exists a, s1.
Qed.

Section Serializing.

Context `{Env} `{Platform}.

(** X16. An edited file is sent with the next push.  After [updateFile]
    stored a digest that differs from the baseline, the path of the
    record under the project root is one of the modified files.  This
    holds for every category, the function document included, and on
    every path of [updateFile]: also when it raises after the record was
    changed, because the function text cannot be read or the index
    document cannot be written. *)
Theorem edited_file_is_pushed (w : World) (filePath source : string)
    (a : addr) (fileInfo : FileInfo) (projectRoot : string) :
  paused (this w) = false →
  lookupFile (path_basename filePath) w = Some (a, fileInfo) →
  disk w !! filePath = Some source →
  original_checksum fileInfo ≠ JVal (sha256_hex source) →
  path_join [projectRoot; customFilePath (path_basename filePath) fileInfo]
  ∈ modifiedFiles projectRoot (snapshot (updateFile filePath w).2).
Proof.
  intros Hpaused Hfound Hfile Hchanged.
  destruct (lookupFile_object _ _ _ _ Hfound) as [Hkey Hobj].
  assert (∃ fields,
            heap (updateFile filePath w).2 = <[a := fields]> (heap w)
            ∧ _fileMap (this (updateFile filePath w).2) = _fileMap (this w)
            ∧ current_checksum fields = JVal (sha256_hex source)
            ∧ original_checksum fields = original_checksum fileInfo
            ∧ type fields = type fileInfo)
    as (fields & Hheap & Hmap & Hcurrent & Horiginal & Htype).
  { destruct (decide (pathToCodeType filePath = FUNCTION)) as [Hcode|Hcode].
    - rewrite (updateFile_function_run _ source a fileInfo) by done.
      destruct (disk w !! customFunctionsPath (_rootPath (this w)));
        by eexists.
    - by apply (updateFile_memory _ source). }
  unfold modifiedFiles. apply list_elem_of_fmap.
  exists (path_basename filePath, fields). split.
  { unfold customFilePath. cbn. by rewrite Htype. }
  apply list_elem_of_In, filter_In. split.
  - apply list_elem_of_In, snapshot_elem. exists a. split.
    + rewrite Hmap. by apply JsMap_get_elem.
    + rewrite Hheap. by eapply insert_found.
  - cbn. unfold strict_eq. rewrite bool_decide_eq_false_2; [done|]. congruence.
Qed.

Lemma forEach_write_run (documents : list (string * string)) :
  ∀ d,
    forEach documents (λ document, writeFile document.1 document.2) d
    = (if allWritable documents d then Ok tt else Throw FsError,
       (forEach documents (λ document, writeFile document.1 document.2) d).2)
    ∧ (allWritable documents d = true →
       (forEach documents (λ document, writeFile document.1 document.2) d).2
       = written documents d).
Proof.
  induction documents as [|[p c] documents IH]; intros d; [done|].
  cbn [forEach allWritable written fold_left fst snd].
  unfold bind. rewrite writeFile_run.
  destruct (writable d p); [|done]. apply IH.
Qed.

(** [serializeUpdateManager] is the four writes of [serialized], one
    after the other. *)
Lemma serializeUpdateManager_run (filePath : string) (w : World) :
  serializeUpdateManager filePath w
  = on_disk
      (forEach (serialized filePath w)
         (λ document, writeFile document.1 document.2)) w.
Proof.
  unfold serializeUpdateManager, serializeFileMap, serialized, try_catch.
  rewrite bind_assoc, bind_gets.
  unfold bind, gets, on_disk, saveIndexFile, forEach, bind, throw, ret.
  rewrite !writeFile_run. cbn [fst snd].
  destruct (writable (disk w) _); [|done]. cbn [disk with_disk this].
  rewrite !writeFile_run.
  destruct (writable _ (actionsIndexPath filePath)); [|done].
  cbn [disk with_disk this]. rewrite !writeFile_run.
  destruct (writable _ (widgetsIndexPath filePath)); [|done].
  cbn [disk with_disk this]. rewrite !writeFile_run.
  by destruct (writable _ _).
Qed.

(** X17. [serializeUpdateManager] writes and changes nothing else.  It
    writes four documents under the given path, in this order: the file
    map, the two index documents and the function snapshot
    ([serialized]).  On every path the records, the manager and the
    emitted notifications are as before.  It returns normally exactly
    when each write finds its directory; otherwise it raises the write
    error, and when already the directory of the file map is missing the
    disk is untouched.  When it returns, the disk holds the four
    documents, the snapshot file holds the function baseline
    [_initialFunctionsCode] (not the current text), and whenever the
    state is loaded again from these files, the loaded manager has that
    baseline, so a pending function diff is measured against the same
    text after a restart. *)
Theorem serialize_keeps_function_baseline (w : World) (filePath : string) :
  let w' := (serializeUpdateManager filePath w).2 in
  let documents := serialized filePath w in
  heap w' = heap w ∧ this w' = this w ∧ emitted w' = emitted w
  ∧ (serializeUpdateManager filePath w).1
    = (if allWritable documents (disk w) then Ok tt else Throw FsError)
  ∧ (writable (disk w) (fileMapJsonPath filePath) = false →
     disk w' = disk w)
  ∧ (allWritable documents (disk w) = true →
     disk w' = written documents (disk w)
     ∧ disk w' !! snapshotPath filePath
       = Some (_initialFunctionsCode (this w))
     ∧ (∀ objects manager d',
          deserializeUpdateManager filePath (disk w')
          = (Ok (objects, manager), d') →
          _initialFunctionsCode manager = _initialFunctionsCode (this w)
          ∧ _rootPath manager = filePath
          ∧ paused manager = false)).
Proof.
  intros w' documents. subst w' documents.
  rewrite serializeUpdateManager_run.
  destruct (forEach_write_run (serialized filePath w) (disk w))
    as [Hrun Hdisk].
  assert (writable (disk w) (fileMapJsonPath filePath) = false →
          (forEach (serialized filePath w)
             (λ document, writeFile document.1 document.2) (disk w)).2
          = disk w) as Hmissing.
  { intros Hmissing. cbn [serialized forEach fst snd]. unfold bind at 1.
    by rewrite writeFile_run, Hmissing. }
  unfold on_disk.
  destruct (forEach (serialized filePath w) _ (disk w)) as [r d] eqn:Hwrites.
  cbn [fst snd heap this emitted disk with_disk] in *.
  injection Hrun as ->.
  split; [done|]. split; [done|]. split; [done|]. split; [done|].
  split; [done|].
  intros Hwritable. rewrite Hdisk by done.
  split; [done|].
  assert (written (serialized filePath w) (disk w) !! snapshotPath filePath
          = Some (_initialFunctionsCode (this w))) as Hsnapshot
    by apply lookup_insert_eq.
  split; [done|].
  generalize dependent (written (serialized filePath w) (disk w)).
  intros d1 _ Hsnapshot objects manager d' Hload.
  assert (∀ p (s s' : Disk) c, readFile p s = (Ok c, s') →
            s' = s ∧ s !! p = Some c) as Hread.
  { intros p s s' c. unfold readFile.
    destruct (s !! p); [|done]. by intros [= -> ->]. }
  assert (∀ {A} (r : Outcome A) (s s' : Disk) x, lift r s = (Ok x, s') → s' = s)
    as Hlift.
  { intros A r s s' x. unfold lift. by intros [= _ ->]. }
  unfold deserializeUpdateManager in Hload.
  apply bind_inv in Hload as (x1 & s1 & [-> _]%Hread & Hload).
  apply bind_inv in Hload as (x2 & s2 & ->%Hlift & Hload).
  apply bind_inv in Hload as (x3 & s3 & [-> _]%Hread & Hload).
  apply bind_inv in Hload as (x4 & s4 & ->%Hlift & Hload).
  apply bind_inv in Hload as (code & s5 & [-> _]%Hread & Hload).
  unfold existsSync at 1 in Hload. rewrite bind_gets in Hload.
  unfold snapshotPath in Hsnapshot.
  rewrite bool_decide_eq_true_2 in Hload by (by rewrite Hsnapshot).
  apply bind_inv in Hload as (initial & s6 & [-> Hinitial]%Hread & Hload).
  rewrite Hsnapshot in Hinitial. injection Hinitial as <-.
  apply bind_inv in Hload as (x7 & s7 & _ & Hload).
  apply bind_inv in Hload as (x8 & s8 & _ & Hload).
  apply bind_inv in Hload as (x9 & s9 & _ & Hload).
  apply bind_inv in Hload as (x10 & s10 & _ & Hload).
  by injection Hload as <- <- <-.
Qed.

End Serializing.

(** ** Documents the decoder rejects *)

Section Rejected.

Context `{Env}.

(** X18. Bodies that parse but are not the documents of the protocol.
    A body that is the JSON value [null] makes the decoding raise a
    [TypeError], on a success as on a failure status.  On a success
    status, an envelope without a [value] field, or whose [value] is a
    string that does not parse, raises a [SyntaxError], and one whose
    [value] parses to [null] raises a [TypeError].  None of these
    errors carries the response text. *)
Theorem parseSyncCodeResponse_rejects (response : Response) :
  (JSON_parse (text response) = Some json_null →
   parseSyncCodeResponse response = Throw TypeError)
  ∧ (∀ props,
       JSON_parse (text response) = Some (json_object props) →
       ok response = true →
       JsMap.get "value" props = None →
       JSON_parse "undefined" = None →
       parseSyncCodeResponse response = Throw SyntaxError)
  ∧ (∀ props inner,
       JSON_parse (text response) = Some (json_object props) →
       ok response = true →
       JsMap.get "value" props = Some (json_string inner) →
       (JSON_parse inner = None →
        parseSyncCodeResponse response = Throw SyntaxError)
       ∧ (JSON_parse inner = Some json_null →
          parseSyncCodeResponse response = Throw TypeError)).
Proof.
  unfold parseSyncCodeResponse. split; [|split].
  - intros ->. by destruct (ok response).
  - intros props -> -> Hvalue Hundefined. cbn. rewrite Hvalue. cbn.
    unfold JSON_parse_value. by rewrite Hundefined.
  - intros props inner -> -> Hvalue. cbn. rewrite Hvalue. cbn.
    unfold JSON_parse_value. split; by intros ->.
Qed.

End Rejected.

(** ** The map built from the index documents *)

Lemma JsMap_fold_set_get {E V} (g : E → string) (h : E → V) (l : list E)
    (k : string) :
  ∀ acc : JsMap.t V,
    JsMap.get k (fold_left (λ m e, JsMap.set (g e) (h e) m) l acc)
    = match last (List.filter (λ e, String.eqb (g e) k) l) with
      | Some e => Some (h e)
      | None => JsMap.get k acc
      end.
Proof.
  induction l as [|e l IH]; intros acc; simpl; [done|].
  rewrite IH, JsMap_get_set.
  destruct (String.eqb (g e) k); [|done].
  rewrite last_cons. by destruct (last _).
Qed.

Lemma last_filter_elem {E} (P : E → bool) (l : list E) :
  match last (List.filter P l) with
  | Some e => e ∈ l ∧ P e = true
  | None => ∀ e, e ∈ l → P e = false
  end.
Proof.
  destruct (last (List.filter P l)) as [e|] eqn:Hlast.
  - apply last_Some_elem_of, list_elem_of_In, filter_In in Hlast
      as [?%list_elem_of_In ?]. done.
  - apply last_None in Hlast. intros e He.
    destruct (P e) eqn:HP; [|done].
    assert (e ∈ List.filter P l) as Hin
      by (apply list_elem_of_In, filter_In; by split; [apply list_elem_of_In|]).
    rewrite Hlast in Hin. by apply elem_of_nil in Hin.
Qed.

Section FromIndexes.

Context `{Env}.

(** X19. The records [fileMapFromIndexFiles] builds.  The function
    document and [pubspec.yaml] are always tracked, under their fixed
    keys.  Any other base name is tracked exactly when an index lists
    a file with that base name: as a widget when the widget index does,
    also if the action index lists it too, and as an action when only
    the action index does.  Every record starts not deleted, with both
    names equal and without checksums. *)
Theorem fileMapFromIndexFiles_records (actionIndex widgetIndex : Index) :
  let fileMap := fileMapFromIndexFiles actionIndex widgetIndex in
  let tracked (index : Index) (key : string) :=
    key ∈ path_basename <$> JsMap.keys index in
  (∃ fileInfo,
     JsMap.get "pubspec.yaml" fileMap = Some fileInfo
     ∧ type fileInfo = DEPENDENCIES)
  ∧ (∃ fileInfo,
       JsMap.get "custom_functions.dart" fileMap = Some fileInfo
       ∧ type fileInfo = FUNCTION)
  ∧ (∀ key,
       key ≠ "pubspec.yaml" → key ≠ "custom_functions.dart" →
       match JsMap.get key fileMap with
       | Some fileInfo =>
           (tracked widgetIndex key ∧ type fileInfo = WIDGET)
           ∨ (¬ tracked widgetIndex key ∧ tracked actionIndex key
              ∧ type fileInfo = ACTION)
       | None => ¬ tracked widgetIndex key ∧ ¬ tracked actionIndex key
       end)
  ∧ (∀ key fileInfo,
       JsMap.get key fileMap = Some fileInfo →
       is_deleted fileInfo = false
       ∧ old_identifier_name fileInfo = new_identifier_name fileInfo
       ∧ original_checksum fileInfo = JUndefined
       ∧ current_checksum fileInfo = JUndefined).
Proof.
  intros fileMap tracked. subst fileMap. unfold fileMapFromIndexFiles.
  assert (∀ (index : Index) key,
            match last (List.filter
                          (λ e : string * list string,
                             String.eqb (path_basename e.1) key) index) with
            | Some _ => tracked index key
            | None => ¬ tracked index key
            end) as Htracked.
  { intros index key. subst tracked. unfold JsMap.keys.
    pose proof (last_filter_elem
                  (λ e : string * list string,
                     String.eqb (path_basename e.1) key) index) as Hlast.
    destruct (last _) as [e|].
    - destruct Hlast as [Hin Hkey]. apply String.eqb_eq in Hkey as <-.
      apply list_elem_of_fmap. exists e.1. split; [done|].
      apply list_elem_of_fmap. by exists e.
    - intros (k & -> & (e & -> & Hin)%list_elem_of_fmap)%list_elem_of_fmap.
      specialize (Hlast e Hin). cbn in Hlast.
      by rewrite String.eqb_refl in Hlast. }
  split; [|split; [|split]].
  - eexists. by rewrite JsMap_get_set, String.eqb_refl.
  - eexists. rewrite !JsMap_get_set, String.eqb_refl. done.
  - intros key Hpubspec Hfunctions.
    rewrite !JsMap_get_set.
    rewrite <- String.eqb_neq in Hpubspec, Hfunctions.
    rewrite (String.eqb_sym _ key), Hpubspec, (String.eqb_sym _ key), Hfunctions.
    rewrite !JsMap_fold_set_get.
    pose proof (Htracked widgetIndex key) as Hwidgets.
    pose proof (Htracked actionIndex key) as Hactions.
    destruct (last (List.filter _ widgetIndex)) as [e|]; [by left|].
    destruct (last (List.filter _ actionIndex)) as [e|]; [by right|done].
  - intros key fileInfo. rewrite !JsMap_get_set.
    destruct (String.eqb "pubspec.yaml" key); [by intros [= <-]|].
    destruct (String.eqb "custom_functions.dart" key); [by intros [= <-]|].
    rewrite !JsMap_fold_set_get.
    destruct (last (List.filter _ widgetIndex)) as [e|]; [by intros [= <-]|].
    destruct (last (List.filter _ actionIndex)) as [e|]; [by intros [= <-]|].
    done.
Qed.

End FromIndexes.

(** ** Recomputing the map from disk *)

Lemma JsMap_fold_set_elem {E V} (g : E → string) (h : E → V) (l : list E)
    (x : string * V) :
  ∀ acc : JsMap.t V,
    x ∈ fold_left (λ m e, JsMap.set (g e) (h e) m) l acc →
    (∃ e, e ∈ l ∧ x = (g e, h e)) ∨ x ∈ acc.
Proof.
  induction l as [|e l IH]; intros acc; simpl; [by right|].
  intros [(e' & Hin & ->)|Hacc]%IH.
  - left. exists e'. split; [by right|done].
  - apply JsMap_set_elem in Hacc as [->|?]; [|by right].
    left. exists e. split; [left|done].
Qed.

Lemma JsMap_fold_set_has {E V} (g : E → string) (h : E → V) (l : list E)
    (k : string) :
  ∀ acc : JsMap.t V,
    is_Some (JsMap.get k acc) →
    is_Some (JsMap.get k (fold_left (λ m e, JsMap.set (g e) (h e) m) l acc)).
Proof.
  intros acc Hacc. rewrite JsMap_fold_set_get. by destruct (last _).
Qed.

Lemma forEntries_inv {V} (body : string → V → M Disk V)
    (Q : Disk → string → V → V → Prop) :
  (∀ k v s v' s', body k v s = (Ok v', s') → s' = s ∧ Q s k v v') →
  ∀ l s m s',
    forEntries l body s = (Ok m, s') →
    s' = s ∧ Forall2 (λ e e', e'.1 = e.1 ∧ Q s e.1 e.2 e'.2) l m.
Proof.
  intros Hbody. induction l as [|[k v] l IH]; simpl; intros s m s' Hrun.
  - injection Hrun as <- <-. by split.
  - apply bind_inv in Hrun as (v' & s1 & Hv & Hrun).
    apply Hbody in Hv as [-> HQ].
    apply bind_inv in Hrun as (rest & s2 & Hrest & Hret).
    apply IH in Hrest as [-> Hall]. injection Hret as <- <-.
    split; [done|]. by constructor.
Qed.

Lemma JsMap_get_Forall2 {V} (l m : JsMap.t V) (k : string) :
  Forall2 (λ e e', e'.1 = e.1) l m →
  is_Some (JsMap.get k l) → is_Some (JsMap.get k m).
Proof.
  induction 1 as [|[k0 v0] [k1 v1] l m Hk _ IH]; simpl; [done|].
  simpl in Hk. subst k1. by destruct (String.eqb k0 k).
Qed.

Lemma addresses_get_inv {V} (m : JsMap.t V) (key : string) :
  ∀ base a,
    JsMap.get key (addresses base m) = Some a →
    ∃ i v, a = base + i ∧ m !! i = Some (key, v).
Proof.
  induction m as [|[k v] m IH]; intros base a; simpl; [done|].
  destruct (String.eqb k key) eqn:E.
  - apply String.eqb_eq in E as ->. intros [= <-]. exists 0, v.
    split; [lia|done].
  - intros (i & v' & -> & Hi)%IH. exists (S i), v'. split; [lia|done].
Qed.

Section Recomputing.

Context `{Env}.

Lemma computeChecksum_inv (p : string) (s s' : Disk) (c : string) :
  computeChecksum p s = (Ok c, s') →
  s' = s ∧ ∃ fileContent, s !! p = Some fileContent ∧ c = sha256_hex fileContent.
Proof.
  unfold computeChecksum, bind, readFile, ret.
  destruct (s !! p) as [fileContent|]; [|done].
  intros [= <- <-]. split; [done|]. by exists fileContent.
Qed.

Lemma computeFileMap_entries (root : string) (d d' : Disk)
    (fileMap : JsMap.t FileInfo) :
  computeFileMap root d = (Ok fileMap, d') →
  d' = d
  ∧ (∀ key fileInfo, (key, fileInfo) ∈ fileMap → in_sync_with root d key fileInfo)
  ∧ is_Some (JsMap.get "pubspec.yaml" fileMap)
  ∧ is_Some (JsMap.get "custom_functions.dart" fileMap).
Proof.
  unfold computeFileMap. intros Hrun.
  assert (∀ p (s s' : Disk) c, readFile p s = (Ok c, s') → s' = s) as Hread.
  { intros p s s' c. unfold readFile.
    destruct (s !! p); [|done]. by intros [= _ ->]. }
  apply bind_inv in Hrun as (x1 & s1 & ->%Hread & Hrun).
  apply bind_inv in Hrun as (actions & s2 & Hparse1 & Hrun).
  unfold lift in Hparse1. injection Hparse1 as _ <-.
  apply bind_inv in Hrun as (x3 & s3 & ->%Hread & Hrun).
  apply bind_inv in Hrun as (widgets & s4 & Hparse2 & Hrun).
  unfold lift in Hparse2. injection Hparse2 as _ <-.
  apply bind_inv in Hrun as (files & s5 & Hfiles & Hrun).
  injection Hfiles as _ <-.
  set (fresh := λ f : FileInfo,
         is_deleted f = false ∧ old_identifier_name f = new_identifier_name f).
  apply (forEntries_inv _
           (λ s key f f', fresh f → in_sync_with root s key f')) in Hrun
    as [-> Hall].
  2:{ intros key f s f' s' Hbody.
      apply bind_inv in Hbody as (c & s1 & Hsum & Hret).
      injection Hret as <- <-.
      assert (computeChecksum (fullPath root key f) s = (Ok c, s1)) as Hsum'
        by (unfold fullPath; by destruct (type f)).
      apply computeChecksum_inv in Hsum' as [-> (fileContent & Hfile & ->)].
      split; [done|]. intros [Hdeleted Hnames].
      exists fileContent. by destruct f. }
  split; [done|].
  match type of Hall with Forall2 _ ?l _ => set (before := l) in * end.
  assert (∀ x, x ∈ before → fresh x.2) as Hfresh.
  { intros x Hx. subst before.
    apply JsMap_fold_set_elem in Hx as [(e & _ & ->)|Hx]; [done|].
    unfold fileMapFromIndexFiles in Hx.
    apply JsMap_set_elem in Hx as [->|Hx]; [done|].
    apply JsMap_set_elem in Hx as [->|Hx]; [done|].
    apply JsMap_fold_set_elem in Hx as [(e & _ & ->)|Hx]; [done|].
    apply JsMap_fold_set_elem in Hx as [(e & _ & ->)|Hx]; [done|].
    by apply elem_of_nil in Hx. }
  assert (Forall2 (λ e e' : string * FileInfo, e'.1 = e.1) before fileMap)
    as Hkeys.
  { eapply Forall2_impl; [exact Hall|]. by intros ? ? [? _]. }
  split; [|split].
  - intros key fileInfo Hin.
    apply list_elem_of_lookup in Hin as [i Hi].
    destruct (Forall2_lookup_r _ _ _ _ _ Hall Hi) as ([k f] & Hbefore & Hk & Hsync).
    cbn in Hk, Hsync. subst k. apply Hsync.
    apply (Hfresh (key, f)). by eapply list_elem_of_lookup_2.
  - apply (JsMap_get_Forall2 _ _ _ Hkeys). subst before.
    apply JsMap_fold_set_has. unfold fileMapFromIndexFiles.
    by rewrite JsMap_get_set, String.eqb_refl.
  - apply (JsMap_get_Forall2 _ _ _ Hkeys). subst before.
    apply JsMap_fold_set_has. unfold fileMapFromIndexFiles.
    by rewrite !JsMap_get_set, String.eqb_refl.
Qed.

(** X20. A map computed from disk has nothing pending.  When
    [computeFileMap] returns, it has read files only; every record of
    the map it returns has both checksums set to the digest of the file
    the record stands for, is not deleted and has equal names; and the
    function document and [pubspec.yaml] are among its keys. *)
Theorem computeFileMap_in_sync (root : string) (d d' : Disk)
    (fileMap : JsMap.t FileInfo) :
  computeFileMap root d = (Ok fileMap, d') →
  d' = d
  ∧ (∀ key fileInfo,
       JsMap.get key fileMap = Some fileInfo →
       in_sync_with root d key fileInfo)
  ∧ is_Some (JsMap.get "pubspec.yaml" fileMap)
  ∧ is_Some (JsMap.get "custom_functions.dart" fileMap).
Proof.
  intros (-> & Hentries & Hpubspec & Hfunctions)%computeFileMap_entries.
  split; [done|]. split; [|done].
  intros key fileInfo Hget. by apply Hentries, JsMap_get_elem.
Qed.

(** Reloading one index in [refresh] touches that index only. *)
Lemma refresh_index_frame (p : string)
    (g : Index → UpdateManager → UpdateManager) (w w1 : World)
    (r : Outcome unit) :
  (∀ index m, _rootPath (g index m) = _rootPath m) →
  try_catch
    (let* content := on_disk (readFile p) in
     let* index := lift (parseIndexFile content) in
     update_this (g index))
    (λ _, ret tt) w = (r, w1) →
  heap w1 = heap w ∧ disk w1 = disk w ∧ emitted w1 = emitted w
  ∧ _rootPath (this w1) = _rootPath (this w).
Proof.
  intros Hg. unfold try_catch, bind, on_disk, readFile, lift, update_this,
    modify, ret.
  destruct (disk w !! p) as [content|]; [|by intros [= _ <-]].
  destruct (parseIndexFile content) as [index|e]; intros [= _ <-]; cbn;
    by rewrite ?Hg.
Qed.

(** X21. [refresh] starts tracking afresh.  When it returns, every
    record of the map is a new object (the objects that existed before
    are still there, unchanged, but no key refers to them), with both
    checksums equal, equal names and no deletion mark; the function
    baseline equals the current function text; nothing was written and
    nothing was emitted.  So whatever was pending before the refresh is
    no longer reported. *)
Theorem refresh_resets_tracking (w w' : World) :
  refresh w = (Ok tt, w') →
  (∀ key a fileInfo,
     lookupFile key w' = Some (a, fileInfo) →
     (length (heap w) <= a)%nat
     ∧ original_checksum fileInfo = current_checksum fileInfo
     ∧ old_identifier_name fileInfo = new_identifier_name fileInfo
     ∧ is_deleted fileInfo = false)
  ∧ (∃ objects, heap w' = heap w ++ objects)
  ∧ _initialFunctionsCode (this w') = _functionsCode (this w')
  ∧ disk w' = disk w
  ∧ emitted w' = emitted w.
Proof.
  unfold refresh. rewrite bind_gets. intros Hrun.
  unfold update_this at 1 in Hrun. rewrite bind_modify in Hrun.
  apply bind_inv in Hrun as (x1 & w1 & Hactions & Hrun).
  apply refresh_index_frame in Hactions as (Hh1 & Hd1 & He1 & Hr1); [|done].
  unfold update_this at 1 in Hrun. rewrite bind_modify in Hrun.
  apply bind_inv in Hrun as (x2 & w2 & Hwidgets & Hrun).
  apply refresh_index_frame in Hwidgets as (Hh2 & Hd2 & He2 & Hr2); [|done].
  cbn in Hh1, Hd1, He1, Hr1, Hh2, Hd2, He2, Hr2.
  apply bind_inv in Hrun as (newFileMap & w3 & Hcompute & Hrun).
  unfold on_disk in Hcompute.
  destruct (computeFileMap (_rootPath (this w)) (disk w2)) as [r d3] eqn:Hmap.
  injection Hcompute as -> <-.
  apply computeFileMap_entries in Hmap as (-> & Hentries & _).
  rewrite with_disk_same in Hrun.
  rewrite (bind_ok _ _ w2 (with_heap (heap w2 ++ newFileMap.*2) w2)
             (addresses (length (heap w2)) newFileMap)) in Hrun
    by reflexivity.
  unfold update_this at 1 in Hrun. rewrite bind_modify in Hrun.
  apply bind_inv in Hrun as (code & w4 & Hcode & Hrun).
  unfold on_disk, readFile in Hcode. cbn [disk with_this with_heap] in Hcode.
  destruct (disk w2 !! _) as [code'|]; [|done].
  injection Hcode as -> <-.
  unfold update_this in Hrun. rewrite bind_modify in Hrun.
  injection Hrun as <-. cbn.
  rewrite Hh2, Hh1, Hd2, Hd1, He2, He1.
  split; [|split; [by eexists|done]].
  intros key a fileInfo. unfold lookupFile. cbn.
  destruct (JsMap.get key _) as [a'|] eqn:Hget; [|done].
  apply addresses_get_inv in Hget as (i & f & -> & Hi).
  rewrite lookup_app_r by lia.
  replace (length (heap w) + i - length (heap w)) with i by lia.
  assert (newFileMap.*2 !! i = Some f) as ->
    by (apply list_lookup_fmap_Some; by exists (key, f)).
  intros [= <- <-].
  split; [lia|].
  destruct (Hentries key f) as (fileContent & _ & -> & -> & -> & ->);
    [by eapply list_elem_of_lookup_2|done].
Qed.

End Recomputing.

(** ** The properties on the sample worlds *)

(** Settle the test of a conditional conclusion on a sample world. *)
Ltac settle H :=
  lazymatch type of H with
  | if ?b then _ else _ =>
      let Hb := fresh in
      first [ assert (b = true) as Hb by (vm_compute; reflexivity)
            | assert (b = false) as Hb by (vm_compute; reflexivity) ];
      rewrite Hb in H; clear Hb
  end.

Lemma deleteFile_soft_deletes_witness :
  @lookupFile "foo.dart" (@deleteFile Sample.env Sample.fooPath Sample.world).2
  = Some (0, with_is_deleted true Sample.fooInfo)
  ∧ (@deleteFile Sample.env Sample.fooPath Sample.world).1 = Ok (JVal 0)
  ∧ emitted (@deleteFile Sample.env Sample.fooPath Sample.world).2
    = [(Sample.fooPath, 0)].
Proof.
  destruct (@deleteFile_soft_deletes Sample.env Sample.world Sample.fooPath 0
              Sample.fooInfo) as (Hfound & _ & _ & _ & _ & _ & Hend).
  - reflexivity.
  - vm_compute. discriminate.
  - reflexivity.
  - settle Hend. destruct Hend as (Hreturned & _ & Hemitted).
    split; [exact Hfound|]. split; [exact Hreturned|exact Hemitted].
Defined.

(** The same deletion after the folder of the actions has gone: the
    record is marked, the call raises, nothing is written or emitted. *)
Example deleteFile_without_directory :
  @deleteFile Sample.env Sample.fooPath Scenario.filesRemoved
  = (Throw FsError,
     with_this
       (with_actionIndex [] (this Scenario.filesRemoved))
       (with_heap [with_is_deleted true Sample.editedFoo; Sample.deletedBar]
          Scenario.filesRemoved)).
Proof. vm_compute. reflexivity. Qed.

Lemma delete_then_commit_forgets_witness :
  JsMap.get "foo.dart"
    (_fileMap
       (this (@setToSynced Sample.env
                (@deleteFile Sample.env Sample.fooPath Sample.world).2).2))
  = None
  ∧ ((@deleteFile Sample.env Sample.fooPath;; @setToSynced Sample.env)
       Sample.world).1
    = Ok tt.
Proof.
  destruct (@delete_then_commit_forgets Sample.env Sample.world Sample.fooPath
              0 Sample.fooInfo) as (Hforgotten & Hreturns & _).
  - reflexivity.
  - vm_compute. discriminate.
  - reflexivity.
  - apply (bool_decide_unpack _). vm_compute. exact I.
  - split; [exact Hforgotten|]. rewrite Hreturns by reflexivity.
    vm_compute. reflexivity.
Defined.

Lemma update_after_delete_witness :
  ∃ fields,
    @lookupFile "foo.dart"
      (@updateFile Sample.env Sample.fooPath
         (with_disk
            (<[Sample.fooPath := "foo"]>
               (disk (@deleteFile Sample.env Sample.fooPath Sample.world).2))
            (@deleteFile Sample.env Sample.fooPath Sample.world).2)).2
    = Some (0, fields)
    ∧ current_checksum fields = JVal "sha256:foo"
    ∧ is_deleted fields = true.
Proof.
  destruct (@update_after_delete Sample.env Sample.world Sample.fooPath "foo"
              0 Sample.fooInfo) as (_ & Hrecord & _).
  - reflexivity.
  - vm_compute. discriminate.
  - reflexivity.
  - exact Hrecord.
Defined.

Lemma renameFile_only_rebinds_witness :
  (@renameFile Sample.env Sample.fooPath Scenario.barPath Sample.world).1
  = Ok (JVal 0)
  ∧ disk (@renameFile Sample.env Sample.fooPath Scenario.barPath Sample.world).2
    = Sample.files
  ∧ actionIndex
      (this (@renameFile Sample.env Sample.fooPath Scenario.barPath
               Sample.world).2)
    = [("foo.dart", ["foo"])].
Proof.
  destruct (@renameFile_only_rebinds Sample.env Sample.world Sample.fooPath
              Scenario.barPath 0 Sample.fooInfo)
    as (Hreturned & _ & Hactions & _ & Hdisk & _).
  - reflexivity.
  - reflexivity.
  - split; [exact Hreturned|]. split; [exact Hdisk|exact Hactions].
Defined.

Lemma renameFile_same_basename_untracks_witness :
  @lookupFile "foo.dart"
    (@renameFile Sample.env Sample.fooPath Scenario.movedFooPath Sample.world).2
  = None.
Proof.
  destruct (@renameFile_same_basename_untracks Sample.env Sample.world
              Sample.fooPath Scenario.movedFooPath 0 Sample.fooInfo)
    as (_ & Huntracked & _).
  - reflexivity.
  - reflexivity.
  - reflexivity.
  - exact Huntracked.
Defined.

Lemma addFile_creates_record_witness :
  @lookupFile "bar.dart"
    (@addFile Sample.env Scenario.barPath Scenario.barCreated).2
  = Some (1, {| old_identifier_name := JVal "bar";
                new_identifier_name := JVal "bar";
                type := ACTION;
                is_deleted := false;
                original_checksum := JUndefined;
                current_checksum := JUndefined |})
  ∧ (@addFile Sample.env Scenario.barPath Scenario.barCreated).1 = Ok (JVal 1)
  ∧ emitted (@addFile Sample.env Scenario.barPath Scenario.barCreated).2
    = [(Scenario.barPath, 1)].
Proof.
  destruct (@addFile_creates_record Sample.env Scenario.barCreated
              Scenario.barPath "")
    as (_ & _ & Hfound & _ & _ & Hend).
  - reflexivity.
  - reflexivity.
  - intros _ _. exists "name: p". reflexivity.
  - intros a fileInfo Hfound. vm_compute in Hfound. discriminate.
  - settle Hend. destruct Hend as (Hreturned & _ & Hemitted).
    split; [exact Hfound|]. split; [exact Hreturned|exact Hemitted].
Defined.

Lemma updateFile_records_change_witness :
  @lookupFile "foo.dart"
    (@updateFile Sample.env Sample.fooPath Scenario.fooEdited).2
  = Some (0, Sample.editedFoo)
  ∧ first (default []
             (JsMap.get "foo.dart"
                (actionIndex
                   (this (@updateFile Sample.env Sample.fooPath
                            Scenario.fooEdited).2))))
    = JVal "fooBar"
  ∧ (@updateFile Sample.env Sample.fooPath Scenario.fooEdited).1
    = Ok (JVal 0).
Proof.
  destruct (@updateFile_records_change Sample.env Scenario.fooEdited
              Sample.fooPath "fooBar" 0 Sample.fooInfo)
    as (_ & Hfound & Hinferred & _ & Hend).
  - reflexivity.
  - vm_compute. discriminate.
  - reflexivity.
  - reflexivity.
  - vm_compute. discriminate.
  - split; [exact Hfound|]. split.
    + destruct (Hinferred "fooBar" eq_refl) as (_ & _ & Hindex). exact Hindex.
    + settle Hend. by destruct Hend as (Hreturned & _).
Defined.

(** The same edit seen by a manager whose root folder does not exist:
    the record and the index are updated in memory, then the write of
    the index document raises; nothing is written or emitted. *)
Example updateFile_without_directory :
  @updateFile Sample.env Sample.fooPath Scenario.fooEditedElsewhere
  = (Throw FsError,
     with_this
       (with_actionIndex [("foo.dart", ["fooBar"])]
          (this Scenario.fooEditedElsewhere))
       (with_heap [Sample.editedFoo] Scenario.fooEditedElsewhere)).
Proof. vm_compute. reflexivity. Qed.

Lemma updateFile_function_document_witness :
  heap (@updateFile Sample.env Scenario.functionsPath
          Scenario.functionsEdited).2
  = [ {| old_identifier_name := JVal "CustomFunctions";
         new_identifier_name := JVal "CustomFunctions";
         type := FUNCTION;
         is_deleted := false;
         original_checksum := JVal "sha256:A:a";
         current_checksum := JVal "sha256:A2:a2" |} ]
  ∧ _initialFunctionsCode
      (this (@updateFile Sample.env Scenario.functionsPath
               Scenario.functionsEdited).2)
    = "A:a".
Proof.
  destruct (@updateFile_function_document Sample.env Scenario.functionsEdited
              Scenario.functionsPath "A2:a2" 0 Scenario.functionsInfo)
    as (Hrecord & Hbaseline & _).
  - reflexivity.
  - reflexivity.
  - reflexivity.
  - reflexivity.
  - vm_compute. discriminate.
  - split; [exact Hrecord|exact Hbaseline].
Defined.

Lemma pushToFF_archive_failure_witness :
  @pushToFF Sample.env Scenario.platform Scenario.apiClient "/p" "request"
    Scenario.filesRemoved
  = (Ok {| error := Some "Error syncing with FlutterFlow: Error";
           fileWarnings := [] |},
     Scenario.filesRemoved).
Proof.
  apply (@pushToFF_archive_failure Sample.env Scenario.platform
           Scenario.apiClient "/p" "request" Scenario.filesRemoved "name: p"
           FsError); reflexivity.
Defined.

Lemma edited_file_is_pushed_witness :
  "/p/lib/custom_code/actions/foo.dart"
  ∈ @modifiedFiles Sample.env "/p"
      (snapshot (@updateFile Sample.env Sample.fooPath Scenario.fooEdited).2).
Proof.
  apply (@edited_file_is_pushed Sample.env Scenario.fooEdited Sample.fooPath
           "fooBar" 0 Sample.fooInfo "/p").
  - reflexivity.
  - reflexivity.
  - reflexivity.
  - vm_compute. discriminate.
Defined.

(** The function document, edited, is the modified file of the next
    push. *)
Example edited_functions_are_pushed :
  @modifiedFiles Sample.env "/p"
    (snapshot (@updateFile Sample.env Scenario.functionsPath
                 Scenario.functionsEdited).2)
  = ["/p/lib/flutter_flow/custom_functions.dart"].
Proof. vm_compute. reflexivity. Qed.

Lemma computeFileMap_in_sync_witness :
  @in_sync_with Sample.env "/p" Sample.files "foo.dart" Sample.fooInfo
  ∧ is_Some (JsMap.get "pubspec.yaml" Scenario.computedMap).
Proof.
  destruct (@computeFileMap_in_sync Sample.env "/p" Sample.files
              (@computeFileMap Sample.env "/p" Sample.files).2
              Scenario.computedMap) as (_ & Hentries & Hpubspec & _).
  - rewrite (surjective_pairing (@computeFileMap Sample.env "/p" Sample.files))
      at 1.
    by f_equal.
  - split; [|exact Hpubspec]. apply Hentries. reflexivity.
Defined.

Lemma refresh_resets_tracking_witness :
  @lookupFile "foo.dart" Scenario.refreshed = Some (2, Sample.fooInfo)
  ∧ _initialFunctionsCode (this Scenario.refreshed)
    = _functionsCode (this Scenario.refreshed)
  ∧ emitted Scenario.refreshed = emitted Sample.editedWorld.
Proof.
  destruct (@refresh_resets_tracking Sample.env Sample.editedWorld
              Scenario.refreshed)
    as (_ & _ & Hfunctions & _ & Hemitted).
  - vm_compute. reflexivity.
  - split; [reflexivity|]. split; [exact Hfunctions|exact Hemitted].
Defined.

(** A push from the edited project: the stand-in client answers with a
    document that the parser of the sample environment rejects, which
    is reported. *)
Example pushToFF_edited_project :
  (@pushToFF Sample.env Scenario.platform Scenario.apiClient "/p" "request"
     Sample.editedWorld).1
  = Ok {| error := Some "Error syncing with FlutterFlow: Error: {}";
          fileWarnings := [] |}.
Proof. vm_compute. reflexivity. Qed.

Lemma serialize_keeps_function_baseline_witness :
  (@serializeUpdateManager Sample.env Scenario.platform "/p"
     Scenario.persisted).1
  = Ok tt
  ∧ disk (@serializeUpdateManager Sample.env Scenario.platform "/p"
            Scenario.persisted).2
    !! "/p/lib/flutter_flow/custom_functions_snapshot.txt"
    = Some "".
Proof.
  destruct (@serialize_keeps_function_baseline Sample.env Scenario.platform
              Scenario.persisted "/p")
    as (_ & _ & _ & Hreturned & _ & Hwritten).
  assert (@allWritable Sample.env
            (@serialized Sample.env Scenario.platform "/p" Scenario.persisted)
            (disk Scenario.persisted) = true) as Hwritable
    by (vm_compute; reflexivity).
  rewrite Hwritable in Hreturned.
  destruct (Hwritten Hwritable) as (_ & Hsnapshot & _).
  split; [exact Hreturned|exact Hsnapshot].
Defined.

(** The function baseline of the edited project survives a save and a
    load. *)
Example serialize_then_load_sample :
  (@serializeUpdateManager Sample.env Scenario.platform "/p"
     Scenario.persisted).1
  = Ok tt
  ∧ match
      (@deserializeUpdateManager Sample.env "/p"
         (disk (@serializeUpdateManager Sample.env Scenario.platform "/p"
                  Scenario.persisted).2)).1
    with
    | Ok (_, manager) =>
        _initialFunctionsCode manager = ""
        ∧ _functionsCode (this Scenario.persisted) = "A2:a2"
    | Throw _ => False
    end.
Proof. vm_compute. done. Qed.

(** Without the folder [.vscode] the first write raises and nothing is
    written. *)
Example serializeUpdateManager_without_folder :
  @serializeUpdateManager Sample.env Scenario.platform "/p" Sample.editedWorld
  = (Throw FsError, Sample.editedWorld).
Proof. vm_compute. reflexivity. Qed.

(** A commit after the files under [lib] were removed: the records are
    rebased and the deleted one has left the map, the file map is
    persisted, then the write of the function snapshot raises. *)
Example setToSynced_without_directory :
  let w' := (@setToSynced Sample.env Scenario.filesRemoved).2 in
  (@setToSynced Sample.env Scenario.filesRemoved).1 = Throw FsError
  ∧ _fileMap (this w') = [("foo.dart", 0)]
  ∧ heap w' !! 0 = Some (rebase Sample.editedFoo)
  ∧ _initialFunctionsCode (this w') = "A2:a2"
  ∧ disk w' !! "/p/lib/flutter_flow/custom_functions_snapshot.txt" = None.
Proof. vm_compute. done. Qed.

(** ** Committing twice *)

Lemma JsMap_set_keys {V} (k : string) (v : V) (m : JsMap.t V) :
  NoDup (JsMap.keys m) →
  NoDup (JsMap.keys (JsMap.set k v m))
  ∧ ∀ k', k' ∈ JsMap.keys (JsMap.set k v m) → k' = k ∨ k' ∈ JsMap.keys m.
Proof.
  unfold JsMap.keys. induction m as [|[k0 v0] m IH]; simpl.
  - intros _. split; [apply NoDup_singleton|].
    intros k' ?%list_elem_of_singleton. by left.
  - rewrite NoDup_cons. intros [Hk0 Hnd].
    destruct (String.eqb k0 k) eqn:E.
    + apply String.eqb_eq in E as ->. rewrite fmap_cons. cbn. split.
      * by apply NoDup_cons.
      * intros k' [->|?]%elem_of_cons; [by left|]. right. by right.
    + destruct (IH Hnd) as [Hnd' Hkeys]. rewrite fmap_cons. cbn. split.
      * apply NoDup_cons. split; [|done].
        intros [->|?]%Hkeys; [|done]. by rewrite String.eqb_refl in E.
      * intros k' [->|[->|?]%Hkeys]%elem_of_cons.
        -- right. left.
        -- by left.
        -- right. by right.
Qed.

Lemma JsMap_of_entries_keys {V} (entries : list (string * V)) :
  NoDup (JsMap.keys (JsMap.of_entries entries)).
Proof.
  unfold JsMap.of_entries.
  assert (∀ acc : JsMap.t V, NoDup (JsMap.keys acc) →
            NoDup (JsMap.keys
                     (fold_left (λ m kv, JsMap.set kv.1 kv.2 m) entries acc)))
    as Hgen.
  { induction entries as [|[k v] l IH]; intros acc Hacc; simpl; [done|].
    apply IH. by apply JsMap_set_keys. }
  apply Hgen. constructor.
Qed.

Lemma filter_all {A} (P : A → bool) (l : list A) :
  (∀ x, x ∈ l → P x = true) → List.filter P l = l.
Proof.
  induction l as [|x l IH]; intros Hall; simpl; [done|].
  rewrite (Hall x) by left. f_equal. apply IH. intros y Hy. apply Hall. by right.
Qed.

Section CommitTwice.

Context `{Env}.

(** X22. A commit directly after a commit changes neither the records
    nor the manager: the map, the indexes and the function texts stay
    as the first commit left them, and nothing is emitted. *)
Theorem setToSynced_twice (w : World) :
  let w1 := (setToSynced w).2 in
  let w2 := (setToSynced w1).2 in
  heap w2 = heap w1 ∧ this w2 = this w1 ∧ emitted w2 = emitted w1.
Proof.
  intros w1 w2. subst w2 w1.
  destruct (setToSynced_world w) as (h & d & -> & Hh).
  set (w1 := with_disk d (synced h w)).
  destruct (setToSynced_world w1) as (h' & d' & -> & Hh').
  set (kept := List.filter (notDeleted (with_heap h w)) (_fileMap (this w))).
  assert (_fileMap (this w1) = JsMap.of_entries kept) as Hmap by done.
  assert (heap w1 = h) as Hheap by done.
  assert (∀ key a, (key, a) ∈ JsMap.of_entries kept →
            (key, a) ∈ _fileMap (this w) ∧ notDeleted (with_heap h w) (key, a) = true)
    as Hkept.
  { intros key a Hin%JsMap_of_entries_elem.
    apply list_elem_of_In, filter_In in Hin as [Hin%list_elem_of_In Hnot].
    done. }
  assert (h' = h) as ->.
  { apply list_eq. intros a. rewrite Hh', Hheap, Hmap.
    case_decide as Hin; [|done].
    apply list_elem_of_fmap in Hin as ([key a'] & -> & Hin).
    apply Hkept in Hin as [Hin _]. cbn.
    rewrite Hh, decide_True.
    2:{ apply list_elem_of_fmap. by exists (key, a'). }
    destruct (heap w !! a'); [|done]. cbn. by rewrite rebase_idempotent. }
  split; [done|]. split; [|done].
  assert (this (with_disk d' (synced h w1))
          = with_initialFunctionsCode (_functionsCode (this w1))
              (with_fileMap
                 (JsMap.of_entries
                    (List.filter (notDeleted (with_heap h w1))
                       (_fileMap (this w1))))
                 (this w1))) as -> by reflexivity.
  rewrite Hmap.
  assert (List.filter (notDeleted (with_heap h w1))
            (JsMap.of_entries kept) = JsMap.of_entries kept) as ->.
  { apply filter_all. intros [key a] Hin. by apply Hkept in Hin as [_ Hnot]. }
  rewrite (JsMap_of_entries_NoDup (JsMap.of_entries kept))
    by apply JsMap_of_entries_keys.
  cbn. by destruct (this w).
Qed.

End CommitTwice.

(** ** Loading without persisted state *)

Section FirstLoad.

Context `{Env}.

Lemma verifyChecksums_inv (projectPath key : string) (fileInfo fileInfo' : FileInfo)
    (s s' : Disk) :
  verifyChecksums projectPath key fileInfo s = (Ok fileInfo', s') →
  s' = s
  ∧ (in_sync_with projectPath s key fileInfo →
     in_sync_with projectPath s key fileInfo').
Proof.
  unfold verifyChecksums.
  destruct (negb (truthy (original_checksum fileInfo))
            && negb (truthy (current_checksum fileInfo))).
  - intros (c & s1 & Hsum & Hret)%bind_inv. injection Hret as <- <-.
    apply computeChecksum_inv in Hsum as [-> (fileContent & Hfile & ->)].
    split; [done|].
    intros (fileContent' & Hfile' & Horiginal & Hcurrent & Hdeleted & Hnames).
    assert (fileContent' = fileContent) as -> by congruence.
    exists fileContent. by destruct fileInfo.
  - by intros [= <- <-].
Qed.

(** X23. What a load takes from disk.  When
    [deserializeUpdateManager] returns, the current function text of
    the manager is the content of the function document, and the
    function baseline is the content of the snapshot file if there is
    one and the current text otherwise; the manager is rooted at the
    project path and not paused.  When there is no persisted file map,
    the map is computed from the index documents, so every record of
    the loaded map has both checksums equal to the digest of its file
    and nothing pending. *)
Theorem deserialize_without_persisted_state (projectPath : string)
    (d d' : Disk) (objects : list FileInfo) (manager : UpdateManager) :
  deserializeUpdateManager projectPath d = (Ok (objects, manager), d') →
  d !! customFunctionsPath projectPath = Some (_functionsCode manager)
  ∧ _initialFunctionsCode manager
    = default (_functionsCode manager)
        (d !! path_join [projectPath; kCustomFunctionsSnapshotPath])
  ∧ _rootPath manager = projectPath
  ∧ paused manager = false
  ∧ (d !! fileMapJsonPath projectPath = None →
     ∀ key a fileInfo,
       JsMap.get key (_fileMap manager) = Some a →
       objects !! a = Some fileInfo →
       in_sync_with projectPath d key fileInfo).
Proof.
  intros Hload.
  assert (∀ p (s s' : Disk) c, readFile p s = (Ok c, s') →
            s' = s ∧ s !! p = Some c) as Hread.
  { intros p s s' c. unfold readFile.
    destruct (s !! p); [|done]. by intros [= -> ->]. }
  assert (∀ {A} (r : Outcome A) (s s' : Disk) x, lift r s = (Ok x, s') → s' = s)
    as Hlift.
  { intros A r s s' x. unfold lift. by intros [= _ ->]. }
  unfold deserializeUpdateManager in Hload.
  apply bind_inv in Hload as (x1 & s1 & [-> _]%Hread & Hload).
  apply bind_inv in Hload as (x2 & s2 & ->%Hlift & Hload).
  apply bind_inv in Hload as (x3 & s3 & [-> _]%Hread & Hload).
  apply bind_inv in Hload as (x4 & s4 & ->%Hlift & Hload).
  apply bind_inv in Hload as (code & s5 & [-> Hcode]%Hread & Hload).
  unfold existsSync at 1 in Hload. rewrite bind_gets in Hload.
  apply bind_inv in Hload as (initial & s6 & Hinitial & Hload).
  assert (s6 = d
          ∧ initial
            = default code
                (d !! path_join [projectPath; kCustomFunctionsSnapshotPath]))
    as [-> ->].
  { destruct (d !! path_join [projectPath; kCustomFunctionsSnapshotPath])
      as [text|] eqn:Hsnapshot.
    - rewrite bool_decide_eq_true_2 in Hinitial by done.
      apply Hread in Hinitial as [-> Htext]. split; [done|].
      rewrite Hsnapshot in Htext. by injection Htext as <-.
    - rewrite bool_decide_eq_false_2 in Hinitial by (by intros [? ?]).
      by injection Hinitial as <- <-. }
  unfold existsSync in Hload. rewrite bind_gets in Hload.
  apply bind_inv in Hload as (fileMap & s7 & Hmap & Hload).
  apply bind_inv in Hload as (verified & s8 & Hverify & Hload).
  apply bind_inv in Hload as (x9 & s9 & _ & Hload).
  injection Hload as <- <- _. cbn.
  split; [done|]. split; [done|]. split; [done|]. split; [done|].
  intros Hnone key a fileInfo Hget Hobj.
  rewrite bool_decide_eq_false_2 in Hmap by (rewrite Hnone; by intros [? ?]).
  apply computeFileMap_entries in Hmap as (-> & Hentries & _).
  apply (forEntries_inv _
           (λ s k f f', in_sync_with projectPath s k f →
                        in_sync_with projectPath s k f')) in Hverify
    as [-> Hall].
  2:{ intros k f s f' s'. apply verifyChecksums_inv. }
  apply addresses_get_inv in Hget as (i & v & -> & Hi). cbn in Hobj.
  assert (verified.*2 !! i = Some v) as Hv
    by (apply list_lookup_fmap_Some; by exists (key, v)).
  assert (fileInfo = v) as -> by congruence.
  destruct (Forall2_lookup_r _ _ _ _ _ Hall Hi) as ([k f] & Hbefore & Hk & Hsync).
  cbn in Hk, Hsync. subst k. apply Hsync, Hentries.
  by eapply list_elem_of_lookup_2.
Qed.

End FirstLoad.

Lemma deserialize_without_persisted_state_witness :
  _initialFunctionsCode Scenario.loaded = _functionsCode Scenario.loaded
  ∧ @in_sync_with Sample.env "/p" Sample.files "foo.dart" Sample.fooInfo.
Proof.
  destruct (@deserialize_without_persisted_state Sample.env "/p" Sample.files
              (@deserializeUpdateManager Sample.env "/p" Sample.files).2
              [Sample.fooInfo; Scenario.computedFunctions;
               Scenario.computedPubspec]
              Scenario.loaded) as (_ & Hbaseline & _ & _ & Hrecords).
  - rewrite (surjective_pairing
               (@deserializeUpdateManager Sample.env "/p" Sample.files)) at 1.
    by f_equal.
  - split; [exact Hbaseline|].
    apply (Hrecords eq_refl "foo.dart" 0); reflexivity.
Defined.

(** ** Adding an empty file outside a project *)

Section NoPubspec.

Context `{Env}.

(** X24. The boilerplate step needs [pubspec.yaml].  Adding an empty
    action or widget file when [pubspec.yaml] cannot be read raises the
    read error, and nothing has happened: no boilerplate is written, no
    record is created, the indexes and the persisted snapshot are
    untouched and no notification is emitted. *)
Theorem addFile_empty_without_pubspec (w : World) (filePath : string) :
  paused (this w) = false →
  disk w !! filePath = Some "" →
  pathToCodeType filePath = ACTION ∨ pathToCodeType filePath = WIDGET →
  disk w !! path_join [_rootPath (this w); "pubspec.yaml"] = None →
  addFile filePath w = (Throw FsError, w).
Proof.
  intros Hpaused Hfile Hcode Hpubspec.
  assert (themeImportPath w = (Throw FsError, w)) as Htheme.
  { unfold themeImportPath. rewrite bind_gets.
    unfold bind, on_disk, readFile. by rewrite Hpubspec, with_disk_same. }
  assert (insertBoilerplate filePath w = (Throw FsError, w)) as Hboilerplate.
  { unfold insertBoilerplate, customFunctionsExist.
    destruct Hcode as [Hcode|Hcode].
    - rewrite decide_True by done.
      by rewrite bind_ret, (bind_thrown _ _ _ _ _ Htheme).
    - destruct (decide (pathToCodeType filePath = ACTION));
        [|rewrite decide_True by done];
        by rewrite bind_ret, (bind_thrown _ _ _ _ _ Htheme). }
  unfold addFile. rewrite bind_gets, Hpaused, (bind_read _ "") by done.
  rewrite bool_decide_eq_true_2 by done.
  by rewrite (bind_thrown _ _ _ _ _ Hboilerplate).
Qed.

End NoPubspec.

Lemma addFile_empty_without_pubspec_witness :
  @addFile Sample.env Scenario.barPath Scenario.barCreatedOutside
  = (Throw FsError, Scenario.barCreatedOutside).
Proof.
  apply (@addFile_empty_without_pubspec Sample.env Scenario.barCreatedOutside
           Scenario.barPath).
  - reflexivity.
  - reflexivity.
  - left. reflexivity.
  - reflexivity.
Defined.
